(** * Target-size-seeking compression controllers

    A shallow embedding of the parameter searches of the file compressor
    (backend/utils/image_compressor.py, pdf_compressor.py and
    video_compressor.py), together with the properties of these searches.

    The encoders (Pillow, Ghostscript, ffmpeg) are external: every search is
    parameterised by an encoder function that returns the produced artifact
    and its size in bytes, or nothing when the encoder raises.  Each call of
    an encoder is recorded in a log of probes, so that statements about
    "all probes taken" can be made about the functions themselves.

    A Python float is modelled by the rational number ([Q]) it denotes.
    Comparisons and clamping are exact.  Where the code truncates, rounds
    or reports the result of float arithmetic (the scaled dimensions, the
    percentages and the sizes in KB and MB of the returned information),
    every operation is rounded to the nearest binary64 value, ties to
    even, as the hardware does ([round_double]).  The bitrates of the video
    converger and the midpoints and sizes compared by the PDF search are
    kept exact. *)

From Stdlib Require Import ZArith QArith Qround Qabs Qpower List Sorted String Ascii
  Bool Lia.
Import ListNotations.
Open Scope Z_scope.

(** ** Exceptions and the probe-logging monad *)

Inductive exn : Type :=
| ValueError (msg : string)
| RuntimeError (msg : string)
| TypeError (msg : string)
| OSError (msg : string)
| ZeroDivisionError
| EncoderError.

Inductive outcome (A : Type) : Type :=
| Return (a : A)
| Raise (e : exn).
Arguments Return {A} a.
Arguments Raise {A} e.

(** A computation yields a value or an exception, and the list of the
    encoder calls it made, in order. *)
Definition M (P A : Type) : Type := (outcome A * list P)%type.

Definition ret {P A : Type} (a : A) : M P A := (Return a, []).

Definition raise {P A : Type} (e : exn) : M P A := (Raise e, []).

Definition bind {P A B : Type} (m : M P A) (k : A -> M P B) : M P B :=
  match m with
  | (Return a, l) => let (r, l') := k a in (r, l ++ l')
  | (Raise e, l) => (Raise e, l)
  end.

(** [try: m except Exception as e: handler e] *)
Definition catch {P A : Type} (m : M P A) (handler : exn -> M P A) : M P A :=
  match m with
  | (Return a, l) => (Return a, l)
  | (Raise e, l) => let (r, l') := handler e in (r, l ++ l')
  end.

Definition result {P A : Type} (m : M P A) : outcome A := fst m.
Definition probes {P A : Type} (m : M P A) : list P := snd m.

Declare Scope trace_scope.
Delimit Scope trace_scope with trace.
Notation "x <- c1 ;; c2" := (bind c1 (fun x => c2))
  (at level 61, c1 at next level, right associativity) : trace_scope.
Notation "' pat <- c1 ;; c2" :=
  (bind c1 (fun x => match x with pat => c2 end))
  (at level 61, pat pattern, c1 at next level, right associativity) : trace_scope.
Open Scope trace_scope.

(** ** Python helpers *)

(** [range(a, b)] *)
Definition py_range (a b : Z) : list Z :=
  map (fun i => a + Z.of_nat i) (seq 0 (Z.to_nat (b - a))).

(** [int(x)] on a float: truncation towards zero. *)
Definition py_int (x : Q) : Z := Z.quot (Qnum x) (Zpos (Qden x)).

Definition Qlt_bool (a b : Q) : bool := negb (Qle_bool b a).

(** [max(a, b)] and [min(a, b)]: the first argument wins ties. *)
Definition py_max (a b : Q) : Q := if Qlt_bool a b then b else a.
Definition py_min (a b : Q) : Q := if Qlt_bool b a then b else a.

(** The nearest integer, ties to even. *)
Definition round_half_even (x : Q) : Z :=
  let f := Qfloor x in
  let r := (x - inject_Z f)%Q in
  if Qlt_bool r (1 # 2) then f
  else if Qlt_bool (1 # 2) r then f + 1
  else if Z.even f then f else f + 1.

(** For [0 < x], the exponent [e] with [2^e <= x < 2^(e+1)]. *)
Definition binade (x : Q) : Z :=
  let k := Z.log2 (Qnum x) - Z.log2 (Zpos (Qden x)) in
  if Qle_bool (2 ^ k) x then k else k - 1.

(** The binary64 number nearest to [x], ties to even: the value of a float
    literal, of [float(n)] and of the exact result of any float operation.
    A significand of 53 bits is kept at the exponent of [x]; this is the
    IEEE 754 result for magnitudes from 2^-1022 up to 2^1024, where the
    sizes, dimensions and percentages of this program lie.  Overflow,
    subnormal numbers, NaN and the sign of zero are not modelled. *)
Definition round_double (x : Q) : Q :=
  match Qnum x with
  | Z0 => 0%Q
  | _ =>
      let a := Qabs x in
      let e := binade a - 52 in
      let m := round_half_even (a / 2 ^ e) in
      let y := (inject_Z m * 2 ^ e)%Q in
      Qred (if Qlt_bool x 0 then - y else y)
  end.

(** [a * b], [a - b] and [a / b] on floats. *)
Definition float_mul (a b : Q) : Q := round_double (a * b).
Definition float_sub (a b : Q) : Q := round_double (a - b).
Definition float_div (a b : Q) : Q := round_double (a / b).

(** [float(n)], also the conversion of an int operand of a float operation. *)
Definition py_float (n : Z) : Q := round_double (inject_Z n).

(** [a / b] on ints: the quotient, correctly rounded. *)
Definition py_truediv (a b : Z) : Q := round_double (inject_Z a / inject_Z b).

(** [round(x, 2)] on a float: the exact value of [x] is rounded to two
    decimals, ties to even, and the decimal result is read back as a
    float. *)
Definition py_round2 (x : Q) : Q :=
  round_double (inject_Z (round_half_even (x * 100)) / 100).

Definition lower_ascii (c : ascii) : ascii :=
  let n := nat_of_ascii c in
  if (andb (Nat.leb 65 n) (Nat.leb n 90)) then ascii_of_nat (n + 32) else c.

Definition upper_ascii (c : ascii) : ascii :=
  let n := nat_of_ascii c in
  if (andb (Nat.leb 97 n) (Nat.leb n 122)) then ascii_of_nat (n - 32) else c.

Fixpoint map_string (f : ascii -> ascii) (s : string) : string :=
  match s with
  | EmptyString => EmptyString
  | String c r => String (f c) (map_string f r)
  end.

(** [s.lower()] and [s.upper()] on ASCII strings, such as the format names
    of Pillow.  On other characters the case mappings of Python follow
    Unicode; the code that lower-cases text of the request (app.py) takes
    [str.lower] as a parameter. *)
Definition lower (s : string) : string := map_string lower_ascii s.
Definition upper (s : string) : string := map_string upper_ascii s.

(** A string of ASCII characters only. *)
Definition ascii_only (s : string) : Prop :=
  forall c, In c (list_ascii_of_string s) -> (nat_of_ascii c < 128)%nat.

(** ** image_compressor.py *)

Module Image.

(** What the controller reads of a decoded [PIL.Image]. *)
Record image : Type := {
  img_format : option string;   (* image.format, possibly None *)
  img_mode : string;            (* image.mode *)
  img_size : Z * Z              (* image.size *)
}.

(** The uploaded file: its size, its [filename] attribute when it has one,
    and the image [Image.open]/[load] produce (nothing when they raise). *)
Record file : Type := {
  file_bytes : Z;
  file_name : option string;
  file_image : option image
}.

(** One encoder call: the arguments of [compress_with_settings] and the size
    it measured (nothing when saving raised). *)
Record probe : Type := {
  pr_format : string;
  pr_quality : Z;
  pr_width : option Z;
  pr_height : option Z;
  pr_size : option Z
}.

Definition compliant (target_size : Z) (p : probe) : bool :=
  match pr_size p with
  | Some s => s <=? target_size
  | None => false
  end.

(** The dictionary [compression_info]; a key that a return path leaves out
    is [None]. *)
Record compression_info : Type := {
  original_size : Z;
  compressed_size : Z;
  actual_size_bytes : option Z;
  reduction_percent : Q;
  quality : Z;
  dimensions : option (Z * Z);
  original_dimensions : option (Z * Z);
  final_dimensions : option (Z * Z);
  resized : bool;
  format : option string;
  target_size_kb : option Z;
  success : option bool
}.

Section Encoder.

(** The output buffers of the encoder. *)
Variable Buffer : Type.

(** Resampling and saving with Pillow: image, format, quality, width and
    height give a buffer and its size, or nothing when saving raises. *)
Variable encode :
  image -> string -> Z -> option Z -> option Z -> option (Buffer * Z).

(** [os.path.splitext(os.path.basename(filename))[0]] *)
Variable base_name_of : string -> string.

Inductive artifact : Type :=
| Original (f : file)
| Compressed (b : Buffer).

Definition compress_with_settings (image : image) (format : string)
  (quality : Z) (width height : option Z) : M probe (Buffer * Z) :=
  match encode image format quality width height with
  | Some (buffer, size) =>
      (Return (buffer, size),
       [ {| pr_format := format; pr_quality := quality; pr_width := width;
            pr_height := height; pr_size := Some size |} ])
  | None =>
      (Raise EncoderError,
       [ {| pr_format := format; pr_quality := quality; pr_width := width;
            pr_height := height; pr_size := None |} ])
  end.

(** [target_size - size <= tolerance_bytes] *)
Definition within_tolerance (target_size size : Z) (tolerance_bytes : Q) : bool :=
  Qle_bool (inject_Z (target_size - size)) tolerance_bytes.

Section Search.

Variables (image : image) (format : string) (target_size : Z).
Variables (min_quality max_quality : Z) (width height : option Z).
Variable tolerance_pct : Q.

Definition tolerance_bytes : Q := (inject_Z target_size * tolerance_pct / 100)%Q.

(** The main loop, [while low <= high and iterations < max_iterations];
    [remaining] is [max_iterations - iterations]. *)
Fixpoint search_loop (remaining : nat) (low high : Z) (best : Buffer * Z * Z)
  : M probe (Buffer * Z * Z) :=
  match remaining with
  | O => ret best
  | S remaining' =>
      if low <=? high then
        let mid := (low + high) / 2 in
        '(buffer, size) <- compress_with_settings image format mid width height ;;
        if size <=? target_size then
          if within_tolerance target_size size tolerance_bytes
          then ret (buffer, size, mid)
          else search_loop remaining' (mid + 1) high (buffer, size, mid)
        else search_loop remaining' low (mid - 1) best
      else ret best
  end.

(** The fine-tuning loop over the quality levels right above the best. *)
Fixpoint fine_tune (qs : list Z) (best : Buffer * Z * Z)
  : M probe (Buffer * Z * Z) :=
  match qs with
  | [] => ret best
  | q :: qs' =>
      '(buffer, size) <- compress_with_settings image format q width height ;;
      let '(_, best_size, _) := best in
      if (size <=? target_size) && (best_size <? size)
      then fine_tune qs' (buffer, size, q)
      else fine_tune qs' best
  end.

Definition fine_tune_range (best_quality : Z) : list Z :=
  py_range (best_quality + 1) (Z.min (best_quality + 5) (max_quality + 1)).

Definition max_iterations : nat := 20.

(** [(None, None, None)] is [None]; a found triple is [(buffer, size, quality)]. *)
Definition binary_search_quality : M probe (option (Buffer * Z * Z)) :=
  '(buffer, size) <- compress_with_settings image format max_quality width height ;;
  if size <=? target_size then ret (Some (buffer, size, max_quality)) else
  '(buffer, size) <- compress_with_settings image format min_quality width height ;;
  if target_size <? size then ret None else
  let best := (buffer, size, min_quality) in
  if within_tolerance target_size size tolerance_bytes then ret (Some best) else
  best <- search_loop max_iterations min_quality max_quality best ;;
  let '(_, _, best_quality) := best in
  best <- fine_tune (fine_tune_range best_quality) best ;;
  ret (Some best).

End Search.

(** [scale_factor] is a float; the int is converted and the product
    rounded before [int] truncates it. *)
Definition calculate_new_dimensions (original_width original_height : Z)
  (scale_factor : Q) : Z * Z :=
  let new_width :=
    Z.max 1 (py_int (float_mul (py_float original_width) scale_factor)) in
  let new_height :=
    Z.max 1 (py_int (float_mul (py_float original_height) scale_factor)) in
  (new_width, new_height).

(** The float literals [0.9, 0.8, ..., 0.2]. *)
Definition scale_factors : list Q :=
  map round_double
    [9 # 10; 8 # 10; 7 # 10; 6 # 10; 5 # 10; 4 # 10; 3 # 10; 2 # 10]%Q.

(** The float literal [0.1] of the last resort. *)
Definition last_resort_scale : Q := round_double (1 # 10).

(** The [for scale in scale_factors] loop of [compress_image]: the first
    scale at which something fits, with the dimensions used. *)
Fixpoint resize_ladder (image : image) (format : string) (target_size : Z)
  (original_width original_height : Z) (scales : list Q)
  : M probe (option (Buffer * Z * Z * (Z * Z))) :=
  match scales with
  | [] => ret None
  | scale :: scales' =>
      let '(new_width, new_height) :=
        calculate_new_dimensions original_width original_height scale in
      '(buffer, size) <- compress_with_settings image format 95
                           (Some new_width) (Some new_height) ;;
      if size <=? target_size
      then ret (Some (buffer, size, 95, (new_width, new_height)))
      else
        r <- binary_search_quality image format target_size 1 95
               (Some new_width) (Some new_height) 1 ;;
        match r with
        | Some (buffer, size, quality) =>
            ret (Some (buffer, size, quality, (new_width, new_height)))
        | None =>
            resize_ladder image format target_size
              original_width original_height scales'
        end
  end.

(** [image.format or 'JPEG'] *)
Definition original_format_of (image : image) : string :=
  match img_format image with
  | Some s => if String.eqb s "" then "JPEG" else s
  | None => "JPEG"
  end.

(** The choice of [format_for_compression]. *)
Definition format_for_compression_of (image : image)
  (original_size target_size : Z) : string :=
  let original_format := original_format_of image in
  if String.eqb (upper original_format) "PNG"
     && String.eqb (img_mode image) "RGBA"
     && Qlt_bool (inject_Z target_size) (inject_Z original_size * (1 # 2))
  then "WEBP" else original_format.

Definition new_filename_of (base_name extension : string) : string :=
  (base_name ++ "_compressed." ++ extension)%string.

Definition compress_image (file : file) (max_size_kb : Z)
  : M probe (artifact * string * compression_info) :=
  let original_size := file_bytes file in
  let target_size := max_size_kb * 1024 in
  match file_image file with
  | None => raise (ValueError "Invalid image file")
  | Some image =>
    let original_format := original_format_of image in
    let filename :=
      match file_name file with Some n => n | None => "image.jpg"%string end in
    let base_name := base_name_of filename in
    if original_size <=? target_size then
      ret (Original file,
           new_filename_of base_name (lower original_format),
           {| original_size := original_size / 1024;
              compressed_size := original_size / 1024;
              actual_size_bytes := None;
              reduction_percent := 0;
              quality := 100;
              dimensions := Some (img_size image);
              original_dimensions := None;
              final_dimensions := None;
              resized := false;
              format := None;
              target_size_kb := None;
              success := None |})
    else
    let format_for_compression :=
      format_for_compression_of image original_size target_size in
    first <- binary_search_quality image format_for_compression target_size
               1 95 None None 1 ;;
    state <-
      match first with
      | Some best => ret (Some best, false, img_size image)
      | None =>
          let '(original_width, original_height) := img_size image in
          r <- resize_ladder image format_for_compression target_size
                 original_width original_height scale_factors ;;
          match r with
          | Some (buffer, size, quality, dims) =>
              ret (Some (buffer, size, quality), true, dims)
          | None =>
              let '(min_width, min_height) :=
                calculate_new_dimensions original_width original_height
                  last_resort_scale in
              '(buffer, size) <- compress_with_settings image format_for_compression
                                   1 (Some min_width) (Some min_height) ;;
              ret (Some (buffer, size, 1), true, (min_width, min_height))
          end
      end ;;
    let '(best, was_resized, final_dims) := state in
    match best with
    | None =>
        raise (ValueError "Failed to compress image to target size with any method")
    | Some (best_buffer, best_size, best_quality) =>
        if original_size =? 0 then raise ZeroDivisionError else
        ret (Compressed best_buffer,
             new_filename_of base_name (lower format_for_compression),
             {| original_size := original_size / 1024;
                compressed_size := (best_size + 1023) / 1024;
                actual_size_bytes := Some best_size;
                reduction_percent :=
                  py_round2
                    (float_mul (float_sub 1 (py_truediv best_size original_size)) 100);
                quality := best_quality;
                dimensions := None;
                original_dimensions := Some (img_size image);
                final_dimensions := Some final_dims;
                resized := was_resized;
                format := Some format_for_compression;
                target_size_kb := Some max_size_kb;
                success := Some (best_size <=? target_size) |})
    end
  end.

(** The design assumption of the search: at fixed dimensions a higher
    quality never gives a smaller output. *)
Definition size_monotone (image : image) (format : string)
  (width height : option Z) : Prop :=
  forall q q' b s b' s',
    q <= q' ->
    encode image format q width height = Some (b, s) ->
    encode image format q' width height = Some (b', s') ->
    s <= s'.

(** The encoder answers every call on this image. *)
Definition never_raises (image : image) : Prop :=
  forall format quality width height,
    encode image format quality width height <> None.

End Encoder.

End Image.

(** ** pdf_compressor.py *)

Module Pdf.

Record level : Type := {
  quality_factor : Q;
  gs_preset : string;
  dpi : Z
}.

Definition lowest_level : level :=
  {| quality_factor := 0; gs_preset := "/screen"; dpi := 36 |}.

Definition CUSTOM_QUALITY_LEVELS : list level :=
  [ lowest_level;
    {| quality_factor := 1 # 10; gs_preset := "/screen"; dpi := 50 |};
    {| quality_factor := 2 # 10; gs_preset := "/screen"; dpi := 72 |};
    {| quality_factor := 3 # 10; gs_preset := "/ebook"; dpi := 100 |};
    {| quality_factor := 4 # 10; gs_preset := "/ebook"; dpi := 150 |};
    {| quality_factor := 5 # 10; gs_preset := "/ebook"; dpi := 200 |};
    {| quality_factor := 6 # 10; gs_preset := "/printer"; dpi := 225 |};
    {| quality_factor := 7 # 10; gs_preset := "/printer"; dpi := 250 |};
    {| quality_factor := 8 # 10; gs_preset := "/printer"; dpi := 300 |};
    {| quality_factor := 9 # 10; gs_preset := "/prepress"; dpi := 300 |};
    {| quality_factor := 1; gs_preset := "/prepress"; dpi := 400 |} ].

(** The [for ... in enumerate(levels)] scan with its early [return]. *)
Fixpoint first_level (factor : Q) (levels : list level) : option level :=
  match levels with
  | [] => None
  | level :: levels' =>
      if Qle_bool factor (quality_factor level) then Some level
      else first_level factor levels'
  end.

Definition get_settings_for_quality_factor (factor : Q) : level :=
  match first_level factor CUSTOM_QUALITY_LEVELS with
  | Some level => level
  | None => last CUSTOM_QUALITY_LEVELS lowest_level
  end.

(** One Ghostscript run: the settings used and the size of the output in
    bytes (nothing when Ghostscript failed). *)
Record probe : Type := {
  pr_level : level;
  pr_size : option Z
}.

Inductive quality_label : Type :=
| QualityOriginal
| QualityPercent (n : Z).

Record compression_info : Type := {
  original_size : Q;
  compressed_size : Q;
  reduction_percent : Q;
  quality : quality_label
}.

(** What [compress_to_target_size] is given as [input_file]: an instance
    of [io.IOBase] holding that many bytes; a path ([str], [bytes] or
    [os.PathLike]) of a file of that size, or of no file that can be read;
    or any other object, which [open] refuses with a [TypeError].  The
    upload object of werkzeug that app.py passes is of the last kind: it is
    no [io.IOBase] and no path. *)
Inductive input_file : Type :=
| FileObject (bytes : Z)
| FilePath (bytes : option Z)
| OtherObject.

Section Encoder.

(** The documents Ghostscript writes. *)
Variable Document : Type.

(** Ghostscript on the input with given settings: the output and its size
    in bytes, or nothing on a non-zero return code. *)
Variable ghostscript : level -> option (Document * Z).

(** The file a call hands back: the input itself, or a copy of an output
    of Ghostscript with its size in bytes. *)
Inductive artifact : Type :=
| Input
| Output (d : Document) (bytes : Z).

Definition compress_pdf (settings : level) : M probe (Document * Z) :=
  match ghostscript settings with
  | Some (d, bytes) =>
      (Return (d, bytes), [ {| pr_level := settings; pr_size := Some bytes |} ])
  | None =>
      (Raise (RuntimeError "Ghostscript failed"),
       [ {| pr_level := settings; pr_size := None |} ])
  end.

Definition size_mb (bytes : Z) : Q := (inject_Z bytes / inject_Z (1024 * 1024))%Q.

Definition compliant (target_size_mb : Q) (p : probe) : bool :=
  match pr_size p with
  | Some bytes => Qle_bool (size_mb bytes) target_size_mb
  | None => false
  end.

(** The loop [while (high - low) > 0.05 and iteration < max_iterations];
    [remaining] is [max_iterations - iteration], [best] is the output kept
    as [best_output_path], its size, and [best_quality]. *)
Fixpoint factor_loop (target_size_mb : Q) (remaining : nat) (low high : Q)
  (best : Document * Z * Q) : M probe (Document * Z * Q) :=
  match remaining with
  | O => ret best
  | S remaining' =>
      if Qlt_bool (5 # 100) (high - low) then
        let mid := ((low + high) / 2)%Q in
        let settings := get_settings_for_quality_factor mid in
        next <-
          catch
            ('(d, bytes) <- compress_pdf settings ;;
             let current_size_mb := size_mb bytes in
             if Qle_bool current_size_mb target_size_mb then
               let '(_, best_bytes, _) := best in
               let best' :=
                 if Qlt_bool (size_mb best_bytes) current_size_mb
                 then (d, bytes, mid) else best in
               ret (mid, high, best')
             else ret (low, mid, best))
            (fun _ => ret (low, mid, best)) ;;
        let '(low', high', best') := next in
        factor_loop target_size_mb remaining' low' high' best'
      else ret best
  end.

Definition max_iterations : nat := 8.

(** The destination of the copy ([output_path] or a name derived from the
    input) does not influence the search and is left out. *)
Definition find_optimal_compression (input_bytes : Z) (target_size_mb : Q)
  : M probe (artifact * Q) :=
  let input_size_mb := size_mb input_bytes in
  if Qle_bool input_size_mb target_size_mb then ret (Input, input_size_mb) else
  let lowest_settings := get_settings_for_quality_factor 0 in
  '(lowest, lowest_bytes) <- compress_pdf lowest_settings ;;
  let lowest_size_mb := size_mb lowest_bytes in
  if Qlt_bool target_size_mb lowest_size_mb
  then ret (Output lowest lowest_bytes, lowest_size_mb) else
  let highest_settings := get_settings_for_quality_factor 1 in
  '(highest, highest_bytes) <- compress_pdf highest_settings ;;
  let highest_size_mb := size_mb highest_bytes in
  if Qle_bool highest_size_mb target_size_mb
  then ret (Output highest highest_bytes, highest_size_mb) else
  '(best, best_bytes, _) <-
     factor_loop target_size_mb max_iterations 0 1 (lowest, lowest_bytes, 0%Q) ;;
  ret (Output best best_bytes, size_mb best_bytes).

Definition artifact_bytes (input_bytes : Z) (a : artifact) : Z :=
  match a with
  | Input => input_bytes
  | Output _ bytes => bytes
  end.

(** [get_file_size_kb]: the size in bytes divided by 1024, as a float. *)
Definition get_file_size_kb (bytes : Z) : Q := py_truediv bytes 1024.

(** The part of [compress_to_target_size] after the input was copied to a
    temporary file of [input_bytes] bytes.  The divisions by
    [original_size_kb] raise when it is zero. *)
Definition compress_temp_input (input_bytes : Z) (target_size_kb : Z)
  : M probe (artifact * compression_info) :=
  let original_size_kb := get_file_size_kb input_bytes in
  let target_size_mb := (inject_Z target_size_kb / 1024)%Q in
  '(compressed, _) <- find_optimal_compression input_bytes target_size_mb ;;
  let final_size_kb := get_file_size_kb (artifact_bytes input_bytes compressed) in
  if Qeq_bool original_size_kb 0 then raise ZeroDivisionError else
  let reduction_percent :=
    float_mul
      (float_div (float_sub original_size_kb final_size_kb) original_size_kb) 100 in
  let quality_percent := float_mul (float_div final_size_kb original_size_kb) 100 in
  ret (compressed,
       {| original_size := py_round2 original_size_kb;
          compressed_size := py_round2 final_size_kb;
          reduction_percent := py_round2 reduction_percent;
          quality := if Qle_bool original_size_kb final_size_kb
                     then QualityOriginal
                     else QualityPercent (py_int quality_percent) |}).

(** [isinstance(input_file, io.IOBase)] selects how the input is copied:
    a file object is read, anything else is handed to [open]. *)
Definition compress_to_target_size (input_file : input_file) (target_size_kb : Z)
  : M probe (artifact * compression_info) :=
  match input_file with
  | FileObject input_bytes => compress_temp_input input_bytes target_size_kb
  | FilePath (Some input_bytes) => compress_temp_input input_bytes target_size_kb
  | FilePath None => raise (OSError "No such file or directory")
  | OtherObject =>
      raise (TypeError "expected str, bytes or os.PathLike object")
  end.

(** The design assumption of the search: a higher tier never gives a
    smaller output. *)
Definition size_monotone : Prop :=
  forall l l' d s d' s',
    In l CUSTOM_QUALITY_LEVELS -> In l' CUSTOM_QUALITY_LEVELS ->
    (quality_factor l <= quality_factor l')%Q ->
    ghostscript l = Some (d, s) ->
    ghostscript l' = Some (d', s') ->
    s <= s'.

End Encoder.

End Pdf.

(** ** video_compressor.py *)

Module Video.

Definition BUFFER_MIN : Q := 1.
Definition BUFFER_MAX : Q := 2.
Definition BUFFER_AVG : Q := (BUFFER_MIN + BUFFER_MAX) / 2.

(** What [get_video_info] returns. *)
Record video_info : Type := {
  duration : Q;
  width : Z;
  height : Z;
  format : string
}.

(** The input file: its size in bytes and what ffprobe reports about it
    (nothing when [get_video_info] raises). *)
Record source : Type := {
  src_bytes : Z;
  src_info : option video_info
}.

(** One ffmpeg run: the bitrate and dimensions passed to
    [run_ffmpeg_compression] and the size of the file it wrote. *)
Record probe : Type := {
  pr_bitrate : Q;
  pr_width : option Z;
  pr_height : option Z;
  pr_size : option Z
}.

Definition min_bitrate : Q := 100000.
Definition max_bitrate : Q := 4000000.

(** [max(min_bitrate, min(video_bitrate, max_bitrate))] *)
Definition clamp_bitrate (video_bitrate : Q) : Q :=
  py_max min_bitrate (py_min video_bitrate max_bitrate).

(** [min_bytes <= final_size <= max_bytes] *)
Definition in_band (min_bytes max_bytes : Q) (final_size : Z) : bool :=
  Qle_bool min_bytes (inject_Z final_size) && Qle_bool (inject_Z final_size) max_bytes.

Section Encoder.

(** The contents ffmpeg writes to the output path. *)
Variable Clip : Type.

(** ffmpeg on the input: video bitrate, audio bitrate, width, height and
    container format give the written file and its size, or nothing when
    ffmpeg fails. *)
Variable ffmpeg :
  Q -> Z -> option Z -> option Z -> option string -> option (Clip * Z).

(** What a call hands back: the input file itself or a file written by
    ffmpeg.  [compress_video_to_target] has no path that hands back the
    input. *)
Inductive artifact : Type :=
| Untouched (s : source)
| Transcoded (c : Clip).

(** [run_ffmpeg_compression] followed by [os.path.getsize(output_path)].
    Every run writes the same [output_path], so the file found there is the
    one of the latest run. *)
Definition run_ffmpeg_compression (video_bitrate : Q) (audio_bitrate : Z)
  (width height : option Z) (format : option string) : M probe (Clip * Z) :=
  match ffmpeg video_bitrate audio_bitrate width height format with
  | Some (c, size) =>
      (Return (c, size),
       [ {| pr_bitrate := video_bitrate; pr_width := width; pr_height := height;
            pr_size := Some size |} ])
  | None =>
      (Raise (RuntimeError "Video compression failed"),
       [ {| pr_bitrate := video_bitrate; pr_width := width; pr_height := height;
            pr_size := None |} ])
  end.

(** One adjustment of the bitrate inside the loop. *)
Definition adjust_bitrate (max_bytes : Q) (final_size : Z) (video_bitrate : Q) : Q :=
  let video_bitrate :=
    if Qlt_bool max_bytes (inject_Z final_size)
    then (video_bitrate * (9 # 10))%Q
    else (video_bitrate * (11 # 10))%Q in
  clamp_bitrate video_bitrate.

(** The loop [while not (min_bytes <= final_size <= max_bytes) and
    attempt <= max_attempts]; [remaining] is [max_attempts - attempt + 1].
    The state is the file at [output_path], its size and the bitrate. *)
Fixpoint adjust_loop (info : video_info) (audio_bitrate : Z)
  (min_bytes max_bytes : Q) (remaining : nat)
  (current : Clip * Z) (video_bitrate : Q) : M probe (Clip * Z * Q) :=
  match remaining with
  | O => ret (current, video_bitrate)
  | S remaining' =>
      let '(_, final_size) := current in
      if negb (in_band min_bytes max_bytes final_size) then
        let video_bitrate := adjust_bitrate max_bytes final_size video_bitrate in
        current <- run_ffmpeg_compression video_bitrate audio_bitrate
                     (Some (width info)) (Some (height info)) (Some (format info)) ;;
        adjust_loop info audio_bitrate min_bytes max_bytes remaining'
          current video_bitrate
      else ret (current, video_bitrate)
  end.

Definition max_attempts : nat := 4.

Definition compress_video_to_target (input : source) (max_size_mb : Q)
  : M probe (artifact * Q) :=
  match src_info input with
  | None => raise (ValueError "Could not read video information")
  | Some info =>
    if Qle_bool (duration info) 0 then raise (ValueError "Invalid video duration") else
    let target_size_mb := (max_size_mb - BUFFER_AVG)%Q in
    let min_size_mb := (max_size_mb - BUFFER_MAX)%Q in
    let max_size_mb := (max_size_mb - BUFFER_MIN)%Q in
    let target_bytes := (target_size_mb * 1024 * 1024)%Q in
    let min_bytes := (min_size_mb * 1024 * 1024)%Q in
    let max_bytes := (max_size_mb * 1024 * 1024)%Q in
    let audio_bitrate := 128000 in
    let video_bitrate :=
      (target_bytes * 8 / duration info - inject_Z audio_bitrate)%Q in
    let video_bitrate := clamp_bitrate video_bitrate in
    current <- run_ffmpeg_compression video_bitrate audio_bitrate
                 None None (Some (format info)) ;;
    current <-
      (if Qlt_bool max_bytes (inject_Z (snd current)) then
         let scale_factor := round_double (8 # 10) in
         let new_width := py_int (float_mul (py_float (width info)) scale_factor) in
         let new_height := py_int (float_mul (py_float (height info)) scale_factor) in
         run_ffmpeg_compression video_bitrate audio_bitrate
           (Some new_width) (Some new_height) (Some (format info))
       else ret current) ;;
    '(current, video_bitrate) <-
       adjust_loop info audio_bitrate min_bytes max_bytes max_attempts
         current video_bitrate ;;
    current <-
      (if Qlt_bool max_bytes (inject_Z (snd current)) then
         let target_size_mb := (max_size_mb - BUFFER_MAX)%Q in
         let target_bytes := (target_size_mb * 1024 * 1024)%Q in
         let video_bitrate :=
           py_max min_bitrate
             (py_min (target_bytes * 8 / duration info - inject_Z audio_bitrate)
                     max_bitrate) in
         run_ffmpeg_compression video_bitrate audio_bitrate
           (Some (width info)) (Some (height info)) (Some (format info))
       else ret current) ;;
    let '(c, final_size) := current in
    let final_size_mb := py_round2 (py_truediv final_size (1024 * 1024)) in
    ret (Transcoded c, final_size_mb)
  end.

End Encoder.

End Video.

(** ** app.py: the checks of [compress_file] before any compression *)

Module App.

Definition ALLOWED_IMAGE_EXTENSIONS : list string :=
  ["png"; "jpg"; "jpeg"; "gif"; "webp"]%string.
Definition ALLOWED_PDF_EXTENSIONS : list string := ["pdf"]%string.
Definition ALLOWED_VIDEO_EXTENSIONS : list string :=
  ["mp4"; "avi"; "mov"; "mkv"; "webm"]%string.
Definition MAX_FILE_SIZE : Z := 50 * 1024 * 1024.
Definition MAX_VIDEO_SIZE : Z := 100 * 1024 * 1024.
Definition MIN_TARGET_SIZE : Z := 5.

(** [filename.rsplit('.', 1)[1]] when ['.' in filename], nothing otherwise. *)
Fixpoint after_last_dot (filename : string) : option string :=
  match filename with
  | EmptyString => None
  | String c rest =>
      match after_last_dot rest with
      | Some extension => Some extension
      | None => if Ascii.eqb c "." then Some rest else None
      end
  end.

(** [extension in ALLOWED_..._EXTENSIONS] *)
Definition member (extension : string) (allowed : list string) : bool :=
  existsb (String.eqb extension) allowed.

Section Checks.

(** Python's [str.lower], which follows Unicode: on a string of ASCII
    characters it is [lower]; elsewhere it is left open. *)
Variable str_lower : string -> string.

Definition allowed_file (filename file_type : string) : bool :=
  let extension :=
    match after_last_dot filename with
    | Some e => str_lower e
    | None => ""%string
    end in
  if String.eqb file_type "image" then member extension ALLOWED_IMAGE_EXTENSIONS
  else if String.eqb file_type "pdf" then member extension ALLOWED_PDF_EXTENSIONS
  else if String.eqb file_type "video" then member extension ALLOWED_VIDEO_EXTENSIONS
  else false.

(** What [compress_file] reads of the request: whether a file part is
    present, its name, the three form fields (absent ones are [None]) and
    the size of the upload. *)
Record request : Type := {
  has_file : bool;
  filename : string;
  form_file_type : option string;
  form_target_size_kb : option string;
  form_size_format : option string;
  upload_size : Z
}.

(** The error replies, by the check that sends them (the texts are left
    out), each with its HTTP status. *)
Inductive error : Type :=
| NoFileUploaded
| NoFileSelected
| UnsupportedFileType
| FfmpegNotInstalled
| TargetBelowOneMB
| TargetBelowTwentyKB
| TargetBelowMinimum
| InvalidTargetSize
| VideoTooLarge
| FileTooLarge.

Definition status_of (e : error) : Z :=
  match e with
  | FfmpegNotInstalled => 500
  | _ => 400
  end.

Inductive checked : Type :=
| Rejected (e : error)
| Accepted (file_type : string) (max_size_kb : Z).

(** Python's [float] on a form value: nothing when it raises [ValueError].
    Only finite values are modelled. *)
Variable float_of : string -> option Q.

(** Whether [ffmpeg -version] could be run at start-up. *)
Variable FFMPEG_INSTALLED : bool.

(** The [try] block that validates the target size. *)
Definition target_size_of (r : request) : error + Z :=
  match match form_target_size_kb r with
        | Some text => float_of text
        | None => Some 500%Q
        end with
  | None => inl InvalidTargetSize
  | Some max_size =>
      let size_format :=
        str_lower
          (match form_size_format r with Some f => f | None => "kb"%string end) in
      let converted :=
        if String.eqb size_format "mb" then
          if Qlt_bool max_size 1 then inl TargetBelowOneMB
          else inr (py_int (max_size * 1024))
        else
          if Qlt_bool max_size 20 then inl TargetBelowTwentyKB
          else inr (py_int max_size) in
      match converted with
      | inl e => inl e
      | inr max_size_kb =>
          if max_size_kb <? MIN_TARGET_SIZE then inl TargetBelowMinimum
          else inr max_size_kb
      end
  end.

(** [compress_file] up to the point where a compressor is called. *)
Definition check_request (r : request) : checked :=
  if negb (has_file r) then Rejected NoFileUploaded else
  if String.eqb (filename r) "" then Rejected NoFileSelected else
  let file_type :=
    match form_file_type r with Some t => t | None => "image"%string end in
  if negb (allowed_file (filename r) file_type) then Rejected UnsupportedFileType else
  if String.eqb file_type "video" && negb FFMPEG_INSTALLED
  then Rejected FfmpegNotInstalled else
  match target_size_of r with
  | inl e => Rejected e
  | inr max_size_kb =>
      if String.eqb file_type "video" then
        if MAX_VIDEO_SIZE <? upload_size r then Rejected VideoTooLarge
        else Accepted file_type max_size_kb
      else
        if MAX_FILE_SIZE <? upload_size r then Rejected FileTooLarge
        else Accepted file_type max_size_kb
  end.

End Checks.

Section Dispatch.

(** The documents Ghostscript writes and Ghostscript itself, as in [Pdf]. *)
Variable Document : Type.
Variable ghostscript : Pdf.level -> option (Document * Z).

(** Whether [AdaptivePDFCompressor()] finds a Ghostscript that runs; its
    constructor raises otherwise. *)
Variable ghostscript_found : bool.


End Dispatch.

End App.

(** ** Concrete encoders and inputs *)

Module Examples.

(** A 1920x1080 RGBA PNG of 200000 bytes. *)
Definition png_image : Image.image :=
  {| Image.img_format := Some "PNG"%string; Image.img_mode := "RGBA"%string;
     Image.img_size := (1920, 1080) |}.

Definition png_file : Image.file :=
  {| Image.file_bytes := 200000; Image.file_name := Some "photo.png"%string;
     Image.file_image := Some png_image |}.

Definition stem (filename : string) : string := "photo"%string.

(** Ten bytes per quality level, whatever the format and the dimensions;
    the buffer is represented by the quality it was made with. *)
Definition encode_linear (image : Image.image) (format : string) (quality : Z)
  (width height : option Z) : option (Z * Z) :=
  Some (quality, 10 * quality).

(** 10 bytes at quality 1 and 1000 bytes above. *)
Definition encode_step (image : Image.image) (format : string) (quality : Z)
  (width height : option Z) : option (Z * Z) :=
  Some (quality, if quality <=? 1 then 10 else 1000).

(** An encoder whose size is not monotone in the quality. *)
Definition encode_bumpy (image : Image.image) (format : string) (quality : Z)
  (width height : option Z) : option (Z * Z) :=
  Some (quality, if quality =? 1 then 90 else if quality =? 48 then 50 else 1000).

(** A megabyte whatever the settings. *)
Definition encode_huge (image : Image.image) (format : string) (quality : Z)
  (width height : option Z) : option (Z * Z) :=
  Some (quality, 1000000).


(** Ghostscript output of 100000 bytes per dpi. *)
Definition ghostscript_by_dpi (settings : Pdf.level) : option (Pdf.level * Z) :=
  Some (settings, Pdf.dpi settings * 100000).

(** Ghostscript writing 15 MB at the lowest tier and 10 MB at the others. *)
Definition ghostscript_uneven (settings : Pdf.level) : option (Pdf.level * Z) :=
  Some (settings,
        if Pdf.dpi settings =? 36 then 15 * 1024 * 1024 else 10 * 1024 * 1024).

(** A ten-second 1920x1080 mp4 of 1000000 bytes. *)
Definition clip_source : Video.source :=
  {| Video.src_bytes := 1000000;
     Video.src_info :=
       Some {| Video.duration := 10; Video.width := 1920; Video.height := 1080;
               Video.format := "mp4"%string |} |}.

(** ffmpeg output of 40 MB at the original resolution and of 10 MB when
    scaled to a width of 1536, whatever the bitrate. *)
Definition ffmpeg_by_width (video_bitrate : Q) (audio_bitrate : Z)
  (width height : option Z) (format : option string) : option (unit * Z) :=
  Some (tt, match width with
            | Some 1536 => 10 * 1024 * 1024
            | _ => 40 * 1024 * 1024
            end).

(** ffmpeg output of 28.5 MB whatever the settings. *)
Definition ffmpeg_steady (video_bitrate : Q) (audio_bitrate : Z)
  (width height : option Z) (format : option string) : option (unit * Z) :=
  Some (tt, 29884416).

(** [float] on the two form values used below. *)
Definition float_of_sample (text : string) : option Q :=
  if String.eqb text "300" then Some 300%Q
  else if String.eqb text "2.5" then Some (5 # 2)%Q
  else None.

(** An image upload of 200000 bytes asking for 300 KB. *)
Definition image_request : App.request :=
  {| App.has_file := true; App.filename := "holiday.photo.PNG"%string;
     App.form_file_type := None; App.form_target_size_kb := Some "300"%string;
     App.form_size_format := None; App.upload_size := 200000 |}.

(** A video upload of 1000000 bytes asking for 2.5 MB. *)
Definition video_request : App.request :=
  {| App.has_file := true; App.filename := "clip.mp4"%string;
     App.form_file_type := Some "video"%string;
     App.form_target_size_kb := Some "2.5"%string;
     App.form_size_format := Some "MB"%string; App.upload_size := 1000000 |}.

End Examples.

(** * Properties *)

(** ** The probe-logging monad *)

Lemma result_bind {P A B : Type} (m : M P A) (k : A -> M P B) :
  result (bind m k) =
  match result m with
  | Return a => result (k a)
  | Raise e => Raise e
  end.
Proof.
  destruct m as [[a | e] l]; simpl; [destruct (k a) | ]; reflexivity.
Qed.

Lemma probes_bind {P A B : Type} (m : M P A) (k : A -> M P B) :
  probes (bind m k) =
  probes m ++ match result m with
              | Return a => probes (k a)
              | Raise _ => []
              end.
Proof.
  destruct m as [[a | e] l]; simpl.
  - destruct (k a); reflexivity.
  - now rewrite app_nil_r.
Qed.

Lemma bind_Return {P A B : Type} (a : A) (l : list P) (k : A -> M P B) :
  bind (Return a, l) k = (result (k a), l ++ probes (k a)).
Proof. simpl. now destruct (k a). Qed.

Lemma bind_Raise {P A B : Type} (e : exn) (l : list P) (k : A -> M P B) :
  bind (@Raise A e, l) k = (Raise e, l).
Proof. reflexivity. Qed.

Lemma bind_ext {P A B : Type} (m : M P A) (k k' : A -> M P B) :
  (forall a, k a = k' a) -> bind m k = bind m k'.
Proof.
  intros H. destruct m as [[a | e] l]; simpl; [now rewrite H | reflexivity].
Qed.

Lemma bind_assoc {P A B C : Type} (m : M P A) (k : A -> M P B) (k' : B -> M P C) :
  bind (bind m k) k' = bind m (fun a => bind (k a) k').
Proof.
  destruct m as [[a | e] l]; [ | reflexivity].
  simpl. destruct (k a) as [[b | e] l1]; simpl.
  - destruct (k' b) as [r l2]. now rewrite app_assoc.
  - reflexivity.
Qed.

Lemma Forall_probes_bind {P A B : Type} (Q : P -> Prop) (m : M P A) (k : A -> M P B) :
  Forall Q (probes m) ->
  (forall a, result m = Return a -> Forall Q (probes (k a))) ->
  Forall Q (probes (bind m k)).
Proof.
  intros Hm Hk. rewrite probes_bind. apply Forall_app. split; [exact Hm | ].
  destruct (result m) as [a | e]; [now apply Hk | constructor].
Qed.

(** A computation that does not raise. *)
Definition returns {P A : Type} (m : M P A) : Prop := exists a, result m = Return a.

Lemma returns_ret {P A : Type} (a : A) : returns (@ret P A a).
Proof. now exists a. Qed.

Lemma returns_bind {P A B : Type} (m : M P A) (k : A -> M P B) :
  returns m -> (forall a, result m = Return a -> returns (k a)) ->
  returns (bind m k).
Proof.
  intros [a Ha] Hk. unfold returns. rewrite result_bind, Ha. now apply Hk.
Qed.




Lemma bind_ret_l {P A B : Type} (a : A) (k : A -> M P B) : bind (ret a) k = k a.
Proof. unfold ret, bind. now destruct (k a). Qed.

Lemma result_ret {P A : Type} (a : A) : result (@ret P A a) = Return a.
Proof. reflexivity. Qed.

Lemma probes_ret {P A : Type} (a : A) : probes (@ret P A a) = [].
Proof. reflexivity. Qed.

Lemma result_pair {P A : Type} (r : outcome A) (l : list P) : result (r, l) = r.
Proof. reflexivity. Qed.

Lemma probes_pair {P A : Type} (r : outcome A) (l : list P) : probes (r, l) = l.
Proof. reflexivity. Qed.


(** ** Python helpers *)

Lemma py_range_length (a b : Z) : List.length (py_range a b) = Z.to_nat (b - a).
Proof. unfold py_range. now rewrite length_map, length_seq. Qed.

Lemma py_range_In (a b x : Z) : In x (py_range a b) <-> a <= x < b.
Proof.
  unfold py_range. rewrite in_map_iff. split.
  - intros (i & <- & Hi). apply in_seq in Hi. lia.
  - intros Hx. exists (Z.to_nat (x - a)). split; [lia | ].
    apply in_seq. lia.
Qed.

Lemma py_range_NoDup (a b : Z) : NoDup (py_range a b).
Proof.
  unfold py_range. apply NoDup_map_NoDup_ForallPairs.
  - intros i j _ _ Hij. lia.
  - apply seq_NoDup.
Qed.

Lemma lower_upper_ascii (c : ascii) : lower_ascii (upper_ascii c) = lower_ascii c.
Proof. destruct c as [[] [] [] [] [] [] [] []]; reflexivity. Qed.

Lemma lower_upper (s : string) : lower (upper s) = lower s.
Proof.
  induction s as [ | c s IH]; [reflexivity | ].
  unfold lower, upper in *. simpl. now rewrite lower_upper_ascii, IH.
Qed.

Lemma string_app_inv_head (s a b : string) :
  (s ++ a)%string = (s ++ b)%string -> a = b.
Proof.
  induction s as [ | c s IH]; simpl; intros H; [exact H | ].
  injection H as H. now apply IH.
Qed.

Lemma Qlt_bool_iff (a b : Q) : Qlt_bool a b = true <-> (a < b)%Q.
Proof.
  unfold Qlt_bool. rewrite negb_true_iff. split.
  - intros H. apply Qnot_le_lt. intros Hle.
    apply Qle_bool_iff in Hle. congruence.
  - intros H. destruct (Qle_bool b a) eqn:E; [ | reflexivity].
    apply Qle_bool_iff in E. exfalso. now apply (Qlt_not_le a b).
Qed.

Lemma Qlt_bool_false_iff (a b : Q) : Qlt_bool a b = false <-> (b <= a)%Q.
Proof.
  unfold Qlt_bool. rewrite negb_false_iff. apply Qle_bool_iff.
Qed.

Lemma py_min_spec (a b : Q) : (py_min a b <= a)%Q /\ (py_min a b <= b)%Q.
Proof.
  unfold py_min. destruct (Qlt_bool b a) eqn:E.
  - apply Qlt_bool_iff in E. split; [now apply Qlt_le_weak | apply Qle_refl].
  - apply Qlt_bool_false_iff in E. split; [apply Qle_refl | exact E].
Qed.

Lemma py_max_spec (a b : Q) : (a <= py_max a b)%Q /\ (b <= py_max a b)%Q.
Proof.
  unfold py_max. destruct (Qlt_bool a b) eqn:E.
  - apply Qlt_bool_iff in E. split; [now apply Qlt_le_weak | apply Qle_refl].
  - apply Qlt_bool_false_iff in E. split; [apply Qle_refl | exact E].
Qed.

Lemma py_max_cases (a b : Q) : py_max a b = a \/ py_max a b = b.
Proof. unfold py_max. destruct (Qlt_bool a b); auto. Qed.

Lemma py_min_cases (a b : Q) : py_min a b = a \/ py_min a b = b.
Proof. unfold py_min. destruct (Qlt_bool b a); auto. Qed.

(** ** Rounding to binary64 *)

Lemma round_double_zero (x : Q) : (x == 0)%Q -> round_double x = 0%Q.
Proof.
  intros H. unfold round_double.
  assert (Hn : Qnum x = 0) by (unfold Qeq in H; simpl in H; lia).
  now rewrite Hn.
Qed.

Lemma round_half_even_floor (x : Q) : Qfloor x <= round_half_even x <= Qfloor x + 1.
Proof.
  unfold round_half_even.
  destruct (Qlt_bool _ _); [lia | ].
  destruct (Qlt_bool _ _); [lia | ].
  destruct (Z.even _); lia.
Qed.

Lemma Qpower_2_pos (e : Z) : (0 < 2 ^ e)%Q.
Proof. apply Qpower_0_lt. reflexivity. Qed.

Lemma Qpower_2_nonneg_exp (z : Z) : 0 <= z -> (2 ^ z == inject_Z (2 ^ z))%Q.
Proof.
  intros Hz. symmetry. exact (Zpower_Qpower 2 z Hz).
Qed.

Lemma Qpower_2_add (a b : Z) : (2 ^ (a + b) == 2 ^ a * 2 ^ b)%Q.
Proof. apply Qpower_plus. discriminate. Qed.

Lemma Qpower_2_sub (a b : Z) : (2 ^ (a - b) == 2 ^ a / 2 ^ b)%Q.
Proof.
  unfold Z.sub. rewrite Qpower_2_add, Qpower_opp. reflexivity.
Qed.

Lemma inject_Z_pos (z : Z) : 0 < z -> (0 < inject_Z z)%Q.
Proof. intros H. unfold Qlt. simpl. lia. Qed.

(** [2^(k-1) < x < 2^(k+1)] for [k] the difference of the logarithms. *)
Lemma log2_quotient_bounds (x : Q) :
  (0 < x)%Q ->
  let k := Z.log2 (Qnum x) - Z.log2 (Zpos (Qden x)) in
  (2 ^ (k - 1) <= x)%Q /\ (x < 2 ^ (k + 1))%Q.
Proof.
  intros Hx k. destruct x as [n d].
  assert (Hn : 0 < n) by (unfold Qlt in Hx; simpl in Hx; lia).
  cbn [Qnum Qden] in k.
  pose proof (Z.log2_spec n Hn) as [Hn1 Hn2].
  pose proof (Z.log2_spec (Z.pos d) ltac:(lia)) as [Hd1 Hd2].
  pose proof (Z.log2_nonneg n) as Ln. pose proof (Z.log2_nonneg (Z.pos d)) as Ld.
  set (a := Z.log2 n) in *. set (b := Z.log2 (Z.pos d)) in *.
  assert (Hnd : (n # d == inject_Z n / inject_Z (Z.pos d))%Q) by apply Qmake_Qdiv.
  assert (Hdpos : (0 < inject_Z (Z.pos d))%Q) by reflexivity.
  split.
  - replace (k - 1) with (a - (b + 1)) by (unfold k; lia).
    rewrite Qpower_2_sub, !Qpower_2_nonneg_exp by lia. rewrite Hnd.
    apply Qle_shift_div_l; [exact Hdpos | ].
    unfold Qdiv. rewrite <- Qmult_assoc, (Qmult_comm (/ _)), Qmult_assoc.
    apply Qle_shift_div_r.
    { apply inject_Z_pos. lia. }
    rewrite <- !inject_Z_mult, <- Zle_Qle. nia.
  - replace (k + 1) with (a + 1 - b) by (unfold k; lia).
    rewrite Qpower_2_sub, !Qpower_2_nonneg_exp by lia. rewrite Hnd.
    apply Qlt_shift_div_r; [exact Hdpos | ].
    unfold Qdiv. rewrite <- Qmult_assoc, (Qmult_comm (/ _)), Qmult_assoc.
    apply Qlt_shift_div_l.
    { apply inject_Z_pos. lia. }
    rewrite <- !inject_Z_mult, <- Zlt_Qlt. nia.
Qed.

Lemma binade_spec (x : Q) :
  (0 < x)%Q -> (2 ^ binade x <= x)%Q /\ (x < 2 ^ (binade x + 1))%Q.
Proof.
  intros Hx. destruct (log2_quotient_bounds x Hx) as [Hlow Hhigh].
  unfold binade.
  destruct (Qle_bool _ x) eqn:E.
  - apply Qle_bool_iff in E. split; [exact E | exact Hhigh].
  - split; [exact Hlow | ].
    replace (_ - 1 + 1) with (Z.log2 (Qnum x) - Z.log2 (Z.pos (Qden x))) by lia.
    apply Qnot_le_lt. intros H. apply Qle_bool_iff in H. congruence.
Qed.

(** The significand kept by [round_double] has 53 bits. *)
Lemma significand_bounds (a : Q) :
  (0 < a)%Q ->
  let e := binade a - 52 in
  (inject_Z (2 ^ 52) <= a / 2 ^ e)%Q /\ (a / 2 ^ e < inject_Z (2 ^ 53))%Q.
Proof.
  intros Ha e. destruct (binade_spec a Ha) as [Hlow Hhigh].
  pose proof (Qpower_2_pos e) as He.
  split.
  - apply Qle_shift_div_l; [exact He | ].
    rewrite <- Qpower_2_nonneg_exp by lia. rewrite <- Qpower_2_add.
    now replace (52 + e) with (binade a) by (unfold e; lia).
  - apply Qlt_shift_div_r; [exact He | ].
    rewrite <- Qpower_2_nonneg_exp by lia. rewrite <- Qpower_2_add.
    now replace (53 + e) with (binade a + 1) by (unfold e; lia).
Qed.

Lemma round_half_even_significand (a : Q) :
  (0 < a)%Q ->
  2 ^ 52 <= round_half_even (a / 2 ^ (binade a - 52)) <= 2 ^ 53.
Proof.
  intros Ha. destruct (significand_bounds a Ha) as [Hlow Hhigh].
  pose proof (round_half_even_floor (a / 2 ^ (binade a - 52))) as [H1 H2].
  apply Qfloor_resp_le in Hlow. rewrite Qfloor_Z in Hlow.
  assert (Hf : Qfloor (a / 2 ^ (binade a - 52)) < 2 ^ 53).
  { apply Qlt_floor in Hhigh || idtac.
    destruct (Z.lt_ge_cases (Qfloor (a / 2 ^ (binade a - 52))) (2 ^ 53)) as [ | Hge];
      [assumption | ].
    exfalso. apply (Qlt_not_le _ _ Hhigh).
    eapply Qle_trans; [ | apply Qfloor_le]. now rewrite <- Zle_Qle. }
  lia.
Qed.

Lemma round_double_pos (x : Q) : (0 < x)%Q -> (0 < round_double x)%Q.
Proof.
  intros Hx. unfold round_double.
  assert (Hn : 0 < Qnum x) by (unfold Qlt in Hx; cbn [Qnum Qden] in Hx; lia).
  destruct (Qnum x) as [ | n | n] eqn:En; try lia.
  assert (Habs : Qabs x = x).
  { destruct x as [xn xd]. simpl in En. subst xn. reflexivity. }
  rewrite Habs.
  assert (Hneg : Qlt_bool x 0 = false).
  { apply Qlt_bool_false_iff. now apply Qlt_le_weak. }
  rewrite Hneg, Qred_correct.
  pose proof (round_half_even_significand x Hx) as [Hm _].
  apply Qmult_lt_0_compat; [ | apply Qpower_2_pos].
  apply inject_Z_pos. assert (0 < 2 ^ 52) by reflexivity. lia.
Qed.

Lemma round_half_even_comp (x y : Q) :
  (x == y)%Q -> round_half_even x = round_half_even y.
Proof.
  intros H. unfold round_half_even. rewrite (Qfloor_comp x y H).
  assert (Hr : (x - inject_Z (Qfloor y) == y - inject_Z (Qfloor y))%Q)
    by now rewrite H.
  assert (H1 : Qlt_bool (x - inject_Z (Qfloor y)) (1 # 2)
               = Qlt_bool (y - inject_Z (Qfloor y)) (1 # 2)).
  { destruct (Qlt_bool (y - _) _) eqn:E.
    - apply Qlt_bool_iff. apply Qlt_bool_iff in E. now rewrite Hr.
    - apply Qlt_bool_false_iff. apply Qlt_bool_false_iff in E. now rewrite Hr. }
  assert (H2 : Qlt_bool (1 # 2) (x - inject_Z (Qfloor y))
               = Qlt_bool (1 # 2) (y - inject_Z (Qfloor y))).
  { destruct (Qlt_bool _ (y - _)) eqn:E.
    - apply Qlt_bool_iff. apply Qlt_bool_iff in E. now rewrite Hr.
    - apply Qlt_bool_false_iff. apply Qlt_bool_false_iff in E. now rewrite Hr. }
  now rewrite H1, H2.
Qed.

Lemma round_half_even_Z (z : Z) : round_half_even (inject_Z z) = z.
Proof.
  unfold round_half_even. rewrite Qfloor_Z.
  assert (H : Qlt_bool (inject_Z z - inject_Z z) (1 # 2) = true).
  { apply Qlt_bool_iff.
    assert (H0 : (inject_Z z - inject_Z z == 0)%Q) by ring.
    now rewrite H0. }
  now rewrite H.
Qed.

Lemma round_half_even_monotone (x y : Q) :
  (x <= y)%Q -> round_half_even x <= round_half_even y.
Proof.
  intros Hxy.
  pose proof (round_half_even_floor x) as [Hx1 Hx2].
  pose proof (round_half_even_floor y) as [Hy1 Hy2].
  pose proof (Qfloor_resp_le x y Hxy) as Hf.
  destruct (Z.eq_dec (Qfloor x) (Qfloor y)) as [Heq | Hne]; [ | lia].
  assert (Hr : (x - inject_Z (Qfloor x) <= y - inject_Z (Qfloor y))%Q).
  { rewrite Heq. apply Qplus_le_compat; [exact Hxy | apply Qle_refl]. }
  revert Hx1 Hx2 Hy1 Hy2. unfold round_half_even. rewrite <- Heq in *.
  destruct (Qlt_bool (x - _) (1 # 2)) eqn:X1; [intros; lia | ].
  apply Qlt_bool_false_iff in X1.
  destruct (Qlt_bool (y - _) (1 # 2)) eqn:Y1.
  { apply Qlt_bool_iff in Y1. exfalso.
    apply (Qlt_not_le _ _ Y1). now apply Qle_trans with (2 := Hr). }
  destruct (Qlt_bool (1 # 2) (y - _)) eqn:Y2.
  { destruct (Qlt_bool (1 # 2) (x - _)); [intros; lia | ].
    destruct (Z.even _); intros; lia. }
  apply Qlt_bool_false_iff in Y2.
  destruct (Qlt_bool (1 # 2) (x - _)) eqn:X2.
  { apply Qlt_bool_iff in X2. exfalso.
    apply (Qlt_not_le _ _ X2). now apply Qle_trans with (1 := Hr). }
  intros; lia.
Qed.

Lemma binade_unique (x : Q) (b : Z) :
  (2 ^ b <= x)%Q -> (x < 2 ^ (b + 1))%Q -> binade x = b.
Proof.
  intros Hlow Hhigh.
  assert (Hx : (0 < x)%Q) by (eapply Qlt_le_trans; [apply Qpower_2_pos | exact Hlow]).
  destruct (binade_spec x Hx) as [Hl Hh].
  assert (H1 : binade x < b + 1).
  { apply Qpower_lt_compat_l_inv with (q := 2%Q); [ | reflexivity].
    eapply Qle_lt_trans; [exact Hl | exact Hhigh]. }
  assert (H2 : b < binade x + 1).
  { apply Qpower_lt_compat_l_inv with (q := 2%Q); [ | reflexivity].
    eapply Qle_lt_trans; [exact Hlow | exact Hh]. }
  lia.
Qed.

Lemma binade_comp (x y : Q) : (0 < x)%Q -> (x == y)%Q -> binade x = binade y.
Proof.
  intros Hx H. destruct (binade_spec x Hx) as [Hl Hh].
  symmetry. apply binade_unique; now rewrite <- H.
Qed.

Lemma binade_monotone (x y : Q) :
  (0 < x)%Q -> (x <= y)%Q -> binade x <= binade y.
Proof.
  intros Hx Hxy.
  assert (Hy : (0 < y)%Q) by (eapply Qlt_le_trans; eassumption).
  destruct (binade_spec x Hx) as [Hl _]. destruct (binade_spec y Hy) as [_ Hh].
  assert (binade x < binade y + 1); [ | lia].
  apply Qpower_lt_compat_l_inv with (q := 2%Q); [ | reflexivity].
  eapply Qle_lt_trans; [exact Hl | ]. eapply Qle_lt_trans; eassumption.
Qed.

(** [round_double] on a positive number, without the normal form. *)
Lemma round_double_pos_eq (x : Q) :
  (0 < x)%Q ->
  (round_double x ==
   inject_Z (round_half_even (x / 2 ^ (binade x - 52))) * 2 ^ (binade x - 52))%Q.
Proof.
  intros Hx. unfold round_double.
  assert (Hn : 0 < Qnum x) by (unfold Qlt in Hx; cbn [Qnum Qden] in Hx; lia).
  destruct (Qnum x) as [ | n | n] eqn:En; try lia.
  assert (Habs : Qabs x = x).
  { destruct x as [xn xd]. simpl in En. subst xn. reflexivity. }
  rewrite Habs.
  assert (Hneg : Qlt_bool x 0 = false).
  { apply Qlt_bool_false_iff. now apply Qlt_le_weak. }
  rewrite Hneg. apply Qred_correct.
Qed.

Lemma round_double_comp (x y : Q) : (x == y)%Q -> round_double x = round_double y.
Proof.
  intros H. unfold round_double.
  assert (Hsign : Qlt_bool x 0 = Qlt_bool y 0).
  { destruct (Qlt_bool y 0) eqn:E.
    - apply Qlt_bool_iff. apply Qlt_bool_iff in E. now rewrite H.
    - apply Qlt_bool_false_iff. apply Qlt_bool_false_iff in E. now rewrite H. }
  assert (Hn : Qnum x = 0 <-> Qnum y = 0).
  { unfold Qeq in H. split; intros E; rewrite E in H; lia. }
  destruct (Z.eq_dec (Qnum x) 0) as [Hx0 | Hx0].
  { rewrite Hx0, (proj1 Hn Hx0). reflexivity. }
  assert (Hy0 : Qnum y <> 0) by tauto.
  assert (Habs : (Qabs x == Qabs y)%Q) by now rewrite H.
  assert (Hpos : (0 < Qabs x)%Q).
  { destruct x as [n d]. cbn [Qnum] in Hx0. unfold Qabs, Qlt. cbn [Qnum Qden]. lia. }
  rewrite Hsign, <- (binade_comp _ _ Hpos Habs).
  assert (Hm : round_half_even (Qabs x / 2 ^ (binade (Qabs x) - 52))
               = round_half_even (Qabs y / 2 ^ (binade (Qabs x) - 52))).
  { apply round_half_even_comp. unfold Qdiv.
    apply Qmult_comp; [exact Habs | reflexivity]. }
  rewrite Hm.
  destruct (Qnum x); [contradiction | | ]; destruct (Qnum y); try contradiction;
    reflexivity.
Qed.

Lemma round_double_monotone (x y : Q) :
  (0 <= x)%Q -> (x <= y)%Q -> (round_double x <= round_double y)%Q.
Proof.
  intros Hx Hxy.
  apply Qle_lteq in Hx as [Hx | Hx].
  2:{ rewrite (round_double_zero x) by (now symmetry).
      assert (Hy : (0 <= y)%Q) by now rewrite Hx.
      apply Qle_lteq in Hy as [Hy | Hy].
      - apply Qlt_le_weak. now apply round_double_pos.
      - rewrite (round_double_zero y) by (now symmetry). apply Qle_refl. }
  assert (Hy : (0 < y)%Q) by (eapply Qlt_le_trans; eassumption).
  rewrite (round_double_pos_eq x Hx), (round_double_pos_eq y Hy).
  pose proof (binade_monotone x y Hx Hxy) as Hb.
  pose proof (round_half_even_significand x Hx) as [_ Hmx].
  pose proof (round_half_even_significand y Hy) as [Hmy _].
  destruct (Z.eq_dec (binade x) (binade y)) as [Heq | Hne].
  - rewrite Heq. apply Qmult_le_compat_r; [ | apply Qlt_le_weak, Qpower_2_pos].
    rewrite <- Zle_Qle. apply round_half_even_monotone.
    apply Qmult_le_compat_r; [exact Hxy | ].
    apply Qlt_le_weak, Qinv_lt_0_compat, Qpower_2_pos.
  - apply Qle_trans with (2 ^ (binade x + 1))%Q.
    + replace (binade x + 1) with (53 + (binade x - 52)) by lia.
      rewrite Qpower_2_add. apply Qmult_le_compat_r; [ | apply Qlt_le_weak, Qpower_2_pos].
      rewrite (Qpower_2_nonneg_exp 53) by lia. now rewrite <- Zle_Qle.
    + apply Qle_trans with (2 ^ binade y)%Q.
      * apply Qpower_le_compat_l; [lia | discriminate].
      * replace (binade y) with (52 + (binade y - 52)) at 1 by lia.
        rewrite Qpower_2_add.
        apply Qmult_le_compat_r; [ | apply Qlt_le_weak, Qpower_2_pos].
        rewrite (Qpower_2_nonneg_exp 52) by lia. now rewrite <- Zle_Qle.
Qed.

(** A number with a significand of at most 53 bits is a binary64 number. *)
Lemma round_double_exact (n j : Z) :
  0 < n < 2 ^ 53 -> (round_double (inject_Z n * 2 ^ j) == inject_Z n * 2 ^ j)%Q.
Proof.
  intros Hn.
  assert (Hx : (0 < inject_Z n * 2 ^ j)%Q).
  { apply Qmult_lt_0_compat; [apply inject_Z_pos; lia | apply Qpower_2_pos]. }
  pose proof (Z.log2_spec n ltac:(lia)) as [Hl1 Hl2].
  pose proof (Z.log2_nonneg n) as Hl0.
  assert (Hl53 : Z.log2 n < 53) by (apply Z.log2_lt_pow2; lia).
  assert (Hb : binade (inject_Z n * 2 ^ j) = Z.log2 n + j).
  { apply binade_unique.
    - rewrite Qpower_2_add.
      apply Qmult_le_compat_r; [ | apply Qlt_le_weak, Qpower_2_pos].
      rewrite Qpower_2_nonneg_exp by lia. now rewrite <- Zle_Qle.
    - replace (Z.log2 n + j + 1) with (Z.succ (Z.log2 n) + j) by lia.
      rewrite Qpower_2_add.
      apply Qmult_lt_compat_r; [apply Qpower_2_pos | ].
      rewrite Qpower_2_nonneg_exp by lia. now rewrite <- Zlt_Qlt. }
  rewrite (round_double_pos_eq _ Hx), Hb.
  set (e := Z.log2 n + j - 52).
  assert (Hdiv : (inject_Z n * 2 ^ j / 2 ^ e == inject_Z (n * 2 ^ (52 - Z.log2 n)))%Q).
  { rewrite inject_Z_mult, <- Qpower_2_nonneg_exp by lia.
    unfold Qdiv. rewrite <- Qmult_assoc. apply Qmult_comp; [reflexivity | ].
    rewrite <- Qpower_opp, <- Qpower_2_add. unfold e.
    now replace (j + - (Z.log2 n + j - 52)) with (52 - Z.log2 n) by lia. }
  rewrite (round_half_even_comp _ _ Hdiv), round_half_even_Z.
  rewrite inject_Z_mult, <- Qpower_2_nonneg_exp by lia.
  rewrite <- Qmult_assoc. apply Qmult_comp; [reflexivity | ].
  rewrite <- Qpower_2_add. unfold e.
  now replace (52 - Z.log2 n + (Z.log2 n + j - 52)) with j by lia.
Qed.

Lemma round_double_Z (n : Z) :
  0 <= n < 2 ^ 53 -> (round_double (inject_Z n) == inject_Z n)%Q.
Proof.
  intros Hn. destruct (Z.eq_dec n 0) as [-> | Hne]; [reflexivity | ].
  assert (H := round_double_exact n 0 ltac:(lia)).
  assert (Heq : (inject_Z n * 2 ^ 0 == inject_Z n)%Q) by (simpl; ring).
  rewrite <- Heq at 2. rewrite <- H. now rewrite (round_double_comp _ _ Heq).
Qed.

Lemma py_round2_zero (x : Q) : (x == 0)%Q -> (py_round2 x == 0)%Q.
Proof.
  intros Hx. unfold py_round2.
  assert (H0 : (x * 100 == inject_Z 0)%Q) by (rewrite Hx; reflexivity).
  rewrite (round_half_even_comp _ _ H0), round_half_even_Z.
  reflexivity.
Qed.

(** ** The image quality search *)

Arguments Image.search_loop : simpl never.

Section ImageSearchFacts.

Context {Buffer : Type}.
Variable encode :
  Image.image -> string -> Z -> option Z -> option Z -> option (Buffer * Z).
Variables (image : Image.image) (format : string) (target_size : Z).
Variables (width height : option Z) (tolerance_pct : Q).

Local Abbreviation cws q :=
  (Image.compress_with_settings Buffer encode image format q width height).
Local Abbreviation loop :=
  (Image.search_loop Buffer encode image format target_size width height tolerance_pct).
Local Abbreviation tune :=
  (Image.fine_tune Buffer encode image format target_size width height).
Local Abbreviation probe_at q s :=
  {| Image.pr_format := format; Image.pr_quality := q; Image.pr_width := width;
     Image.pr_height := height; Image.pr_size := s |}.

Lemma cws_cases (q : Z) :
  (exists b s, encode image format q width height = Some (b, s) /\
               cws q = (Return (b, s), [probe_at q (Some s)])) \/
  (encode image format q width height = None /\
   cws q = (Raise EncoderError, [probe_at q None])).
Proof.
  unfold Image.compress_with_settings.
  destruct (encode image format q width height) as [[b s] | ].
  - left. now exists b, s.
  - now right.
Qed.

Lemma cws_probes (q : Z) :
  exists s, probes (cws q) = [probe_at q s].
Proof.
  destruct (cws_cases q) as [(b & s & _ & E) | [_ E]]; rewrite E; simpl; eauto.
Qed.

Lemma loop_S (n : nat) (low high : Z) (best : Buffer * Z * Z) :
  loop (S n) low high best =
  if low <=? high then
    bind (cws ((low + high) / 2))
      (fun '(buffer, size) =>
         if size <=? target_size then
           if Image.within_tolerance target_size size
                (Image.tolerance_bytes target_size tolerance_pct)
           then ret (buffer, size, (low + high) / 2)
           else loop n ((low + high) / 2 + 1) high (buffer, size, (low + high) / 2)
         else loop n low ((low + high) / 2 - 1) best)
  else ret best.
Proof. reflexivity. Qed.

(** The tail of the log of one iteration: empty or the log of the next
    iteration on one of the two halves. *)
Lemma loop_probes_S (n : nat) (low high : Z) (best : Buffer * Z * Z) :
  low <= high ->
  exists s rest,
    probes (loop (S n) low high best) = probe_at ((low + high) / 2) s :: rest /\
    (rest = [] \/
     (exists best', rest = probes (loop n ((low + high) / 2 + 1) high best')) \/
     rest = probes (loop n low ((low + high) / 2 - 1) best)).
Proof.
  intros Hle. rewrite loop_S. apply Z.leb_le in Hle. rewrite Hle.
  rewrite probes_bind.
  destruct (cws_cases ((low + high) / 2)) as [(b & s & _ & E) | [_ E]];
    rewrite E; simpl.
  - exists (Some s). eexists. split; [reflexivity | ].
    destruct (s <=? target_size).
    + destruct (Image.within_tolerance _ _ _).
      * now left.
      * right. left. eauto.
    + right. now right.
  - exists None, []. auto.
Qed.

Lemma loop_probes_stop (n : nat) (low high : Z) (best : Buffer * Z * Z) :
  high < low -> loop n low high best = ret best.
Proof.
  intros H. destruct n; [reflexivity | ]. rewrite loop_S.
  apply Z.leb_gt in H. now rewrite H.
Qed.

(** Every quality the loop probes lies in the current interval. *)
Lemma loop_probes_interval (n : nat) : forall low high best p,
  In p (probes (loop n low high best)) ->
  low <= Image.pr_quality p <= high.
Proof.
  induction n as [ | n IH]; intros low high best p Hin; [contradiction | ].
  destruct (Z_lt_le_dec high low) as [Hlt | Hle].
  - rewrite loop_probes_stop in Hin by assumption. contradiction.
  - destruct (loop_probes_S n low high best Hle) as (s & rest & E & Hrest).
    rewrite E in Hin.
    assert (Hmid : low <= (low + high) / 2 <= high)
      by (Z.div_mod_to_equations; lia).
    destruct Hin as [<- | Hin]; [exact Hmid | ].
    destruct Hrest as [-> | [[best' ->] | ->]].
    + contradiction.
    + apply IH in Hin. lia.
    + apply IH in Hin. lia.
Qed.

(** Inside the main loop no quality is encoded twice. *)
Lemma loop_probes_NoDup (n : nat) : forall low high best,
  NoDup (map Image.pr_quality (probes (loop n low high best))).
Proof.
  induction n as [ | n IH]; intros low high best; [constructor | ].
  destruct (Z_lt_le_dec high low) as [Hlt | Hle].
  - rewrite loop_probes_stop by assumption. constructor.
  - destruct (loop_probes_S n low high best Hle) as (s & rest & E & Hrest).
    rewrite E. simpl. constructor.
    + rewrite in_map_iff. intros (p & Hq & Hin).
      destruct Hrest as [-> | [[best' ->] | ->]].
      * contradiction.
      * apply loop_probes_interval in Hin. lia.
      * apply loop_probes_interval in Hin. lia.
    + destruct Hrest as [-> | [[best' ->] | ->]]; [constructor | apply IH ..].
Qed.

(** The iteration cap bounds the number of encoder calls of the loop. *)
Lemma loop_probes_cap (n : nat) : forall low high best,
  (List.length (probes (loop n low high best)) <= n)%nat.
Proof.
  induction n as [ | n IH]; intros low high best; [simpl; lia | ].
  destruct (Z_lt_le_dec high low) as [Hlt | Hle].
  - rewrite loop_probes_stop by assumption. simpl. lia.
  - destruct (loop_probes_S n low high best Hle) as (s & rest & E & Hrest).
    rewrite E. simpl.
    destruct Hrest as [-> | [[best' ->] | ->]].
    + simpl. lia.
    + specialize (IH ((low + high) / 2 + 1) high best'). lia.
    + specialize (IH low ((low + high) / 2 - 1) best). lia.
Qed.

(** Halving: an interval of fewer than [2^k] qualities is exhausted after
    [k] encoder calls. *)
Lemma loop_probes_log (k : nat) : forall n low high best,
  high - low + 1 < 2 ^ Z.of_nat k ->
  (List.length (probes (loop n low high best)) <= k)%nat.
Proof.
  induction k as [ | k IH]; intros n low high best Hsize.
  - rewrite loop_probes_stop by (simpl in Hsize; lia). simpl. lia.
  - destruct n as [ | n]; [simpl; lia | ].
    destruct (Z_lt_le_dec high low) as [Hlt | Hle].
    + rewrite loop_probes_stop by assumption. simpl. lia.
    + destruct (loop_probes_S n low high best Hle) as (s & rest & E & Hrest).
      rewrite E. simpl.
      rewrite Nat2Z.inj_succ, Z.pow_succ_r in Hsize by lia.
      destruct Hrest as [-> | [[best' ->] | ->]].
      * simpl. lia.
      * specialize (IH n ((low + high) / 2 + 1) high best').
        assert (high - ((low + high) / 2 + 1) + 1 < 2 ^ Z.of_nat k)
          by (Z.div_mod_to_equations; lia).
        lia.
      * specialize (IH n low ((low + high) / 2 - 1) best).
        assert ((low + high) / 2 - 1 - low + 1 < 2 ^ Z.of_nat k)
          by (Z.div_mod_to_equations; lia).
        lia.
Qed.

End ImageSearchFacts.

Section ImageTuneFacts.

Context {Buffer : Type}.
Variable encode :
  Image.image -> string -> Z -> option Z -> option Z -> option (Buffer * Z).
Variables (image : Image.image) (format : string) (target_size : Z).
Variables (width height : option Z) (tolerance_pct : Q).

Local Abbreviation cws q :=
  (Image.compress_with_settings Buffer encode image format q width height).
Local Abbreviation loop :=
  (Image.search_loop Buffer encode image format target_size width height tolerance_pct).
Local Abbreviation tune :=
  (Image.fine_tune Buffer encode image format target_size width height).
Local Abbreviation probe_at q s :=
  {| Image.pr_format := format; Image.pr_quality := q; Image.pr_width := width;
     Image.pr_height := height; Image.pr_size := s |}.
Local Abbreviation size_of best := (snd (fst best)) (only parsing).

Lemma tune_cons (q : Z) (qs : list Z) (best : Buffer * Z * Z) :
  tune (q :: qs) best =
  bind (cws q)
    (fun '(buffer, size) =>
       if (size <=? target_size) && (size_of best <? size)
       then tune qs (buffer, size, q)
       else tune qs best).
Proof. destruct best as [[b s] q0]. reflexivity. Qed.

(** The fine-tuning pass encodes a prefix of its range, in order (all of it
    unless the encoder raises). *)
Lemma tune_probes_prefix (qs : list Z) : forall best,
  exists rest, qs = map Image.pr_quality (probes (tune qs best)) ++ rest.
Proof.
  induction qs as [ | q qs IH]; intros best.
  - now exists [].
  - rewrite tune_cons, probes_bind.
    destruct (cws_cases encode image format width height q)
      as [(b & s & _ & E) | [_ E]]; rewrite E; simpl.
    + destruct ((s <=? target_size) && (size_of best <? s)).
      * destruct (IH (b, s, q)) as [rest Hrest]. exists rest. now f_equal.
      * destruct (IH best) as [rest Hrest]. exists rest. now f_equal.
    + now exists qs.
Qed.

Lemma tune_probes_length (qs : list Z) (best : Buffer * Z * Z) :
  (List.length (probes (tune qs best)) <= List.length qs)%nat.
Proof.
  destruct (tune_probes_prefix qs best) as [rest Hrest].
  apply (f_equal (@List.length Z)) in Hrest.
  rewrite length_app, length_map in Hrest. lia.
Qed.

Lemma tune_probes_In (qs : list Z) (best : Buffer * Z * Z) (p : Image.probe) :
  In p (probes (tune qs best)) -> In (Image.pr_quality p) qs.
Proof.
  intros Hin. destruct (tune_probes_prefix qs best) as [rest Hrest].
  rewrite Hrest. apply in_or_app. left. now apply in_map.
Qed.

(** What the fine-tuning pass returns: the best it started from, or a
    probe of its own that fits and is strictly larger; in either case a
    size no fitting probe of the pass exceeds. *)
Lemma tune_spec (qs : list Z) : forall best b' s' q',
  result (tune qs best) = Return (b', s', q') ->
  size_of best <= s' /\
  ((b', s', q') = best \/
   (s' <= target_size /\ size_of best < s' /\
    In (probe_at q' (Some s')) (probes (tune qs best)))) /\
  (forall p s, In p (probes (tune qs best)) ->
     Image.pr_size p = Some s -> s <= target_size -> s <= s').
Proof.
  induction qs as [ | q qs IH]; intros best b' s' q' Hres.
  - simpl in Hres. injection Hres as ->. simpl.
    split; [lia | ]. split; [now left | ]. intros p s [].
  - rewrite tune_cons in Hres |- *. rewrite result_bind in Hres.
    rewrite probes_bind.
    destruct (cws_cases encode image format width height q)
      as [(b & s & _ & E) | [_ E]]; rewrite E in Hres |- *; simpl in Hres |- *;
      [ | discriminate].
    destruct ((s <=? target_size) && (size_of best <? s)) eqn:Hc.
    + apply andb_true_iff in Hc. destruct Hc as [Hfit Hgt].
      apply Z.leb_le in Hfit. apply Z.ltb_lt in Hgt.
      destruct (IH _ _ _ _ Hres) as (Hge & Hwhich & Hmax). simpl in Hge.
      split; [lia | ]. split.
      * right. split; [ | split; [lia | ]].
        -- destruct Hwhich as [Heq | (? & _)]; [ | assumption].
           injection Heq as _ -> _. assumption.
        -- destruct Hwhich as [Heq | (_ & _ & Hin)].
           ++ injection Heq as _ -> ->. now left.
           ++ now right.
      * intros p s0 [<- | Hin] Hs Hle.
        -- simpl in Hs. injection Hs as <-. exact Hge.
        -- eapply Hmax; eassumption.
    + destruct (IH _ _ _ _ Hres) as (Hge & Hwhich & Hmax).
      split; [exact Hge | ]. split.
      * destruct Hwhich as [Heq | (? & ? & Hin)]; [now left | ].
        right. repeat split; try assumption. now right.
      * intros p s0 [<- | Hin] Hs Hle.
        -- simpl in Hs. injection Hs as <-.
           apply andb_false_iff in Hc. destruct Hc as [Hc | Hc].
           ++ apply Z.leb_gt in Hc. lia.
           ++ apply Z.ltb_ge in Hc. lia.
        -- eapply Hmax; eassumption.
Qed.

Lemma fine_tune_range_length (max_quality best_quality : Z) :
  (List.length (Image.fine_tune_range max_quality best_quality) <= 4)%nat.
Proof. unfold Image.fine_tune_range. rewrite py_range_length. lia. Qed.

Lemma fine_tune_range_In (max_quality best_quality q : Z) :
  In q (Image.fine_tune_range max_quality best_quality) <->
  best_quality < q <= best_quality + 4 /\ q <= max_quality.
Proof. unfold Image.fine_tune_range. rewrite py_range_In. lia. Qed.

End ImageTuneFacts.

Section ImageQualitySearch.

Context {Buffer : Type}.
Variable encode :
  Image.image -> string -> Z -> option Z -> option Z -> option (Buffer * Z).
Variables (image : Image.image) (format : string) (target_size : Z).
Variables (min_quality max_quality : Z) (width height : option Z).
Variable tolerance_pct : Q.

Local Abbreviation loop :=
  (Image.search_loop Buffer encode image format target_size width height tolerance_pct).
Local Abbreviation tune :=
  (Image.fine_tune Buffer encode image format target_size width height).
Local Abbreviation probe_at q s :=
  {| Image.pr_format := format; Image.pr_quality := q; Image.pr_width := width;
     Image.pr_height := height; Image.pr_size := s |}.
Local Abbreviation bsq :=
  (Image.binary_search_quality Buffer encode image format target_size
     min_quality max_quality width height tolerance_pct).

(** The loop followed by the fine-tuning pass. *)
Definition loop_then_tune (n : nat) (best : Buffer * Z * Z)
  : M Image.probe (option (Buffer * Z * Z)) :=
  bind (loop n min_quality max_quality best)
    (fun best1 =>
       bind (tune (Image.fine_tune_range max_quality (snd best1)) best1)
         (fun best2 => ret (Some best2))).

(** [binary_search_quality] by cases on what the encoder answers at the two
    bounds. *)
Lemma bsq_unfold :
  bsq =
  match encode image format max_quality width height with
  | None => (Raise EncoderError, [probe_at max_quality None])
  | Some (b, s) =>
      if s <=? target_size
      then (Return (Some (b, s, max_quality)), [probe_at max_quality (Some s)])
      else
        match encode image format min_quality width height with
        | None =>
            (Raise EncoderError,
             [probe_at max_quality (Some s); probe_at min_quality None])
        | Some (b', s') =>
            if target_size <? s'
            then (Return None,
                  [probe_at max_quality (Some s); probe_at min_quality (Some s')])
            else if Image.within_tolerance target_size s'
                      (Image.tolerance_bytes target_size tolerance_pct)
            then (Return (Some (b', s', min_quality)),
                  [probe_at max_quality (Some s); probe_at min_quality (Some s')])
            else
              (result (loop_then_tune Image.max_iterations (b', s', min_quality)),
               probe_at max_quality (Some s) :: probe_at min_quality (Some s')
                 :: probes (loop_then_tune Image.max_iterations (b', s', min_quality)))
        end
  end.
Proof.
  unfold Image.binary_search_quality.
  destruct (cws_cases encode image format width height max_quality)
    as [(b & s & -> & ->) | [-> ->]]; [ | apply bind_Raise].
  rewrite bind_Return. cbv beta iota.
  destruct (s <=? target_size); [reflexivity | ].
  destruct (cws_cases encode image format width height min_quality)
    as [(b' & s' & -> & ->) | [-> ->]]; [ | reflexivity].
  rewrite bind_Return. cbv beta iota.
  destruct (target_size <? s'); [reflexivity | ].
  destruct (Image.within_tolerance _ _ _); [reflexivity | ].
  match goal with
  | |- context [bind ?m ?k] =>
      replace (bind m k)
        with (loop_then_tune Image.max_iterations (b', s', min_quality))
  end.
  - generalize (loop_then_tune Image.max_iterations (b', s', min_quality)).
    intros [r l]. reflexivity.
  - unfold loop_then_tune. apply bind_ext. intros [[b0 s0] q0]. reflexivity.
Qed.

(** The log of the loop followed by the fine-tuning pass splits into the
    two logs. *)
Lemma loop_then_tune_probes (n : nat) (best : Buffer * Z * Z) :
  exists main refine,
    probes (loop_then_tune n best) = main ++ refine /\
    main = probes (loop n min_quality max_quality best) /\
    (refine = [] \/
     exists best1,
       refine = probes (tune (Image.fine_tune_range max_quality (snd best1)) best1)).
Proof.
  unfold loop_then_tune. rewrite probes_bind.
  eexists. eexists. split; [reflexivity | ]. split; [reflexivity | ].
  destruct (result (loop n min_quality max_quality best))
    as [best1 | e]; [ | now left].
  right. exists best1. rewrite probes_bind.
  destruct (result (tune _ best1)); simpl; now rewrite app_nil_r.
Qed.

(** C2. [binary_search_quality] first encodes at [max_quality] and returns
    that result at once when its size is at most the target; otherwise it
    encodes at [min_quality] next and returns [(None, None, None)] when
    that size still exceeds the target. *)
Theorem binary_search_quality_boundary_probes (b : Buffer) (s : Z)
  (Hmax : encode image format max_quality width height = Some (b, s)) :
  (exists rest, probes bsq = probe_at max_quality (Some s) :: rest) /\
  (s <= target_size ->
   bsq = (Return (Some (b, s, max_quality)), [probe_at max_quality (Some s)])) /\
  (target_size < s ->
   (exists s' rest,
      probes bsq = probe_at max_quality (Some s) :: probe_at min_quality s' :: rest) /\
   (forall b' s',
      encode image format min_quality width height = Some (b', s') ->
      target_size < s' ->
      bsq = (Return None,
             [probe_at max_quality (Some s); probe_at min_quality (Some s')]))).
Proof.
  rewrite bsq_unfold, Hmax.
  destruct (Z.leb_spec s target_size) as [Hfit | Hover].
  - split; [now eexists | ]. split; [reflexivity | lia].
  - destruct (encode image format min_quality width height) as [[b' s'] | ].
    + destruct (Z.ltb_spec target_size s') as [Hover' | Hfit'].
      * split; [now eexists | ]. split; [lia | ]. intros _.
        split; [now eexists; eexists | ].
        intros b0 s0 E _. now injection E as <- <-.
      * split; [destruct (Image.within_tolerance _ _ _); now eexists | ].
        split; [lia | ]. intros _.
        split; [destruct (Image.within_tolerance _ _ _); now eexists; eexists | ].
        intros b0 s0 E Hs0. injection E as <- <-. lia.
    + split; [now eexists | ]. split; [lia | ]. intros _.
      split; [now eexists; eexists | ]. discriminate.
Qed.

(** C6. The quality search is a total function, and for every range of
    fewer than [2^18] quality values (the image qualities are 1 to 100) it
    makes at most 20 encoder calls before the fine-tuning pass, of which at
    most 2 at the bounds, and at most 4 calls in the fine-tuning pass. *)
Theorem binary_search_quality_probe_budget
  (Hrange : max_quality - min_quality + 1 < 2 ^ 18) :
  exists boundary main refine,
    probes bsq = boundary ++ main ++ refine /\
    (List.length boundary <= 2)%nat /\
    (List.length main <= Image.max_iterations)%nat /\
    (List.length boundary + List.length main <= 20)%nat /\
    (List.length refine <= 4)%nat /\
    (main = [] \/
     exists best0,
       main = probes (loop Image.max_iterations min_quality max_quality best0)) /\
    (refine = [] \/
     exists best1,
       refine = probes (tune (Image.fine_tune_range max_quality (snd best1)) best1)).
Proof.
  assert (Hshort : forall l : list Image.probe, (List.length l <= 2)%nat ->
    exists boundary main refine,
      l = boundary ++ main ++ refine /\
      (List.length boundary <= 2)%nat /\
      (List.length main <= Image.max_iterations)%nat /\
      (List.length boundary + List.length main <= 20)%nat /\
      (List.length refine <= 4)%nat /\
      (main = [] \/
       exists best0,
         main = probes (loop Image.max_iterations min_quality max_quality best0)) /\
      (refine = [] \/
       exists best1,
         refine = probes (tune (Image.fine_tune_range max_quality (snd best1)) best1))).
  { intros l Hl. exists l, [], []. rewrite !app_nil_r. simpl.
    repeat split; auto; lia. }
  rewrite bsq_unfold.
  destruct (encode image format max_quality width height) as [[b s] | ];
    [ | apply Hshort; simpl; lia].
  destruct (s <=? target_size); [apply Hshort; simpl; lia | ].
  destruct (encode image format min_quality width height) as [[b' s'] | ];
    [ | apply Hshort; simpl; lia].
  destruct (target_size <? s'); [apply Hshort; simpl; lia | ].
  destruct (Image.within_tolerance _ _ _); [apply Hshort; simpl; lia | ].
  destruct (loop_then_tune_probes Image.max_iterations (b', s', min_quality))
    as (main & refine & E & Hmain & Hrefine).
  exists [probe_at max_quality (Some s); probe_at min_quality (Some s')], main, refine.
  unfold probes at 1. unfold snd. rewrite E.
  split; [reflexivity | ]. split; [simpl; lia | ].
  assert (Hcap : (List.length main <= Image.max_iterations)%nat)
    by (rewrite Hmain; apply loop_probes_cap).
  assert (Hlog : (List.length main <= 18)%nat)
    by (rewrite Hmain; apply loop_probes_log; exact Hrange).
  split; [exact Hcap | ]. split; [simpl; lia | ]. split.
  - destruct Hrefine as [-> | [best1 ->]]; [simpl; lia | ].
    etransitivity; [apply tune_probes_length | apply fine_tune_range_length].
  - split; [right; eauto | exact Hrefine].
Qed.

(** Without the bound on the range: at most 2 calls at the bounds, 20 in the
    loop and 4 in the fine-tuning pass. *)
Lemma binary_search_quality_probes_le_26 :
  (List.length (probes bsq) <= 26)%nat.
Proof.
  rewrite bsq_unfold.
  destruct (encode image format max_quality width height) as [[b s] | ];
    [ | simpl; lia].
  destruct (s <=? target_size); [simpl; lia | ].
  destruct (encode image format min_quality width height) as [[b' s'] | ];
    [ | simpl; lia].
  destruct (target_size <? s'); [simpl; lia | ].
  destruct (Image.within_tolerance _ _ _); [simpl; lia | ].
  destruct (loop_then_tune_probes Image.max_iterations (b', s', min_quality))
    as (main & refine & E & Hmain & Hrefine).
  unfold probes at 1. unfold snd. rewrite E. simpl. rewrite length_app.
  assert (Hcap : (List.length main <= 20)%nat)
    by (rewrite Hmain; apply loop_probes_cap).
  assert (Hr : (List.length refine <= 4)%nat).
  { destruct Hrefine as [-> | [best1 ->]]; [simpl; lia | ].
    etransitivity; [apply tune_probes_length | apply fine_tune_range_length]. }
  lia.
Qed.

(** C5, as the code has it.  Inside the main loop no quality is encoded
    twice, and the qualities of the fine-tuning pass are pairwise distinct.
    (Nothing is remembered between the probes at the bounds, the loop and
    the fine-tuning pass.) *)
Theorem quality_search_phases_never_repeat (n : nat) (low high best_quality : Z)
  (best best' : Buffer * Z * Z) :
  NoDup (map Image.pr_quality (probes (loop n low high best))) /\
  NoDup (map Image.pr_quality
           (probes (tune (Image.fine_tune_range max_quality best_quality) best'))).
Proof.
  split; [apply loop_probes_NoDup | ].
  destruct (tune_probes_prefix encode image format target_size width height
              (Image.fine_tune_range max_quality best_quality) best')
    as [rest Hrest].
  apply (NoDup_app_remove_r _ rest). rewrite <- Hrest.
  apply py_range_NoDup.
Qed.

End ImageQualitySearch.

(** ** Which probe the image quality search returns *)

Section ImageSelection.

Context {Buffer : Type}.
Variable encode :
  Image.image -> string -> Z -> option Z -> option Z -> option (Buffer * Z).
Variables (image : Image.image) (format : string) (target_size : Z).
Variables (width height : option Z) (tolerance_pct : Q).

Local Abbreviation cws q :=
  (Image.compress_with_settings Buffer encode image format q width height).
Local Abbreviation loop :=
  (Image.search_loop Buffer encode image format target_size width height tolerance_pct).
Local Abbreviation tune :=
  (Image.fine_tune Buffer encode image format target_size width height).
Local Abbreviation probe_at q s :=
  {| Image.pr_format := format; Image.pr_quality := q; Image.pr_width := width;
     Image.pr_height := height; Image.pr_size := s |}.
Local Abbreviation mono :=
  (Image.size_monotone Buffer encode image format width height).

(** A probe of this search that fits the target. *)
Definition fitting_probe (l : list Image.probe) (q s : Z) : Prop :=
  In (probe_at q (Some s)) l /\ s <= target_size /\
  exists b, encode image format q width height = Some (b, s).

(** The loop returns the best it started from or its latest fitting
    midpoint; when sizes grow with the quality, no fitting probe of the loop
    is larger. *)
Lemma loop_spec (n : nat) : forall low high best b' s' q',
  result (loop n low high best) = Return (b', s', q') ->
  ((b', s', q') = best \/
   (low <= q' <= high /\ fitting_probe (probes (loop n low high best)) q' s')) /\
  (mono ->
   forall p s, In p (probes (loop n low high best)) ->
     Image.pr_size p = Some s -> s <= target_size -> s <= s').
Proof.
  induction n as [ | n IH]; intros low high best b' s' q' Hres.
  - injection Hres as <-. split; [now left | intros _ p s []].
  - destruct (Z_lt_le_dec high low) as [Hlt | Hle].
    { rewrite loop_probes_stop in Hres |- * by assumption.
      injection Hres as <-. split; [now left | intros _ p s []]. }
    assert (Hmid : low <= (low + high) / 2 <= high)
      by (Z.div_mod_to_equations; lia).
    rewrite loop_S in Hres |- *. apply Z.leb_le in Hle. rewrite Hle in Hres |- *.
    rewrite result_bind in Hres. rewrite probes_bind.
    destruct (cws_cases encode image format width height ((low + high) / 2))
      as [(b & s & Henc & E) | [_ E]]; rewrite E in Hres |- *;
      simpl in Hres |- *; [ | discriminate].
    destruct (Z.leb_spec s target_size) as [Hfit | Hover].
    + destruct (Image.within_tolerance _ _ _).
      * injection Hres as <- <- <-. simpl. split.
        -- right. split; [exact Hmid | ].
           split; [now left | split; [exact Hfit | now exists b]].
        -- intros _ p s0 [<- | []] Hs _. simpl in Hs. injection Hs as <-. lia.
      * destruct (IH _ _ _ _ _ _ Hres) as [Hwhich Hmax]. split.
        -- right. destruct Hwhich as [Heq | (Hq & Hin & Hs' & Hb)].
           ++ injection Heq as -> -> ->. split; [exact Hmid | ].
              split; [now left | split; [exact Hfit | now exists b]].
           ++ split; [lia | ]. split; [now right | now split].
        -- intros Hmono p s0 [<- | Hin] Hs Hle0.
           ++ simpl in Hs. injection Hs as <-.
              destruct Hwhich as [Heq | (Hq & _ & _ & b0 & Hb0)].
              ** injection Heq as _ -> _. lia.
              ** eapply (Hmono ((low + high) / 2) q'); [lia | eassumption ..].
           ++ eapply Hmax; eassumption.
    + destruct (IH _ _ _ _ _ _ Hres) as [Hwhich Hmax]. split.
      * destruct Hwhich as [Heq | (Hq & Hin & Hs' & Hb)]; [now left | ].
        right. split; [lia | ]. split; [now right | now split].
      * intros Hmono p s0 [<- | Hin] Hs Hle0.
        -- simpl in Hs. injection Hs as <-. lia.
        -- eapply Hmax; eassumption.
Qed.

End ImageSelection.

Section ImageSearchResult.

Context {Buffer : Type}.
Variable encode :
  Image.image -> string -> Z -> option Z -> option Z -> option (Buffer * Z).
Variables (image : Image.image) (format : string) (target_size : Z).
Variables (min_quality max_quality : Z) (width height : option Z).
Variable tolerance_pct : Q.

Local Abbreviation loop :=
  (Image.search_loop Buffer encode image format target_size width height tolerance_pct).
Local Abbreviation tune :=
  (Image.fine_tune Buffer encode image format target_size width height).
Local Abbreviation probe_at q s :=
  {| Image.pr_format := format; Image.pr_quality := q; Image.pr_width := width;
     Image.pr_height := height; Image.pr_size := s |}.
Local Abbreviation bsq :=
  (Image.binary_search_quality Buffer encode image format target_size
     min_quality max_quality width height tolerance_pct).
Local Abbreviation mono :=
  (Image.size_monotone Buffer encode image format width height).
Local Abbreviation ltt :=
  (loop_then_tune encode image format target_size min_quality max_quality
     width height tolerance_pct).

Lemma loop_then_tune_result (n : nat) (best0 : Buffer * Z * Z) r :
  result (ltt n best0) = Return r ->
  exists best1 best2,
    r = Some best2 /\
    result (loop n min_quality max_quality best0) = Return best1 /\
    result (tune (Image.fine_tune_range max_quality (snd best1)) best1) = Return best2 /\
    probes (ltt n best0) =
      probes (loop n min_quality max_quality best0) ++
      probes (tune (Image.fine_tune_range max_quality (snd best1)) best1).
Proof.
  unfold loop_then_tune. rewrite result_bind, probes_bind.
  destruct (result (loop n min_quality max_quality best0))
    as [best1 | e]; [ | discriminate].
  rewrite result_bind, probes_bind.
  destruct (result (tune _ best1)) as [best2 | e] eqn:Etune; [ | discriminate].
  intros H. simpl in H. injection H as <-. exists best1, best2.
  rewrite probes_ret, app_nil_r. repeat split. exact Etune.
Qed.

(** What [binary_search_quality] returns.  [None]: no probe of the search
    fits.  A triple: one of the probes of the search, fitting the target;
    when sizes grow with the quality, no fitting probe of the search is
    larger. *)
Lemma bsq_selects r :
  result bsq = Return r ->
  match r with
  | None => forall p, In p (probes bsq) -> Image.compliant target_size p = false
  | Some (b, s, q) =>
      s <= target_size /\
      In (probe_at q (Some s)) (probes bsq) /\
      (mono ->
       forall p s0, In p (probes bsq) ->
         Image.pr_size p = Some s0 -> s0 <= target_size -> s0 <= s)
  end.
Proof.
  rewrite bsq_unfold.
  destruct (encode image format max_quality width height) as [[b s] | ] eqn:Emax;
    [ | discriminate].
  destruct (Z.leb_spec s target_size) as [Hfit | Hover].
  { intros H. injection H as <-. split; [exact Hfit | ]. split; [now left | ].
    intros _ p s0 [<- | []] Hs _. simpl in Hs. injection Hs as <-. lia. }
  destruct (encode image format min_quality width height) as [[b' s'] | ] eqn:Emin;
    [ | discriminate].
  destruct (Z.ltb_spec target_size s') as [Hover' | Hfit'].
  { intros H. injection H as <-. unfold Image.compliant.
    intros p [<- | [<- | []]]; simpl; now apply Z.leb_gt. }
  destruct (Image.within_tolerance _ _ _).
  { intros H. injection H as <-. split; [exact Hfit' | ].
    split; [right; now left | ].
    intros _ p s0 [<- | [<- | []]] Hs Hle; simpl in Hs; injection Hs as <-; lia. }
  rewrite result_pair, !probes_pair. generalize Image.max_iterations. intros n.
  intros H. apply loop_then_tune_result in H.
  destruct H as ([[b1 s1] q1] & [[b2 s2] q2] & -> & Hloop & Htune & ->).
  apply loop_spec in Hloop. destruct Hloop as [Hwhich1 Hmax1].
  apply tune_spec in Htune. destruct Htune as (Hge & Hwhich2 & Hmax2).
  simpl in Hge.
  assert (Hs1 : s1 <= target_size /\ (mono -> s' <= s1)).
  { destruct Hwhich1 as [Heq | (Hq & _ & Hs1 & b0 & Hb0)].
    - injection Heq as _ -> _. split; [exact Hfit' | lia].
    - split; [exact Hs1 | ]. intros Hmono.
      eapply (Hmono min_quality q1); [lia | eassumption ..]. }
  destruct Hs1 as [Hs1 Hmin1].
  split; [ | split].
  - destruct Hwhich2 as [Heq | (Hs2 & _)]; [ | exact Hs2].
    injection Heq as _ -> _. exact Hs1.
  - destruct Hwhich2 as [Heq | (_ & _ & Hin)].
    + injection Heq as -> -> ->.
      destruct Hwhich1 as [Heq | (_ & Hin & _)].
      * injection Heq as -> -> ->. right. now left.
      * right. right. apply in_or_app. now left.
    + right. right. apply in_or_app. now right.
  - intros Hmono p s0 [<- | [<- | Hin]] Hs Hle.
    + simpl in Hs. injection Hs as <-. lia.
    + simpl in Hs. injection Hs as <-. specialize (Hmin1 Hmono). lia.
    + apply in_app_or in Hin. destruct Hin as [Hin | Hin].
      * specialize (Hmax1 Hmono p s0 Hin Hs Hle). lia.
      * eapply Hmax2; eassumption.
Qed.

End ImageSearchResult.

(** ** The whole of [compress_image] *)

Section ImageProbeFormat.

Context {Buffer : Type}.
Variable encode :
  Image.image -> string -> Z -> option Z -> option Z -> option (Buffer * Z).
Variables (image : Image.image) (format : string) (target_size : Z).

Local Abbreviation has_format :=
  (fun p : Image.probe => Image.pr_format p = format).

Lemma cws_format (q : Z) (width height : option Z) :
  Forall has_format
    (probes (Image.compress_with_settings Buffer encode image format q width height)).
Proof.
  destruct (cws_probes encode image format width height q) as [s ->].
  now repeat constructor.
Qed.

Lemma loop_format (width height : option Z) (tolerance_pct : Q) (n : nat) :
  forall low high best,
    Forall has_format
      (probes (Image.search_loop Buffer encode image format target_size
                 width height tolerance_pct n low high best)).
Proof.
  induction n as [ | n IH]; intros low high best; [constructor | ].
  rewrite loop_S. destruct (low <=? high); [ | constructor].
  apply Forall_probes_bind; [apply cws_format | ].
  intros [b s] _. destruct (s <=? target_size); [ | apply IH].
  destruct (Image.within_tolerance _ _ _); [constructor | apply IH].
Qed.

Lemma tune_format (width height : option Z) (qs : list Z) :
  forall best,
    Forall has_format
      (probes (Image.fine_tune Buffer encode image format target_size
                 width height qs best)).
Proof.
  induction qs as [ | q qs IH]; intros best; [constructor | ].
  rewrite tune_cons. apply Forall_probes_bind; [apply cws_format | ].
  intros [b s] _. destruct (_ && _); apply IH.
Qed.

Lemma bsq_format (min_quality max_quality : Z) (width height : option Z)
  (tolerance_pct : Q) :
  Forall has_format
    (probes (Image.binary_search_quality Buffer encode image format target_size
               min_quality max_quality width height tolerance_pct)).
Proof.
  unfold Image.binary_search_quality.
  apply Forall_probes_bind; [apply cws_format | ].
  intros [b s] _. destruct (s <=? target_size); [constructor | ].
  apply Forall_probes_bind; [apply cws_format | ].
  intros [b' s'] _. destruct (target_size <? s'); [constructor | ].
  destruct (Image.within_tolerance _ _ _); [constructor | ].
  apply Forall_probes_bind; [apply loop_format | ].
  intros [[b1 s1] q1] _.
  apply Forall_probes_bind; [apply tune_format | ].
  intros best2 _. constructor.
Qed.

Lemma ladder_cons (original_width original_height : Z) (scale : Q) (scales : list Q) :
  Image.resize_ladder Buffer encode image format target_size
    original_width original_height (scale :: scales) =
  let dims := Image.calculate_new_dimensions original_width original_height scale in
  bind (Image.compress_with_settings Buffer encode image format 95
          (Some (fst dims)) (Some (snd dims)))
    (fun '(buffer, size) =>
       if size <=? target_size
       then ret (Some (buffer, size, 95, dims))
       else
         bind (Image.binary_search_quality Buffer encode image format target_size
                 1 95 (Some (fst dims)) (Some (snd dims)) 1)
           (fun r =>
              match r with
              | Some (buffer, size, quality) => ret (Some (buffer, size, quality, dims))
              | None =>
                  Image.resize_ladder Buffer encode image format target_size
                    original_width original_height scales
              end)).
Proof. reflexivity. Qed.

Lemma ladder_format (original_width original_height : Z) (scales : list Q) :
  Forall has_format
    (probes (Image.resize_ladder Buffer encode image format target_size
               original_width original_height scales)).
Proof.
  induction scales as [ | scale scales IH]; [constructor | ].
  rewrite ladder_cons. cbv zeta.
  apply Forall_probes_bind; [apply cws_format | ].
  intros [b s] _. destruct (s <=? target_size); [constructor | ].
  apply Forall_probes_bind; [apply bsq_format | ].
  intros [[[b1 s1] q1] | ] _; [constructor | exact IH].
Qed.






End ImageProbeFormat.

Section ImageTotality.

Context {Buffer : Type}.
Variable encode :
  Image.image -> string -> Z -> option Z -> option Z -> option (Buffer * Z).
Variables (image : Image.image) (format : string) (target_size : Z).
Hypothesis encoder_answers : Image.never_raises Buffer encode image.

Lemma cws_returns (q : Z) (width height : option Z) :
  returns (Image.compress_with_settings Buffer encode image format q width height).
Proof.
  destruct (cws_cases encode image format width height q)
    as [(b & s & _ & E) | [E _]].
  - rewrite E. now exists (b, s).
  - now apply encoder_answers in E.
Qed.

Lemma loop_returns (width height : option Z) (tolerance_pct : Q) (n : nat) :
  forall low high best,
    returns (Image.search_loop Buffer encode image format target_size
               width height tolerance_pct n low high best).
Proof.
  induction n as [ | n IH]; intros low high best; [apply returns_ret | ].
  rewrite loop_S. destruct (low <=? high); [ | apply returns_ret].
  apply returns_bind; [apply cws_returns | ].
  intros [b s] _. destruct (s <=? target_size); [ | apply IH].
  destruct (Image.within_tolerance _ _ _); [apply returns_ret | apply IH].
Qed.

Lemma tune_returns (width height : option Z) (qs : list Z) :
  forall best,
    returns (Image.fine_tune Buffer encode image format target_size
               width height qs best).
Proof.
  induction qs as [ | q qs IH]; intros best; [apply returns_ret | ].
  rewrite tune_cons. apply returns_bind; [apply cws_returns | ].
  intros [b s] _. destruct (_ && _); apply IH.
Qed.

Lemma bsq_returns (min_quality max_quality : Z) (width height : option Z)
  (tolerance_pct : Q) :
  returns (Image.binary_search_quality Buffer encode image format target_size
             min_quality max_quality width height tolerance_pct).
Proof.
  unfold Image.binary_search_quality.
  apply returns_bind; [apply cws_returns | ].
  intros [b s] _. destruct (s <=? target_size); [apply returns_ret | ].
  apply returns_bind; [apply cws_returns | ].
  intros [b' s'] _. destruct (target_size <? s'); [apply returns_ret | ].
  destruct (Image.within_tolerance _ _ _); [apply returns_ret | ].
  apply returns_bind; [apply loop_returns | ].
  intros [[b1 s1] q1] _.
  apply returns_bind; [apply tune_returns | ].
  intros best2 _. apply returns_ret.
Qed.

Lemma ladder_returns (original_width original_height : Z) (scales : list Q) :
  returns (Image.resize_ladder Buffer encode image format target_size
             original_width original_height scales).
Proof.
  induction scales as [ | scale scales IH]; [apply returns_ret | ].
  rewrite ladder_cons. cbv zeta.
  apply returns_bind; [apply cws_returns | ].
  intros [b s] _. destruct (s <=? target_size); [apply returns_ret | ].
  apply returns_bind; [apply bsq_returns | ].
  intros [[[b1 s1] q1] | ] _; [apply returns_ret | exact IH].
Qed.

End ImageTotality.

Section ImageLadder.

Context {Buffer : Type}.
Variable encode :
  Image.image -> string -> Z -> option Z -> option Z -> option (Buffer * Z).
Variables (image : Image.image) (format : string) (target_size : Z).

Local Abbreviation ladder :=
  (Image.resize_ladder Buffer encode image format target_size).
Local Abbreviation all_mono :=
  (forall width height, Image.size_monotone Buffer encode image format width height).

(** The probe behind a returned size and quality. *)
Definition probed (l : list Image.probe) (s q : Z) : Prop :=
  exists p, In p l /\ Image.pr_size p = Some s /\ Image.pr_quality p = q.

(** No fitting probe in the log is larger than [s]. *)
Definition largest_fitting (l : list Image.probe) (s : Z) : Prop :=
  forall p s0, In p l -> Image.pr_size p = Some s0 -> s0 <= target_size -> s0 <= s.

Lemma none_fitting_largest (l : list Image.probe) (s : Z) :
  (forall p, In p l -> Image.compliant target_size p = false) ->
  largest_fitting l s.
Proof.
  intros Hnone p s0 Hin Hs Hle. apply Hnone in Hin.
  unfold Image.compliant in Hin. rewrite Hs in Hin. apply Z.leb_gt in Hin. lia.
Qed.

Lemma largest_fitting_app (l1 l2 : list Image.probe) (s : Z) :
  largest_fitting l1 s -> largest_fitting l2 s -> largest_fitting (l1 ++ l2) s.
Proof.
  intros H1 H2 p s0 Hin. apply in_app_or in Hin.
  destruct Hin; [now apply H1 | now apply H2].
Qed.

Lemma bsq_selects_probed (min_quality max_quality : Z) (width height : option Z)
  (tolerance_pct : Q) r :
  let m := Image.binary_search_quality Buffer encode image format target_size
             min_quality max_quality width height tolerance_pct in
  result m = Return r ->
  match r with
  | None => forall p, In p (probes m) -> Image.compliant target_size p = false
  | Some (b, s, q) =>
      s <= target_size /\ probed (probes m) s q /\
      (Image.size_monotone Buffer encode image format width height ->
       largest_fitting (probes m) s)
  end.
Proof.
  intros m Hres. apply bsq_selects in Hres.
  destruct r as [[[b s] q] | ]; [ | exact Hres].
  destruct Hres as (Hfit & Hin & Hmax). split; [exact Hfit | ].
  split; [ | exact Hmax]. eexists. split; [exact Hin | now split].
Qed.

(** The resize ladder returns nothing only when no probe fitted; otherwise
    a fitting probe, the largest fitting one when sizes grow with quality. *)
Lemma ladder_selects (original_width original_height : Z) (scales : list Q) :
  forall r,
  result (ladder original_width original_height scales) = Return r ->
  match r with
  | None =>
      forall p, In p (probes (ladder original_width original_height scales)) ->
        Image.compliant target_size p = false
  | Some (b, s, q, dims) =>
      s <= target_size /\
      probed (probes (ladder original_width original_height scales)) s q /\
      (all_mono ->
       largest_fitting (probes (ladder original_width original_height scales)) s)
  end.
Proof.
  induction scales as [ | scale scales IH]; intros r Hres.
  - injection Hres as <-. intros p [].
  - rewrite ladder_cons in Hres |- *. cbv zeta in Hres |- *.
    set (dims := Image.calculate_new_dimensions original_width original_height scale)
      in *.
    rewrite result_bind in Hres. rewrite probes_bind.
    destruct (cws_cases encode image format (Some (fst dims)) (Some (snd dims)) 95)
      as [(b & s & _ & E) | [_ E]]; rewrite E in Hres |- *;
      rewrite result_pair in Hres |- *; rewrite probes_pair; [ | discriminate].
    cbv beta iota in Hres |- *.
    destruct (Z.leb_spec s target_size) as [Hfit | Hover].
    + injection Hres as <-. rewrite probes_ret. split; [exact Hfit | ]. split.
      * eexists. split; [now left | now split].
      * intros _ p s0 [<- | []] Hs _. simpl in Hs. injection Hs as <-. lia.
    + rewrite result_bind in Hres. rewrite probes_bind.
      destruct (result (Image.binary_search_quality Buffer encode image format
                          target_size 1 95 (Some (fst dims)) (Some (snd dims)) 1))
        as [r1 | e] eqn:Ebsq; [ | discriminate].
      pose proof (bsq_selects_probed _ _ _ _ _ _ Ebsq) as Hsel.
      assert (Hfirst : forall p, In p
                [ {| Image.pr_format := format; Image.pr_quality := 95;
                     Image.pr_width := Some (fst dims);
                     Image.pr_height := Some (snd dims);
                     Image.pr_size := Some s |} ] ->
                Image.compliant target_size p = false).
      { intros p [<- | []]. unfold Image.compliant. simpl. now apply Z.leb_gt. }
      destruct r1 as [[[b1 s1] q1] | ].
      * injection Hres as <-. rewrite probes_ret, app_nil_r.
        destruct Hsel as (Hfit1 & (p & Hin & Hp) & Hmax). split; [exact Hfit1 | ].
        split.
        -- exists p. split; [right; exact Hin | exact Hp].
        -- intros Hmono.
           apply (largest_fitting_app [_]);
             [now apply none_fitting_largest | apply Hmax, Hmono].
      * specialize (IH r Hres). cbv beta iota.
        destruct r as [[[[b2 s2] q2] dims2] | ].
        -- destruct IH as (Hfit2 & (p & Hin & Hp) & Hmax). split; [exact Hfit2 | ].
           split.
           ++ exists p. split; [ | exact Hp].
              apply in_or_app. right. apply in_or_app. now right.
           ++ intros Hmono.
              apply (largest_fitting_app [_]);
                [now apply none_fitting_largest | ].
              apply largest_fitting_app;
                [now apply none_fitting_largest | apply Hmax, Hmono].
        -- intros p Hin. apply in_app_or in Hin.
           destruct Hin as [Hin | Hin]; [now apply Hfirst | ].
           apply in_app_or in Hin. destruct Hin; [now apply Hsel | now apply IH].
Qed.

End ImageLadder.

Section ImageCompress.

Context {Buffer : Type}.
Variable encode :
  Image.image -> string -> Z -> option Z -> option Z -> option (Buffer * Z).
Variable base_name_of : string -> string.

Local Abbreviation compress_image := (Image.compress_image Buffer encode base_name_of).
Local Abbreviation cws := (Image.compress_with_settings Buffer encode).
Local Abbreviation bsq := (Image.binary_search_quality Buffer encode).
Local Abbreviation ladder := (Image.resize_ladder Buffer encode).

(** The last resort of [compress_image]: lowest quality at a tenth of the
    original dimensions. *)
Definition floor_probe (image : Image.image) (format : string)
  : M Image.probe (option (Buffer * Z * Z) * bool * (Z * Z)) :=
  let dims := Image.calculate_new_dimensions
                (fst (Image.img_size image)) (snd (Image.img_size image)) Image.last_resort_scale in
  bind (cws image format 1 (Some (fst dims)) (Some (snd dims)))
    (fun '(buffer, size) => ret (Some (buffer, size, 1), true, dims)).

(** The search part of [compress_image]: quality search at the original
    dimensions, then the resize ladder, then the last resort. *)
Definition find_best (image : Image.image) (format : string) (target_size : Z)
  : M Image.probe (option (Buffer * Z * Z) * bool * (Z * Z)) :=
  bind (bsq image format target_size 1 95 None None 1)
    (fun first =>
       match first with
       | Some best => ret (Some best, false, Image.img_size image)
       | None =>
           bind (ladder image format target_size
                   (fst (Image.img_size image)) (snd (Image.img_size image))
                   Image.scale_factors)
             (fun r =>
                match r with
                | Some (buffer, size, quality, dims) =>
                    ret (Some (buffer, size, quality), true, dims)
                | None => floor_probe image format
                end)
       end).

(** The part of [compress_image] after the search. *)
Definition finish (file : Image.file) (image : Image.image) (max_size_kb : Z)
  (format : string) (state : option (Buffer * Z * Z) * bool * (Z * Z))
  : M Image.probe (Image.artifact Buffer * string * Image.compression_info) :=
  let '(best, was_resized, final_dims) := state in
  match best with
  | None =>
      raise (ValueError "Failed to compress image to target size with any method")
  | Some (best_buffer, best_size, best_quality) =>
      if Image.file_bytes file =? 0 then raise ZeroDivisionError else
      ret (Image.Compressed Buffer best_buffer,
           Image.new_filename_of
             (base_name_of (match Image.file_name file with
                            | Some n => n
                            | None => "image.jpg"%string
                            end))
             (lower format),
           {| Image.original_size := Image.file_bytes file / 1024;
              Image.compressed_size := (best_size + 1023) / 1024;
              Image.actual_size_bytes := Some best_size;
              Image.reduction_percent :=
                py_round2
                  (float_mul
                     (float_sub 1 (py_truediv best_size (Image.file_bytes file))) 100);
              Image.quality := best_quality;
              Image.dimensions := None;
              Image.original_dimensions := Some (Image.img_size image);
              Image.final_dimensions := Some final_dims;
              Image.resized := was_resized;
              Image.format := Some format;
              Image.target_size_kb := Some max_size_kb;
              Image.success := Some (best_size <=? max_size_kb * 1024) |})
  end.

Lemma compress_image_unfold (file : Image.file) (max_size_kb : Z)
  (image : Image.image) :
  Image.file_image file = Some image ->
(Image.file_bytes file <=? max_size_kb * 1024) = false ->
  compress_image file max_size_kb =
  bind (find_best image
          (Image.format_for_compression_of image (Image.file_bytes file)
             (max_size_kb * 1024))
          (max_size_kb * 1024))
    (finish file image max_size_kb
       (Image.format_for_compression_of image (Image.file_bytes file)
          (max_size_kb * 1024))).
Proof.
  intros Himg Hbig. unfold Image.compress_image. rewrite Himg, Hbig.
  unfold find_best. rewrite bind_assoc. apply bind_ext.
  intros [best | ].
  - apply bind_ext. intros [[b w] d]. reflexivity.
  - destruct (Image.img_size image) as [ow oh] eqn:Esize. cbn [fst snd].
    rewrite !bind_assoc. apply bind_ext.
    intros [[[[b s] q] dims] | ].
    + apply bind_ext. intros [[b0 w] d]. unfold finish. now rewrite Esize.
    + unfold floor_probe. rewrite Esize. cbn [fst snd]. cbv zeta.
      destruct (Image.calculate_new_dimensions ow oh Image.last_resort_scale) as [mw mh] eqn:Edims.
      cbn [fst snd]. rewrite !bind_assoc. apply bind_ext. intros [b s].
      apply bind_ext. intros [[b0 w] d]. unfold finish. now rewrite Esize.
Qed.

Lemma floor_probe_cases (image : Image.image) (format : string) :
  let dims := Image.calculate_new_dimensions
                (fst (Image.img_size image)) (snd (Image.img_size image)) Image.last_resort_scale in
  let probe_of s :=
    {| Image.pr_format := format; Image.pr_quality := 1;
       Image.pr_width := Some (fst dims); Image.pr_height := Some (snd dims);
       Image.pr_size := s |} in
  match encode image format 1 (Some (fst dims)) (Some (snd dims)) with
  | Some (b, s) =>
      floor_probe image format =
      (Return (Some (b, s, 1), true, dims), [probe_of (Some s)])
  | None => floor_probe image format = (Raise EncoderError, [probe_of None])
  end.
Proof.
  intros dims probe_of. unfold floor_probe. fold dims.
  destruct (cws_cases encode image format (Some (fst dims)) (Some (snd dims)) 1)
    as [(b & s & -> & ->) | [-> ->]]; reflexivity.
Qed.

Lemma find_best_format (image : Image.image) (format : string) (target_size : Z) :
  Forall (fun p => Image.pr_format p = format)
    (probes (find_best image format target_size)).
Proof.
  unfold find_best. apply Forall_probes_bind; [apply bsq_format | ].
  intros [best | ] _; [constructor | ].
  apply Forall_probes_bind; [apply ladder_format | ].
  intros [[[[b s] q] dims] | ] _; [constructor | ].
  unfold floor_probe. cbv zeta.
  apply Forall_probes_bind; [apply cws_format | ].
  intros [b s] _. constructor.
Qed.

Lemma find_best_returns (image : Image.image) (format : string) (target_size : Z) :
  Image.never_raises Buffer encode image ->
  returns (find_best image format target_size).
Proof.
  intros Htotal. unfold find_best.
  apply returns_bind; [now apply bsq_returns | ].
  intros [best | ] _; [apply returns_ret | ].
  apply returns_bind; [now apply ladder_returns | ].
  intros [[[[b s] q] dims] | ] _; [apply returns_ret | ].
  unfold floor_probe. cbv zeta.
  apply returns_bind; [now apply cws_returns | ].
  intros [b s] _. apply returns_ret.
Qed.

(** The first probe of every search is the one at the original dimensions
    and quality 95. *)
Lemma find_best_probes_nonempty (image : Image.image) (format : string)
  (target_size : Z) :
  probes (find_best image format target_size) <> [].
Proof.
  unfold find_best. rewrite probes_bind.
  unfold Image.binary_search_quality at 1. rewrite probes_bind.
  destruct (cws_probes encode image format None None 95) as [s ->].
  discriminate.
Qed.

(** The search always ends with a result in hand.  It fits the target as
    soon as some probe did, and when sizes grow with the quality no fitting
    probe is larger. *)
Lemma find_best_selects (image : Image.image) (format : string) (target_size : Z)
  best was_resized dims :
  result (find_best image format target_size) = Return (best, was_resized, dims) ->
  exists b s q,
    best = Some (b, s, q) /\
    probed (probes (find_best image format target_size)) s q /\
    ((exists p, In p (probes (find_best image format target_size)) /\
                Image.compliant target_size p = true) ->
     s <= target_size) /\
    ((forall width height,
        Image.size_monotone Buffer encode image format width height) ->
     largest_fitting target_size (probes (find_best image format target_size)) s).
Proof.
  unfold find_best. rewrite result_bind, probes_bind.
  destruct (result (bsq image format target_size 1 95 None None 1))
    as [first | e] eqn:Ebsq; [ | discriminate].
  pose proof (bsq_selects_probed _ _ _ _ _ _ _ _ _ _ Ebsq) as Hsel.
  destruct first as [[[b s] q] | ].
  - intros H. injection H as <- <- <-. rewrite probes_ret, app_nil_r.
    destruct Hsel as (Hfit & Hprobed & Hmax).
    exists b, s, q. repeat split; auto.
  - rewrite result_bind, probes_bind.
    destruct (result (ladder image format target_size _ _ Image.scale_factors))
      as [r | e] eqn:Eladder; [ | discriminate].
    pose proof (ladder_selects _ _ _ _ _ _ _ _ Eladder) as Hlad.
    destruct r as [[[[b s] q] d] | ].
    + intros H. injection H as <- <- <-. rewrite probes_ret, app_nil_r.
      destruct Hlad as (Hfit & (p & Hin & Hp) & Hmax).
      exists b, s, q. split; [reflexivity | ]. split; [ | split].
      * exists p. split; [ | exact Hp]. apply in_or_app. now right.
      * intros _. exact Hfit.
      * intros Hmono. apply largest_fitting_app;
          [now apply none_fitting_largest | now apply Hmax].
    + pose proof (floor_probe_cases image format) as Hfloor. cbv zeta in Hfloor.
      destruct (encode image format 1 _ _) as [[b s] | ];
        rewrite Hfloor; rewrite result_pair, probes_pair; [ | discriminate].
      intros H. injection H as <- <- <-.
      exists b, s, 1. split; [reflexivity | ]. split; [ | split].
      * eexists. split.
        -- apply in_or_app. right. apply in_or_app. right. now left.
        -- split; reflexivity.
      * intros (p & Hin & Hp).
        apply in_app_or in Hin. destruct Hin as [Hin | Hin];
          [apply Hsel in Hin; congruence | ].
        apply in_app_or in Hin. destruct Hin as [Hin | [<- | []]];
          [apply Hlad in Hin; congruence | ].
        unfold Image.compliant in Hp. simpl in Hp. now apply Z.leb_le.
      * intros _. apply largest_fitting_app;
          [now apply none_fitting_largest | ].
        apply largest_fitting_app; [now apply none_fitting_largest | ].
        intros p s0 [<- | []] Hs _. simpl in Hs. injection Hs as <-. lia.
Qed.


(** The early return of [compress_image]. *)
Lemma compress_image_small (file : Image.file) (max_size_kb : Z)
  (image : Image.image) :
  Image.file_image file = Some image ->
  (Image.file_bytes file <=? max_size_kb * 1024) = true ->
  compress_image file max_size_kb =
  ret (Image.Original Buffer file,
       Image.new_filename_of
         (base_name_of (match Image.file_name file with
                        | Some n => n
                        | None => "image.jpg"%string
                        end))
         (lower (Image.original_format_of image)),
       {| Image.original_size := Image.file_bytes file / 1024;
          Image.compressed_size := Image.file_bytes file / 1024;
          Image.actual_size_bytes := None;
          Image.reduction_percent := 0;
          Image.quality := 100;
          Image.dimensions := Some (Image.img_size image);
          Image.original_dimensions := None;
          Image.final_dimensions := None;
          Image.resized := false;
          Image.format := None;
          Image.target_size_kb := None;
          Image.success := None |}).
Proof.
  intros Himg Hsmall. unfold Image.compress_image. now rewrite Himg, Hsmall.
Qed.

Lemma finish_returns (file : Image.file) (image : Image.image) (max_size_kb : Z)
  (format : string) (b : Buffer) (s q : Z) (was_resized : bool) (dims : Z * Z) :
  0 < Image.file_bytes file ->
  exists name info,
    finish file image max_size_kb format (Some (b, s, q), was_resized, dims) =
      (Return (Image.Compressed Buffer b, name, info), []) /\
    name = Image.new_filename_of
             (base_name_of (match Image.file_name file with
                            | Some n => n
                            | None => "image.jpg"%string
                            end))
             (lower format) /\
    Image.actual_size_bytes info = Some s /\
    Image.quality info = q /\
    Image.resized info = was_resized /\
    Image.final_dimensions info = Some dims /\
    Image.format info = Some format /\
    Image.success info = Some (s <=? max_size_kb * 1024).
Proof.
  intros Hpos. unfold finish.
  destruct (Z.eqb_spec (Image.file_bytes file) 0) as [E | _]; [lia | ].
  eexists. eexists. split; [reflexivity | ]. repeat split.
Qed.


Lemma finish_probes (file : Image.file) (image : Image.image) (max_size_kb : Z)
  (format : string) state :
  probes (finish file image max_size_kb format state) = [].
Proof.
  destruct state as [[[[[b s] q] | ] w] d]; unfold finish; [ | reflexivity].
  now destruct (Image.file_bytes file =? 0).
Qed.

Lemma compress_image_probes (file : Image.file) (max_size_kb : Z)
  (image : Image.image) :
  Image.file_image file = Some image ->
  max_size_kb * 1024 < Image.file_bytes file ->
  probes (compress_image file max_size_kb) =
  probes (find_best image
            (Image.format_for_compression_of image (Image.file_bytes file)
               (max_size_kb * 1024))
            (max_size_kb * 1024)).
Proof.
  intros Himg Hbig.
  rewrite compress_image_unfold with (image := image)
    by (assumption || (apply Z.leb_gt; assumption)).
  rewrite probes_bind.
  destruct (result (find_best _ _ _)); [ | now rewrite app_nil_r].
  now rewrite finish_probes, app_nil_r.
Qed.

(** What [compress_image] hands back after a search: the size and quality of
    one of its probes; it fits the target as soon as some probe did, and
    when sizes grow with the quality no fitting probe is larger. *)
Lemma compress_image_selects (file : Image.file) (max_size_kb : Z)
  (image : Image.image) a name info :
  Image.file_image file = Some image ->
  max_size_kb * 1024 < Image.file_bytes file ->
  result (compress_image file max_size_kb) = Return (a, name, info) ->
  let format := Image.format_for_compression_of image (Image.file_bytes file)
                  (max_size_kb * 1024) in
  exists s,
    Image.actual_size_bytes info = Some s /\
    probed (probes (compress_image file max_size_kb)) s (Image.quality info) /\
    ((exists p, In p (probes (compress_image file max_size_kb)) /\
                Image.compliant (max_size_kb * 1024) p = true) ->
     s <= max_size_kb * 1024 /\ Image.success info = Some true) /\
    ((forall width height,
        Image.size_monotone Buffer encode image format width height) ->
     largest_fitting (max_size_kb * 1024)
       (probes (compress_image file max_size_kb)) s).
Proof.
  intros Himg Hbig Hres format.
  rewrite compress_image_probes with (image := image) by assumption.
  rewrite compress_image_unfold with (image := image) in Hres
    by (assumption || (apply Z.leb_gt; assumption)).
  fold format in Hres |- *. rewrite result_bind in Hres.
  destruct (result (find_best image format (max_size_kb * 1024)))
    as [[[best w] d] | e] eqn:Hret; [ | discriminate].
  destruct (find_best_selects _ _ _ _ _ _ Hret)
    as (b & s & q & -> & Hprobed & Hfit & Hmax).
  unfold finish in Hres.
  destruct (Image.file_bytes file =? 0); [discriminate | ].
  injection Hres as <- <- <-. cbn [Image.actual_size_bytes Image.quality Image.success].
  exists s. split; [reflexivity | ]. split; [exact Hprobed | ].
  split; [ | exact Hmax].
  intros Hex. specialize (Hfit Hex). split; [exact Hfit | ].
  f_equal. now apply Z.leb_le.
Qed.

Lemma format_for_compression_webp (image : Image.image)
  (original_size target_size : Z) :
  upper (Image.original_format_of image) = "PNG"%string ->
  Image.img_mode image = "RGBA"%string ->
  2 * target_size < original_size ->
  Image.format_for_compression_of image original_size target_size = "WEBP"%string.
Proof.
  intros Hpng Hmode Hhalf. unfold Image.format_for_compression_of.
  rewrite Hpng, Hmode.
  assert (Hlt : Qlt_bool (inject_Z target_size) (inject_Z original_size * (1 # 2))
                = true).
  { apply Qlt_bool_iff. unfold Qlt. simpl. lia. }
  now rewrite Hlt.
Qed.

(** C10. A PNG in mode RGBA whose target is below half of its size (and
    below its size) is encoded as WebP in every probe; what is returned is
    an encoder output of format WEBP under a name ending in [.webp], where
    the source has format PNG and extension [png]. *)
Theorem png_rgba_reencoded_as_webp (file : Image.file) (max_size_kb : Z)
  (image : Image.image)
  (Himg : Image.file_image file = Some image)
  (Hpng : upper (Image.original_format_of image) = "PNG"%string)
  (Hmode : Image.img_mode image = "RGBA"%string)
  (Hhalf : 2 * (max_size_kb * 1024) < Image.file_bytes file)
  (Hover : max_size_kb * 1024 < Image.file_bytes file)
  (Hkb : 0 <= max_size_kb) :
  let base_name :=
    base_name_of (match Image.file_name file with
                  | Some n => n
                  | None => "image.jpg"%string
                  end) in
  probes (compress_image file max_size_kb) <> [] /\
  Forall (fun p => Image.pr_format p = "WEBP"%string)
    (probes (compress_image file max_size_kb)) /\
  (forall a name info,
     result (compress_image file max_size_kb) = Return (a, name, info) ->
     (exists b, a = Image.Compressed Buffer b) /\
     Image.format info = Some "WEBP"%string /\
     Image.format info <> Some (Image.original_format_of image) /\
     name = Image.new_filename_of base_name "webp" /\
     lower (Image.original_format_of image) = "png"%string /\
     name <> Image.new_filename_of base_name
               (lower (Image.original_format_of image))) /\
  (Image.never_raises Buffer encode image ->
   exists b name info,
     result (compress_image file max_size_kb) =
       Return (Image.Compressed Buffer b, name, info)).
Proof.
  intros base_name.
  pose proof (format_for_compression_webp image _ _ Hpng Hmode Hhalf) as Hfmt.
  assert (Hlower : lower (Image.original_format_of image) = "png"%string)
    by (rewrite <- lower_upper, Hpng; reflexivity).
  assert (Hpos : 0 < Image.file_bytes file) by lia.
  rewrite compress_image_probes with (image := image) by assumption.
  rewrite compress_image_unfold with (image := image)
    by (assumption || (apply Z.leb_gt; assumption)).
  rewrite Hfmt. split; [apply find_best_probes_nonempty | ].
  split; [apply find_best_format | ]. split.
  - intros a name info. rewrite result_bind.
    destruct (result (find_best image "WEBP" (max_size_kb * 1024)))
      as [[[best w] d] | e] eqn:Hret; [ | discriminate].
    destruct (find_best_selects _ _ _ _ _ _ Hret) as (b & s & q & -> & _).
    destruct (finish_returns file image max_size_kb "WEBP" b s q w d Hpos)
      as (name0 & info0 & -> & -> & _ & _ & _ & _ & Hformat & _).
    rewrite result_pair. intros H. injection H as <- <- <-.
    split; [now exists b | ]. split; [exact Hformat | ]. split.
    + rewrite Hformat. intros H. injection H as H. rewrite <- H in Hpng.
      discriminate.
    + split; [reflexivity | ]. split; [exact Hlower | ].
      rewrite Hlower. unfold Image.new_filename_of. fold base_name.
      intros H. apply string_app_inv_head in H. discriminate.
  - intros Htotal. rewrite result_bind.
    destruct (find_best_returns image "WEBP" (max_size_kb * 1024) Htotal)
      as [[[best w] d] Hret].
    rewrite Hret.
    destruct (find_best_selects _ _ _ _ _ _ Hret) as (b & s & q & -> & _).
    destruct (finish_returns file image max_size_kb "WEBP" b s q w d Hpos)
      as (name & info & -> & _).
    now exists b, name, info.
Qed.

End ImageCompress.

(** ** The returned artifact is the output of a probe *)

Section ImageReturnedProbe.

Context {Buffer : Type}.
Variable encode :
  Image.image -> string -> Z -> option Z -> option Z -> option (Buffer * Z).
Variable image : Image.image.

(** The buffer [b] of [s] bytes is what the encoder gave for a probe of the
    log, made at quality [q]. *)
Definition from_probe (l : list Image.probe) (b : Buffer) (s q : Z) : Prop :=
  exists p,
    In p l /\ Image.pr_quality p = q /\ Image.pr_size p = Some s /\
    encode image (Image.pr_format p) (Image.pr_quality p)
      (Image.pr_width p) (Image.pr_height p) = Some (b, s).

Lemma from_probe_app_l (l l' : list Image.probe) (b : Buffer) (s q : Z) :
  from_probe l b s q -> from_probe (l ++ l') b s q.
Proof.
  intros (p & Hin & H). exists p. split; [apply in_or_app; now left | exact H].
Qed.

Lemma from_probe_app_r (l l' : list Image.probe) (b : Buffer) (s q : Z) :
  from_probe l' b s q -> from_probe (l ++ l') b s q.
Proof.
  intros (p & Hin & H). exists p. split; [apply in_or_app; now right | exact H].
Qed.

Section Search.

Variables (format : string) (target_size : Z).
Variables (width height : option Z) (tolerance_pct : Q).

Local Abbreviation cws q :=
  (Image.compress_with_settings Buffer encode image format q width height).
Local Abbreviation loop :=
  (Image.search_loop Buffer encode image format target_size width height tolerance_pct).
Local Abbreviation tune :=
  (Image.fine_tune Buffer encode image format target_size width height).

Lemma cws_from_probe (q : Z) (b : Buffer) (s : Z) :
  result (cws q) = Return (b, s) -> from_probe (probes (cws q)) b s q.
Proof.
  destruct (cws_cases encode image format width height q)
    as [(b0 & s0 & Henc & ->) | [_ ->]]; [ | discriminate].
  intros H. injection H as <- <-. eexists. split; [now left | ].
  split; [reflexivity | ]. split; [reflexivity | exact Henc].
Qed.

(** The loop returns the best it started from or the output of one of its
    probes. *)
Lemma loop_from_probe (n : nat) : forall low high best b s q,
  result (loop n low high best) = Return (b, s, q) ->
  (b, s, q) = best \/ from_probe (probes (loop n low high best)) b s q.
Proof.
  induction n as [ | n IH]; intros low high best b s q Hres.
  - injection Hres as <-. now left.
  - rewrite loop_S in Hres |- *. destruct (low <=? high).
    2:{ injection Hres as <-. now left. }
    rewrite result_bind in Hres. rewrite probes_bind.
    destruct (result (cws ((low + high) / 2))) as [[b0 s0] | e] eqn:Ecws;
      [ | discriminate].
    apply cws_from_probe in Ecws. cbv beta iota in Hres |- *.
    destruct (s0 <=? target_size).
    + destruct (Image.within_tolerance _ _ _).
      * injection Hres as <- <- <-. right. now apply from_probe_app_l.
      * destruct (IH _ _ _ _ _ _ Hres) as [Heq | Hfrom].
        -- injection Heq as -> -> ->. right. now apply from_probe_app_l.
        -- right. now apply from_probe_app_r.
    + destruct (IH _ _ _ _ _ _ Hres) as [Heq | Hfrom]; [now left | ].
      right. now apply from_probe_app_r.
Qed.

Lemma tune_from_probe (qs : list Z) : forall best b s q,
  result (tune qs best) = Return (b, s, q) ->
  (b, s, q) = best \/ from_probe (probes (tune qs best)) b s q.
Proof.
  induction qs as [ | q0 qs IH]; intros best b s q Hres.
  - injection Hres as <-. now left.
  - rewrite tune_cons in Hres |- *.
    rewrite result_bind in Hres. rewrite probes_bind.
    destruct (result (cws q0)) as [[b0 s0] | e] eqn:Ecws; [ | discriminate].
    apply cws_from_probe in Ecws. cbv beta iota in Hres |- *.
    destruct (_ && _).
    + destruct (IH _ _ _ _ Hres) as [Heq | Hfrom].
      * injection Heq as -> -> ->. right. now apply from_probe_app_l.
      * right. now apply from_probe_app_r.
    + destruct (IH _ _ _ _ Hres) as [Heq | Hfrom]; [now left | ].
      right. now apply from_probe_app_r.
Qed.

Variables (min_quality max_quality : Z).

Local Abbreviation bsq :=
  (Image.binary_search_quality Buffer encode image format target_size
     min_quality max_quality width height tolerance_pct).

(** [binary_search_quality] returns the output of one of its probes. *)
Lemma bsq_from_probe (b : Buffer) (s q : Z) :
  result bsq = Return (Some (b, s, q)) -> from_probe (probes bsq) b s q.
Proof.
  unfold Image.binary_search_quality.
  rewrite result_bind, probes_bind.
  destruct (result (cws max_quality)) as [[b0 s0] | e] eqn:E0; [ | discriminate].
  apply cws_from_probe in E0. cbv beta iota.
  destruct (s0 <=? target_size).
  { intros H. injection H as <- <- <-. now apply from_probe_app_l. }
  rewrite result_bind, probes_bind.
  destruct (result (cws min_quality)) as [[b1 s1] | e] eqn:E1; [ | discriminate].
  apply cws_from_probe in E1. cbv beta iota.
  destruct (target_size <? s1); [discriminate | ].
  destruct (Image.within_tolerance _ _ _).
  { intros H. injection H as <- <- <-.
    apply from_probe_app_r. now apply from_probe_app_l. }
  generalize Image.max_iterations. intros n.
  rewrite result_bind, probes_bind.
  destruct (result (loop n min_quality max_quality (b1, s1, min_quality)))
    as [[[b2 s2] q2] | e] eqn:E2; [ | discriminate].
  apply loop_from_probe in E2. cbv beta iota.
  rewrite result_bind, probes_bind.
  destruct (result (tune (Image.fine_tune_range max_quality q2) (b2, s2, q2)))
    as [[[b3 s3] q3] | e] eqn:E3; [ | discriminate].
  apply tune_from_probe in E3.
  intros H. injection H as <- <- <-.
  destruct E3 as [E3 | E3].
  - injection E3 as -> -> ->. destruct E2 as [E2 | E2].
    + injection E2 as -> -> ->. apply from_probe_app_r. now apply from_probe_app_l.
    + apply from_probe_app_r, from_probe_app_r, from_probe_app_l. exact E2.
  - apply from_probe_app_r, from_probe_app_r, from_probe_app_r, from_probe_app_l.
    exact E3.
Qed.

End Search.

Local Abbreviation ladder := (Image.resize_ladder Buffer encode image).

Lemma ladder_from_probe (format : string) (target_size w h : Z) (scales : list Q) :
  forall b s q dims,
  result (ladder format target_size w h scales) = Return (Some (b, s, q, dims)) ->
  from_probe (probes (ladder format target_size w h scales)) b s q.
Proof.
  induction scales as [ | scale scales IH]; intros b s q dims Hres; [discriminate | ].
  rewrite ladder_cons in Hres |- *. cbv zeta in Hres |- *.
  rewrite result_bind in Hres. rewrite probes_bind.
  destruct (result (Image.compress_with_settings _ _ _ _ _ _ _))
    as [[b0 s0] | e] eqn:E0; [ | discriminate].
  apply cws_from_probe in E0. cbv beta iota in Hres |- *.
  destruct (s0 <=? target_size).
  - injection Hres as <- <- <- _. now apply from_probe_app_l.
  - rewrite result_bind in Hres. rewrite probes_bind.
    destruct (result (Image.binary_search_quality _ _ _ _ _ _ _ _ _ _))
      as [[[[b1 s1] q1] | ] | e] eqn:E1; [ | | discriminate].
    + apply bsq_from_probe in E1. injection Hres as <- <- <- _.
      apply from_probe_app_r. now apply from_probe_app_l.
    + apply from_probe_app_r, from_probe_app_r. eapply IH. exact Hres.
Qed.

Lemma find_best_from_probe (format : string) (target_size : Z) best was_resized dims :
  result (find_best encode image format target_size)
    = Return (best, was_resized, dims) ->
  exists b s q,
    best = Some (b, s, q) /\
    from_probe (probes (find_best encode image format target_size)) b s q.
Proof.
  unfold find_best. rewrite result_bind, probes_bind.
  destruct (result (Image.binary_search_quality _ _ _ _ _ _ _ _ _ _))
    as [[[[b s] q] | ] | e] eqn:E0; [ | | discriminate].
  - apply bsq_from_probe in E0. intros H. injection H as <- _ _.
    exists b, s, q. split; [reflexivity | now apply from_probe_app_l].
  - rewrite result_bind, probes_bind.
    destruct (result (Image.resize_ladder _ _ _ _ _ _ _ _))
      as [[[[[b s] q] d] | ] | e] eqn:E1; [ | | discriminate].
    + apply ladder_from_probe in E1. intros H. injection H as <- _ _.
      exists b, s, q. split; [reflexivity | ].
      apply from_probe_app_r. now apply from_probe_app_l.
    + unfold floor_probe. cbv zeta. rewrite result_bind, probes_bind.
      destruct (result (Image.compress_with_settings _ _ _ _ _ _ _))
        as [[b s] | e] eqn:E2; [ | discriminate].
      apply cws_from_probe in E2. intros H. injection H as <- _ _.
      exists b, s, 1. split; [reflexivity | ].
      apply from_probe_app_r, from_probe_app_r. now apply from_probe_app_l.
Qed.

End ImageReturnedProbe.

Section ImageReturnedArtifact.

Context {Buffer : Type}.
Variable encode :
  Image.image -> string -> Z -> option Z -> option Z -> option (Buffer * Z).
Variable base_name_of : string -> string.

Local Abbreviation compress_image := (Image.compress_image Buffer encode base_name_of).

(** After a search [compress_image] hands back the buffer of one of its
    probes, with the size and the quality of that probe. *)
Lemma compress_image_from_probe (file : Image.file) (max_size_kb : Z)
  (image : Image.image) a name info :
  Image.file_image file = Some image ->
  max_size_kb * 1024 < Image.file_bytes file ->
  result (compress_image file max_size_kb) = Return (a, name, info) ->
  exists b s,
    a = Image.Compressed Buffer b /\
    Image.actual_size_bytes info = Some s /\
    from_probe encode image (probes (compress_image file max_size_kb)) b s
      (Image.quality info).
Proof.
  intros Himg Hbig Hres.
  rewrite compress_image_probes with (image := image) by assumption.
  rewrite compress_image_unfold with (image := image) in Hres
    by (assumption || (apply Z.leb_gt; assumption)).
  rewrite result_bind in Hres.
  destruct (result (find_best encode image _ (max_size_kb * 1024)))
    as [[[best w] d] | e] eqn:Hret; [ | discriminate].
  destruct (find_best_from_probe encode image _ _ _ _ _ Hret)
    as (b & s & q & -> & Hfrom).
  unfold finish in Hres.
  destruct (Image.file_bytes file =? 0); [discriminate | ].
  injection Hres as <- <- <-. cbn [Image.actual_size_bytes Image.quality].
  exists b, s. split; [reflexivity | ]. split; [reflexivity | exact Hfrom].
Qed.

End ImageReturnedArtifact.

(** ** The PDF tier table *)

Section PdfTiers.

Local Abbreviation below factor :=
  (fun l : Pdf.level => (Pdf.quality_factor l < factor)%Q).

Lemma first_level_spec (factor : Q) (levels : list Pdf.level) :
  match Pdf.first_level factor levels with
  | Some l =>
      exists before after,
        levels = before ++ l :: after /\
        (factor <= Pdf.quality_factor l)%Q /\
        Forall (below factor) before
  | None => Forall (below factor) levels
  end.
Proof.
  induction levels as [ | l levels IH]; simpl; [constructor | ].
  destruct (Qle_bool factor (Pdf.quality_factor l)) eqn:E.
  - exists [], levels. split; [reflexivity | ].
    split; [now apply Qle_bool_iff | constructor].
  - assert (Hl : below factor l).
    { apply Qnot_le_lt. intros H. apply Qle_bool_iff in H. congruence. }
    destruct (Pdf.first_level factor levels) as [l' | ].
    + destruct IH as (before & after & -> & Hge & Hbefore).
      exists (l :: before), after. split; [reflexivity | ].
      split; [exact Hge | now constructor].
    + now constructor.
Qed.

Definition highest_level : Pdf.level :=
  {| Pdf.quality_factor := 1; Pdf.gs_preset := "/prepress"; Pdf.dpi := 400 |}.

Lemma CUSTOM_QUALITY_LEVELS_ascending :
  StronglySorted (fun a b => (Pdf.quality_factor a < Pdf.quality_factor b)%Q)
    Pdf.CUSTOM_QUALITY_LEVELS.
Proof.
  unfold Pdf.CUSTOM_QUALITY_LEVELS, Pdf.lowest_level.
  repeat (constructor; [ | repeat (constructor; [reflexivity | ]); constructor]).
  constructor.
Qed.

(** C8. The table has 11 entries in ascending order of quality factor.  For
    a factor of at most 1 (so for every factor in [0,1]) the lookup
    returns the first entry whose quality factor is at least the factor;
    for a larger factor it returns the last, highest entry. *)
Theorem tier_lookup_first_at_least (factor : Q) :
  List.length Pdf.CUSTOM_QUALITY_LEVELS = 11%nat /\
  StronglySorted (fun a b => (Pdf.quality_factor a < Pdf.quality_factor b)%Q)
    Pdf.CUSTOM_QUALITY_LEVELS /\
  ((factor <= 1)%Q ->
   exists before after,
     Pdf.CUSTOM_QUALITY_LEVELS =
       before ++ Pdf.get_settings_for_quality_factor factor :: after /\
     (factor <= Pdf.quality_factor (Pdf.get_settings_for_quality_factor factor))%Q /\
     Forall (below factor) before) /\
  ((1 < factor)%Q ->
   Pdf.get_settings_for_quality_factor factor = highest_level /\
   Forall (below factor) Pdf.CUSTOM_QUALITY_LEVELS).
Proof.
  split; [reflexivity | ]. split; [apply CUSTOM_QUALITY_LEVELS_ascending | ].
  pose proof (first_level_spec factor Pdf.CUSTOM_QUALITY_LEVELS) as Hspec.
  unfold Pdf.get_settings_for_quality_factor.
  destruct (Pdf.first_level factor Pdf.CUSTOM_QUALITY_LEVELS) as [l | ].
  - split; [intros _; exact Hspec | ].
    intros Hbig. exfalso.
    destruct Hspec as (before & after & Heq & Hge & _).
    assert (Hin : In l Pdf.CUSTOM_QUALITY_LEVELS)
      by (rewrite Heq; apply in_or_app; right; now left).
    assert (Hle1 : (Pdf.quality_factor l <= 1)%Q).
    { revert Hin. clear. unfold Pdf.CUSTOM_QUALITY_LEVELS, Pdf.lowest_level.
      simpl. intros H.
      repeat (destruct H as [<- | H]; [simpl; unfold Qle; simpl; lia | ]).
      contradiction. }
    apply (Qlt_irrefl 1). eapply Qlt_le_trans; [exact Hbig | ].
    eapply Qle_trans; eassumption.
  - split; [ | intros _; split; [reflexivity | exact Hspec]].
    intros Hle. exfalso.
    apply Forall_forall with (x := highest_level) in Hspec.
    + apply (Qlt_irrefl factor). eapply Qle_lt_trans; [exact Hle | exact Hspec].
    + unfold Pdf.CUSTOM_QUALITY_LEVELS, highest_level. simpl. tauto.
Qed.

End PdfTiers.

(** ** The PDF tier search *)

Arguments Pdf.factor_loop : simpl never.

Section PdfSearch.

Context {Document : Type}.
Variable ghostscript : Pdf.level -> option (Document * Z).
Variable target_size_mb : Q.

Local Abbreviation floop := (Pdf.factor_loop Document ghostscript target_size_mb).
Local Abbreviation fits bytes := (Pdf.size_mb bytes <= target_size_mb)%Q.

Lemma compress_pdf_cases (settings : Pdf.level) :
  (exists d bytes, ghostscript settings = Some (d, bytes) /\
     Pdf.compress_pdf Document ghostscript settings =
       (Return (d, bytes),
        [ {| Pdf.pr_level := settings; Pdf.pr_size := Some bytes |} ])) \/
  (ghostscript settings = None /\
   Pdf.compress_pdf Document ghostscript settings =
     (Raise (RuntimeError "Ghostscript failed"),
      [ {| Pdf.pr_level := settings; Pdf.pr_size := None |} ])).
Proof.
  unfold Pdf.compress_pdf. destruct (ghostscript settings) as [[d bytes] | ].
  - left. now exists d, bytes.
  - now right.
Qed.

(** The interval and the best after one iteration, from what Ghostscript
    answered at the midpoint. *)
Definition next_state (low high : Q) (best : Document * Z * Q)
  (answer : option (Document * Z)) : Q * Q * (Document * Z * Q) :=
  let mid := ((low + high) / 2)%Q in
  match answer with
  | Some (d, bytes) =>
      if Qle_bool (Pdf.size_mb bytes) target_size_mb then
        (mid, high,
         if Qlt_bool (Pdf.size_mb (snd (fst best))) (Pdf.size_mb bytes)
         then (d, bytes, mid) else best)
      else (low, mid, best)
  | None => (low, mid, best)
  end.

Lemma factor_loop_S (n : nat) (low high : Q) (best : Document * Z * Q) :
  Qlt_bool (5 # 100) (high - low) = true ->
  let settings := Pdf.get_settings_for_quality_factor ((low + high) / 2) in
  let answer := ghostscript settings in
  let next := next_state low high best answer in
  let m := floop n (fst (fst next)) (snd (fst next)) (snd next) in
  floop (S n) low high best =
  (result m,
   {| Pdf.pr_level := settings; Pdf.pr_size := option_map snd answer |}
     :: probes m).
Proof.
  intros Hwide settings answer next m.
  change (floop (S n) low high best) with
    (if Qlt_bool (5 # 100) (high - low) then
       bind
         (catch
            (bind (Pdf.compress_pdf Document ghostscript settings)
               (fun '(d, bytes) =>
                  let current_size_mb := Pdf.size_mb bytes in
                  if Qle_bool current_size_mb target_size_mb then
                    let '(_, best_bytes, _) := best in
                    let best' :=
                      if Qlt_bool (Pdf.size_mb best_bytes) current_size_mb
                      then (d, bytes, ((low + high) / 2)%Q) else best in
                    ret (((low + high) / 2)%Q, high, best')
                  else ret (low, ((low + high) / 2)%Q, best)))
            (fun _ => ret (low, ((low + high) / 2)%Q, best)))
         (fun next => let '(low', high', best') := next in floop n low' high' best')
     else ret best).
  rewrite Hwide. subst m next. unfold next_state. subst answer.
  destruct (compress_pdf_cases settings) as [(d & bytes & -> & ->) | [-> ->]].
  - rewrite bind_Return. cbv beta iota zeta.
    destruct best as [[bd bb] bq]. cbn [fst snd option_map].
    destruct (Qle_bool (Pdf.size_mb bytes) target_size_mb).
    + destruct (Qlt_bool (Pdf.size_mb bb) (Pdf.size_mb bytes));
        unfold catch; rewrite result_ret, probes_ret, bind_Return; reflexivity.
    + unfold catch. rewrite result_ret, probes_ret, bind_Return. reflexivity.
  - rewrite bind_Raise. unfold catch, ret. rewrite bind_Return. reflexivity.
Qed.

Lemma factor_loop_stop (n : nat) (low high : Q) (best : Document * Z * Q) :
  Qlt_bool (5 # 100) (high - low) = false ->
  floop n low high best = ret best.
Proof.
  intros H. destruct n; [reflexivity | ].
  change (floop (S n) low high best) with
    (if Qlt_bool (5 # 100) (high - low) then
       bind
         (catch
            (bind (Pdf.compress_pdf Document ghostscript
                     (Pdf.get_settings_for_quality_factor ((low + high) / 2)))
               (fun '(d, bytes) =>
                  let current_size_mb := Pdf.size_mb bytes in
                  if Qle_bool current_size_mb target_size_mb then
                    let '(_, best_bytes, _) := best in
                    let best' :=
                      if Qlt_bool (Pdf.size_mb best_bytes) current_size_mb
                      then (d, bytes, ((low + high) / 2)%Q) else best in
                    ret (((low + high) / 2)%Q, high, best')
                  else ret (low, ((low + high) / 2)%Q, best)))
            (fun _ => ret (low, ((low + high) / 2)%Q, best)))
         (fun next => let '(low', high', best') := next in floop n low' high' best')
     else ret best).
  now rewrite H.
Qed.

(** The probe behind a returned size. *)
Definition pdf_probed (l : list Pdf.probe) (bytes : Z) : Prop :=
  exists p, In p l /\ Pdf.pr_size p = Some bytes.

(** No fitting probe in the log is larger than [bytes]. *)
Definition pdf_largest_fitting (l : list Pdf.probe) (bytes : Z) : Prop :=
  forall p b0, In p l -> Pdf.pr_size p = Some b0 -> fits b0 ->
    (Pdf.size_mb b0 <= Pdf.size_mb bytes)%Q.

(** The loop never raises.  It returns the best it started from or a
    fitting probe of its own that is larger, and no fitting probe of the
    loop is larger than what it returns. *)
Lemma factor_loop_spec (n : nat) : forall low high best,
  exists d bytes q,
    result (floop n low high best) = Return (d, bytes, q) /\
    (Pdf.size_mb (snd (fst best)) <= Pdf.size_mb bytes)%Q /\
    ((d, bytes, q) = best \/
     (fits bytes /\ pdf_probed (probes (floop n low high best)) bytes)) /\
    pdf_largest_fitting (probes (floop n low high best)) bytes.
Proof.
  induction n as [ | n IH]; intros low high best.
  - destruct best as [[d bytes] q]. exists d, bytes, q.
    split; [reflexivity | ]. split; [apply Qle_refl | ].
    split; [now left | intros p b0 []].
  - destruct (Qlt_bool (5 # 100) (high - low)) eqn:Hwide.
    2:{ rewrite factor_loop_stop by assumption.
        destruct best as [[d bytes] q]. exists d, bytes, q.
        split; [reflexivity | ]. split; [apply Qle_refl | ].
        split; [now left | intros p b0 []]. }
    pose proof (factor_loop_S n low high best Hwide) as Hstep.
    cbv zeta in Hstep. rewrite Hstep. clear Hstep.
    rewrite result_pair, probes_pair.
    set (settings := Pdf.get_settings_for_quality_factor ((low + high) / 2)).
    unfold next_state.
    destruct (ghostscript settings) as [[d0 bytes0] | ]; cbn [option_map snd].
    + destruct (Qle_bool (Pdf.size_mb bytes0) target_size_mb) eqn:Hfit0.
      * apply Qle_bool_iff in Hfit0.
        destruct (Qlt_bool (Pdf.size_mb (snd (fst best))) (Pdf.size_mb bytes0))
          eqn:Hbetter; cbn [fst snd].
        -- apply Qlt_bool_iff in Hbetter.
           destruct (IH ((low + high) / 2)%Q high (d0, bytes0, ((low + high) / 2)%Q))
             as (d & bytes & q & Hres & Hge & Hwhich & Hmax).
           cbn [fst snd] in Hge.
           exists d, bytes, q. split; [exact Hres | ].
           split; [eapply Qle_trans; [apply Qlt_le_weak; exact Hbetter | exact Hge] | ].
           split.
           ++ right. destruct Hwhich as [Heq | [Hfit (p & Hin & Hp)]].
              ** injection Heq as -> -> ->. split; [exact Hfit0 | ].
                 eexists. split; [now left | reflexivity].
              ** split; [exact Hfit | ]. exists p. split; [now right | exact Hp].
           ++ intros p b0 [<- | Hin] Hp Hb0.
              ** simpl in Hp. injection Hp as <-. exact Hge.
              ** eapply Hmax; eassumption.
        -- apply Qlt_bool_false_iff in Hbetter.
           destruct (IH ((low + high) / 2)%Q high best)
             as (d & bytes & q & Hres & Hge & Hwhich & Hmax).
           exists d, bytes, q. split; [exact Hres | ]. split; [exact Hge | ].
           split.
           ++ destruct Hwhich as [Heq | [Hfit (p & Hin & Hp)]]; [now left | ].
              right. split; [exact Hfit | ]. exists p. split; [now right | exact Hp].
           ++ intros p b0 [<- | Hin] Hp Hb0.
              ** simpl in Hp. injection Hp as <-.
                 eapply Qle_trans; [exact Hbetter | exact Hge].
              ** eapply Hmax; eassumption.
      * assert (Hover : ~ fits bytes0).
        { intros H. apply Qle_bool_iff in H. congruence. }
        cbn [fst snd].
        destruct (IH low ((low + high) / 2)%Q best)
          as (d & bytes & q & Hres & Hge & Hwhich & Hmax).
        exists d, bytes, q. split; [exact Hres | ]. split; [exact Hge | ].
        split.
        -- destruct Hwhich as [Heq | [Hfit (p & Hin & Hp)]]; [now left | ].
           right. split; [exact Hfit | ]. exists p. split; [now right | exact Hp].
        -- intros p b0 [<- | Hin] Hp Hb0.
           ++ simpl in Hp. injection Hp as <-. contradiction.
           ++ eapply Hmax; eassumption.
    + cbn [fst snd].
      destruct (IH low ((low + high) / 2)%Q best)
        as (d & bytes & q & Hres & Hge & Hwhich & Hmax).
      exists d, bytes, q. split; [exact Hres | ]. split; [exact Hge | ].
      split.
      * destruct Hwhich as [Heq | [Hfit (p & Hin & Hp)]]; [now left | ].
        right. split; [exact Hfit | ]. exists p. split; [now right | exact Hp].
      * intros p b0 [<- | Hin] Hp Hb0; [discriminate | ].
        eapply Hmax; eassumption.
Qed.

Lemma size_mb_le (a b : Z) : a <= b -> (Pdf.size_mb a <= Pdf.size_mb b)%Q.
Proof.
  intros H. unfold Pdf.size_mb, Qdiv. apply Qmult_le_compat_r.
  - now rewrite <- Zle_Qle.
  - unfold Qle. simpl. lia.
Qed.

Local Abbreviation foc := (Pdf.find_optimal_compression Document ghostscript).
Local Abbreviation probe_of l s := {| Pdf.pr_level := l; Pdf.pr_size := s |}.
Local Abbreviation lowest := (Pdf.get_settings_for_quality_factor 0).
Local Abbreviation highest := (Pdf.get_settings_for_quality_factor 1).

(** [find_optimal_compression] by cases on what Ghostscript answers at the
    lowest and at the highest tier. *)
Lemma find_optimal_compression_unfold (input_bytes : Z) (n : nat) :
  n = Pdf.max_iterations ->
  foc input_bytes target_size_mb =
  if Qle_bool (Pdf.size_mb input_bytes) target_size_mb
  then (Return (Pdf.Input Document, Pdf.size_mb input_bytes), [])
  else
    match ghostscript lowest with
    | None => (Raise (RuntimeError "Ghostscript failed"), [probe_of lowest None])
    | Some (d0, b0) =>
        if Qlt_bool target_size_mb (Pdf.size_mb b0)
        then (Return (Pdf.Output Document d0 b0, Pdf.size_mb b0),
              [probe_of lowest (Some b0)])
        else
          match ghostscript highest with
          | None =>
              (Raise (RuntimeError "Ghostscript failed"),
               [probe_of lowest (Some b0); probe_of highest None])
          | Some (d1, b1) =>
              if Qle_bool (Pdf.size_mb b1) target_size_mb
              then (Return (Pdf.Output Document d1 b1, Pdf.size_mb b1),
                    [probe_of lowest (Some b0); probe_of highest (Some b1)])
              else
                let m := floop n 0 1 (d0, b0, 0%Q) in
                (match result m with
                 | Return (d, bytes, _) =>
                     Return (Pdf.Output Document d bytes, Pdf.size_mb bytes)
                 | Raise e => Raise e
                 end,
                 probe_of lowest (Some b0) :: probe_of highest (Some b1) :: probes m)
          end
    end.
Proof.
  intros ->. unfold Pdf.find_optimal_compression.
  destruct (Qle_bool (Pdf.size_mb input_bytes) target_size_mb); [reflexivity | ].
  destruct (compress_pdf_cases lowest) as [(d0 & b0 & -> & ->) | [-> ->]];
    [ | reflexivity].
  rewrite bind_Return. cbv beta iota zeta.
  destruct (Qlt_bool target_size_mb (Pdf.size_mb b0)); [reflexivity | ].
  destruct (compress_pdf_cases highest) as [(d1 & b1 & -> & ->) | [-> ->]];
    [ | reflexivity].
  rewrite bind_Return. cbv beta iota zeta.
  destruct (Qle_bool (Pdf.size_mb b1) target_size_mb); [reflexivity | ].
  generalize (floop Pdf.max_iterations 0 1 (d0, b0, 0%Q)).
  intros [[[[d bytes] q] | e] l]; simpl; rewrite ?app_nil_r; reflexivity.
Qed.

(** What the tier search returns when some probe fits: a fitting probe, and
    the largest fitting one when sizes grow with the tier. *)
Lemma find_optimal_compression_selects (input_bytes : Z) a mb :
  Pdf.size_monotone Document ghostscript ->
  result (foc input_bytes target_size_mb) = Return (a, mb) ->
  (exists p, In p (probes (foc input_bytes target_size_mb)) /\
             Pdf.compliant target_size_mb p = true) ->
  exists d bytes,
    a = Pdf.Output Document d bytes /\ mb = Pdf.size_mb bytes /\
    fits bytes /\
    pdf_probed (probes (foc input_bytes target_size_mb)) bytes /\
    pdf_largest_fitting (probes (foc input_bytes target_size_mb)) bytes.
Proof.
  intros Hmono.
  rewrite (find_optimal_compression_unfold input_bytes _ eq_refl).
  generalize Pdf.max_iterations. intros n.
  destruct (Qle_bool (Pdf.size_mb input_bytes) target_size_mb).
  { intros _ (p & [] & _). }
  destruct (ghostscript lowest) as [[d0 b0] | ] eqn:Elow; [ | discriminate].
  destruct (Qlt_bool target_size_mb (Pdf.size_mb b0)) eqn:Hlow.
  { intros _ (p & [<- | []] & Hp). unfold Pdf.compliant in Hp. simpl in Hp.
    apply Qle_bool_iff in Hp. apply Qlt_bool_iff in Hlow.
    exfalso. now apply (Qlt_not_le _ _ Hlow). }
  apply Qlt_bool_false_iff in Hlow.
  destruct (ghostscript highest) as [[d1 b1] | ] eqn:Ehigh; [ | discriminate].
  destruct (Qle_bool (Pdf.size_mb b1) target_size_mb) eqn:Hhigh.
  - apply Qle_bool_iff in Hhigh. intros H _. injection H as <- <-.
    exists d1, b1. split; [reflexivity | ]. split; [reflexivity | ].
    split; [exact Hhigh | ]. split.
    + eexists. split; [right; now left | reflexivity].
    + intros p b [<- | [<- | []]] Hp _; simpl in Hp; injection Hp as <-.
      * apply size_mb_le. eapply (Hmono lowest highest); [ | | | eassumption ..].
        -- now left.
        -- vm_compute. tauto.
        -- unfold Qle. simpl. lia.
      * apply Qle_refl.
  - assert (Hover : ~ fits b1).
    { intros H. apply Qle_bool_iff in H. congruence. }
    cbv zeta. rewrite result_pair, probes_pair.
    destruct (factor_loop_spec n 0 1 (d0, b0, 0%Q))
      as (d & bytes & q & Hres & Hge & Hwhich & Hmax).
    cbn [fst snd] in Hge. rewrite Hres.
    intros H _. injection H as <- <-.
    exists d, bytes. split; [reflexivity | ]. split; [reflexivity | ].
    split; [ | split].
    + destruct Hwhich as [Heq | [Hfit _]]; [ | exact Hfit].
      injection Heq as _ -> _. exact Hlow.
    + destruct Hwhich as [Heq | [_ (p & Hin & Hp)]].
      * injection Heq as _ -> _. eexists. split; [now left | reflexivity].
      * exists p. split; [right; now right | exact Hp].
    + intros p b [<- | [<- | Hin]] Hp Hb.
      * simpl in Hp. injection Hp as <-. exact Hge.
      * simpl in Hp. injection Hp as <-. contradiction.
      * eapply Hmax; eassumption.
Qed.

End PdfSearch.

Section PdfReturnedProbe.

Context {Document : Type}.
Variable ghostscript : Pdf.level -> option (Document * Z).
Variable target_size_mb : Q.

Local Abbreviation floop := (Pdf.factor_loop Document ghostscript target_size_mb).
Local Abbreviation foc := (Pdf.find_optimal_compression Document ghostscript).

(** The document [d] of [bytes] bytes is what Ghostscript gave for a probe
    of the log. *)
Definition pdf_from_probe (l : list Pdf.probe) (d : Document) (bytes : Z) : Prop :=
  exists p,
    In p l /\ Pdf.pr_size p = Some bytes /\
    ghostscript (Pdf.pr_level p) = Some (d, bytes).

(** The loop returns the best it started from or the output of one of its
    probes. *)
Lemma factor_loop_from_probe (n : nat) : forall low high best d bytes q,
  result (floop n low high best) = Return (d, bytes, q) ->
  (d, bytes, q) = best \/ pdf_from_probe (probes (floop n low high best)) d bytes.
Proof.
  induction n as [ | n IH]; intros low high best d bytes q Hres.
  - injection Hres as <-. now left.
  - destruct (Qlt_bool (5 # 100) (high - low)) eqn:Hwide.
    2:{ rewrite factor_loop_stop in Hres by assumption.
        injection Hres as <-. now left. }
    pose proof (factor_loop_S ghostscript target_size_mb n low high best Hwide)
      as Hstep.
    cbv zeta in Hstep. rewrite Hstep in Hres |- *. clear Hstep.
    rewrite result_pair in Hres. rewrite probes_pair.
    apply IH in Hres. destruct Hres as [Heq | (p & Hin & Hp)].
    2:{ right. exists p. split; [now right | exact Hp]. }
    revert Heq. unfold next_state.
    destruct (ghostscript (Pdf.get_settings_for_quality_factor ((low + high) / 2)))
      as [[d0 bytes0] | ] eqn:Egs; cbn [snd option_map].
    + destruct (Qle_bool (Pdf.size_mb bytes0) target_size_mb); cbn [snd];
        [ | now left].
      destruct (Qlt_bool _ (Pdf.size_mb bytes0)); [ | now left].
      intros Heq. injection Heq as -> -> _. right.
      eexists. split; [now left | ]. split; [reflexivity | exact Egs].
    + now left.
Qed.

(** Whenever the tier search hands back an output of Ghostscript, it is the
    document of one of its probes, reported with its size. *)
Lemma find_optimal_compression_from_probe (input_bytes : Z) d bytes mb :
  result (foc input_bytes target_size_mb)
    = Return (Pdf.Output Document d bytes, mb) ->
  mb = Pdf.size_mb bytes /\
  pdf_from_probe (probes (foc input_bytes target_size_mb)) d bytes.
Proof.
  rewrite (find_optimal_compression_unfold ghostscript target_size_mb input_bytes
             _ eq_refl).
  generalize Pdf.max_iterations. intros n.
  destruct (Qle_bool (Pdf.size_mb input_bytes) target_size_mb); [discriminate | ].
  destruct (ghostscript (Pdf.get_settings_for_quality_factor 0))
    as [[d0 b0] | ] eqn:Elow; [ | discriminate].
  destruct (Qlt_bool target_size_mb (Pdf.size_mb b0)).
  { intros H. injection H as <- <- <-. split; [reflexivity | ].
    eexists. split; [now left | ]. split; [reflexivity | exact Elow]. }
  destruct (ghostscript (Pdf.get_settings_for_quality_factor 1))
    as [[d1 b1] | ] eqn:Ehigh; [ | discriminate].
  destruct (Qle_bool (Pdf.size_mb b1) target_size_mb).
  { intros H. injection H as <- <- <-. split; [reflexivity | ].
    eexists. split; [right; now left | ]. split; [reflexivity | exact Ehigh]. }
  cbv zeta. rewrite result_pair, probes_pair.
  destruct (result (floop n 0 1 (d0, b0, 0%Q))) as [[[d2 b2] q2] | e] eqn:Eloop;
    [ | discriminate].
  intros H. injection H as <- <- <-. split; [reflexivity | ].
  apply factor_loop_from_probe in Eloop. destruct Eloop as [Heq | (p & Hin & Hp)].
  - injection Heq as -> -> _.
    eexists. split; [now left | ]. split; [reflexivity | exact Elow].
  - exists p. split; [right; now right | exact Hp].
Qed.

End PdfReturnedProbe.

Section PdfOutcome.

Context {Document : Type}.
Variable ghostscript : Pdf.level -> option (Document * Z).

Lemma get_file_size_kb_pos (bytes : Z) :
  0 < bytes -> (0 < Pdf.get_file_size_kb bytes)%Q.
Proof.
  intros H. unfold Pdf.get_file_size_kb, py_truediv. apply round_double_pos.
  apply Qlt_shift_div_l; [reflexivity | ].
  rewrite Qmult_0_l. now apply inject_Z_pos.
Qed.

Lemma get_file_size_kb_nonzero (bytes : Z) :
  0 < bytes -> Qeq_bool (Pdf.get_file_size_kb bytes) 0 = false.
Proof.
  intros H. destruct (Qeq_bool _ 0) eqn:E; [ | reflexivity].
  apply Qeq_bool_iff in E. pose proof (get_file_size_kb_pos bytes H) as Hpos.
  rewrite E in Hpos. discriminate.
Qed.

Lemma size_mb_within (input_bytes target_size_kb : Z) :
  input_bytes <= target_size_kb * 1024 ->
  Qle_bool (Pdf.size_mb input_bytes) (inject_Z target_size_kb / 1024) = true.
Proof.
  intros Hsmall. apply Qle_bool_iff.
  unfold Pdf.size_mb, Qle, Qdiv, Qmult, Qinv, inject_Z. simpl. lia.
Qed.


End PdfOutcome.

(** ** The video bitrate converger *)

Arguments Video.adjust_loop : simpl never.

Section VideoFacts.

Context {Clip : Type}.
Variable ffmpeg :
  Q -> Z -> option Z -> option Z -> option string -> option (Clip * Z).

Local Abbreviation run := (Video.run_ffmpeg_compression Clip ffmpeg).
Local Abbreviation aloop := (Video.adjust_loop Clip ffmpeg).
Local Abbreviation cvt := (Video.compress_video_to_target Clip ffmpeg).
Local Abbreviation bounded :=
  (fun p : Video.probe =>
     (Video.min_bitrate <= Video.pr_bitrate p)%Q /\
     (Video.pr_bitrate p <= Video.max_bitrate)%Q).

Lemma clamp_bitrate_bounds (video_bitrate : Q) :
  (Video.min_bitrate <= Video.clamp_bitrate video_bitrate)%Q /\
  (Video.clamp_bitrate video_bitrate <= Video.max_bitrate)%Q.
Proof.
  unfold Video.clamp_bitrate. split; [apply py_max_spec | ].
  destruct (py_max_cases Video.min_bitrate
              (py_min video_bitrate Video.max_bitrate)) as [-> | ->].
  - unfold Video.min_bitrate, Video.max_bitrate, Qle. simpl. lia.
  - apply py_min_spec.
Qed.

Lemma adjust_bitrate_bounds (max_bytes : Q) (final_size : Z) (video_bitrate : Q) :
  (Video.min_bitrate <= Video.adjust_bitrate max_bytes final_size video_bitrate)%Q /\
  (Video.adjust_bitrate max_bytes final_size video_bitrate <= Video.max_bitrate)%Q.
Proof. unfold Video.adjust_bitrate. apply clamp_bitrate_bounds. Qed.

Lemma run_cases (video_bitrate : Q) (audio_bitrate : Z) (width height : option Z)
  (format : option string) :
  let probe_of s :=
    {| Video.pr_bitrate := video_bitrate; Video.pr_width := width;
       Video.pr_height := height; Video.pr_size := s |} in
  (exists c size,
     ffmpeg video_bitrate audio_bitrate width height format = Some (c, size) /\
     run video_bitrate audio_bitrate width height format =
       (Return (c, size), [probe_of (Some size)])) \/
  (ffmpeg video_bitrate audio_bitrate width height format = None /\
   run video_bitrate audio_bitrate width height format =
     (Raise (RuntimeError "Video compression failed"), [probe_of None])).
Proof.
  intros probe_of. unfold Video.run_ffmpeg_compression.
  destruct (ffmpeg video_bitrate audio_bitrate width height format) as [[c size] | ].
  - left. now exists c, size.
  - now right.
Qed.

Lemma aloop_S (info : Video.video_info) (audio_bitrate : Z) (min_bytes max_bytes : Q)
  (n : nat) (current : Clip * Z) (video_bitrate : Q) :
  aloop info audio_bitrate min_bytes max_bytes (S n) current video_bitrate =
  if negb (Video.in_band min_bytes max_bytes (snd current)) then
    bind (run (Video.adjust_bitrate max_bytes (snd current) video_bitrate)
            audio_bitrate (Some (Video.width info)) (Some (Video.height info))
            (Some (Video.format info)))
      (fun current' =>
         aloop info audio_bitrate min_bytes max_bytes n current'
           (Video.adjust_bitrate max_bytes (snd current) video_bitrate))
  else ret (current, video_bitrate).
Proof. destruct current as [c size]. reflexivity. Qed.

(** Every run of the loop is made with a clamped bitrate and with the
    width and height ffprobe reported for the input. *)
Lemma aloop_probes (info : Video.video_info) (audio_bitrate : Z)
  (min_bytes max_bytes : Q) (n : nat) : forall current video_bitrate,
  Forall (fun p => bounded p /\
                   Video.pr_width p = Some (Video.width info) /\
                   Video.pr_height p = Some (Video.height info))
    (probes (aloop info audio_bitrate min_bytes max_bytes n current video_bitrate)).
Proof.
  induction n as [ | n IH]; intros current video_bitrate; [constructor | ].
  rewrite aloop_S. destruct (negb _); [ | constructor].
  apply Forall_probes_bind; [ | intros current' _; apply IH].
  destruct (run_cases (Video.adjust_bitrate max_bytes (snd current) video_bitrate)
              audio_bitrate (Some (Video.width info)) (Some (Video.height info))
              (Some (Video.format info)))
    as [(c & size & _ & ->) | [_ ->]];
    (constructor; [ | constructor]); simpl;
    (split; [apply adjust_bitrate_bounds | split; reflexivity]).
Qed.

(** The loop leaves normally only with a size inside the band or after
    as many runs as it was allowed. *)
Lemma aloop_exit (info : Video.video_info) (audio_bitrate : Z)
  (min_bytes max_bytes : Q) (n : nat) : forall current video_bitrate c size br,
  result (aloop info audio_bitrate min_bytes max_bytes n current video_bitrate)
    = Return (c, size, br) ->
  Video.in_band min_bytes max_bytes size = true \/
  List.length
    (probes (aloop info audio_bitrate min_bytes max_bytes n current video_bitrate))
    = n.
Proof.
  induction n as [ | n IH]; intros current video_bitrate c size br Hres;
    [now right | ].
  rewrite aloop_S in Hres |- *.
  destruct (Video.in_band min_bytes max_bytes (snd current)) eqn:Hband;
    cbn [negb] in Hres |- *.
  - injection Hres as -> ->. left. exact Hband.
  - rewrite result_bind in Hres. rewrite probes_bind.
    destruct (run_cases (Video.adjust_bitrate max_bytes (snd current) video_bitrate)
                audio_bitrate (Some (Video.width info)) (Some (Video.height info))
                (Some (Video.format info)))
      as [(c' & size' & _ & E) | [_ E]]; rewrite E in Hres |- *;
      rewrite result_pair in Hres |- *; rewrite probes_pair; [ | discriminate].
    destruct (IH _ _ _ _ _ Hres) as [Hin | Hlen]; [now left | right].
    simpl. now rewrite Hlen.
Qed.

(** The bitrate the loop ends with is a clamped one when it started with
    one. *)
Lemma aloop_bitrate (info : Video.video_info) (audio_bitrate : Z)
  (min_bytes max_bytes : Q) (n : nat) : forall current video_bitrate c size br,
  (Video.min_bitrate <= video_bitrate)%Q /\ (video_bitrate <= Video.max_bitrate)%Q ->
  result (aloop info audio_bitrate min_bytes max_bytes n current video_bitrate)
    = Return (c, size, br) ->
  (Video.min_bitrate <= br)%Q /\ (br <= Video.max_bitrate)%Q.
Proof.
  induction n as [ | n IH]; intros current video_bitrate c size br Hb Hres.
  - injection Hres as _ <-. exact Hb.
  - rewrite aloop_S in Hres. destruct (negb _).
    + rewrite result_bind in Hres.
      destruct (result (run _ _ _ _ _)) as [current' | e]; [ | discriminate].
      eapply IH; [ | exact Hres]. apply adjust_bitrate_bounds.
    + injection Hres as _ <-. exact Hb.
Qed.

Lemma run_probes_Forall (P : Video.probe -> Prop) (video_bitrate : Q)
  (audio_bitrate : Z) (width height : option Z) (format : option string) :
  (forall s, P {| Video.pr_bitrate := video_bitrate; Video.pr_width := width;
                  Video.pr_height := height; Video.pr_size := s |}) ->
  Forall P (probes (run video_bitrate audio_bitrate width height format)).
Proof.
  intros HP.
  destruct (run_cases video_bitrate audio_bitrate width height format)
    as [(c & size & _ & ->) | [_ ->]]; repeat constructor; apply HP.
Qed.

Lemma cvt_probes_bounded (input : Video.source) (max_size_mb : Q) :
  Forall bounded (probes (cvt input max_size_mb)).
Proof.
  unfold Video.compress_video_to_target.
  destruct (Video.src_info input) as [info | ]; [ | constructor].
  destruct (Qle_bool (Video.duration info) 0); [constructor | ]. cbv zeta.
  apply Forall_probes_bind.
  { apply run_probes_Forall. intros s. apply clamp_bitrate_bounds. }
  intros current _. apply Forall_probes_bind.
  { destruct (Qlt_bool _ _); [ | constructor].
    apply run_probes_Forall. intros s. apply clamp_bitrate_bounds. }
  intros current' _. apply Forall_probes_bind.
  { eapply Forall_impl; [ | apply aloop_probes]. intros p Hp. apply Hp. }
  intros [current'' br] _. apply Forall_probes_bind.
  { destruct (Qlt_bool _ _); [ | constructor].
    apply run_probes_Forall. intros s. apply clamp_bitrate_bounds. }
  intros [c size] _. constructor.
Qed.

(** C9. Clamping puts every bitrate between 100 kbps and 4 Mbps; every
    ffmpeg run of [compress_video_to_target], from the initial estimate to
    the last, uses such a bitrate; and the adjustment loop leaves normally
    only with a size inside the band or after its 4 attempts. *)
Theorem bitrate_clamped_and_loop_exit (input : Video.source) (max_size_mb : Q) :
  (forall video_bitrate,
     (Video.min_bitrate <= Video.clamp_bitrate video_bitrate)%Q /\
     (Video.clamp_bitrate video_bitrate <= Video.max_bitrate)%Q) /\
  (Video.min_bitrate == 100000)%Q /\ (Video.max_bitrate == 4000000)%Q /\
  Forall bounded (probes (cvt input max_size_mb)) /\
  (forall info audio_bitrate min_bytes max_bytes current video_bitrate c size br,
     result (aloop info audio_bitrate min_bytes max_bytes Video.max_attempts
               current video_bitrate) = Return (c, size, br) ->
     Video.in_band min_bytes max_bytes size = true \/
     List.length
       (probes (aloop info audio_bitrate min_bytes max_bytes Video.max_attempts
                  current video_bitrate)) = 4%nat).
Proof.
  split; [apply clamp_bitrate_bounds | ].
  split; [reflexivity | ]. split; [reflexivity | ].
  split; [apply cvt_probes_bounded | ].
  intros info audio_bitrate min_bytes max_bytes current video_bitrate c size br.
  apply aloop_exit.
Qed.

(** The file at the output path is the one of the latest run: what ffmpeg
    wrote for the arguments of the last probe. *)
Definition latest (audio_bitrate : Z) (format : option string)
  (l : list Video.probe) (current : Clip * Z) : Prop :=
  exists earlier p,
    l = earlier ++ [p] /\ Video.pr_size p = Some (snd current) /\
    ffmpeg (Video.pr_bitrate p) audio_bitrate (Video.pr_width p) (Video.pr_height p)
      format = Some current.

Lemma latest_app (audio_bitrate : Z) (format : option string)
  (l l' : list Video.probe) (current : Clip * Z) :
  latest audio_bitrate format l' current ->
  latest audio_bitrate format (l ++ l') current.
Proof.
  intros (earlier & p & -> & Hp). exists (l ++ earlier), p.
  now rewrite app_assoc.
Qed.

Lemma run_latest (video_bitrate : Q) (audio_bitrate : Z) (width height : option Z)
  (format : option string) (current : Clip * Z) :
  result (run video_bitrate audio_bitrate width height format) = Return current ->
  latest audio_bitrate format
    (probes (run video_bitrate audio_bitrate width height format)) current.
Proof.
  destruct (run_cases video_bitrate audio_bitrate width height format)
    as [(c & size & Hrun & ->) | [_ ->]]; [ | discriminate].
  intros H. injection H as <-. eexists [], _.
  split; [reflexivity | ]. split; [reflexivity | exact Hrun].
Qed.

Lemma aloop_latest (info : Video.video_info) (audio_bitrate : Z)
  (min_bytes max_bytes : Q) (n : nat) : forall l current video_bitrate current' br,
  latest audio_bitrate (Some (Video.format info)) l current ->
  result (aloop info audio_bitrate min_bytes max_bytes n current video_bitrate)
    = Return (current', br) ->
  latest audio_bitrate (Some (Video.format info))
    (l ++ probes (aloop info audio_bitrate min_bytes max_bytes n current video_bitrate))
    current'.
Proof.
  induction n as [ | n IH]; intros l current video_bitrate current' br Hl Hres.
  - injection Hres as <- _.
    change (aloop info audio_bitrate min_bytes max_bytes 0 current video_bitrate)
      with (@ret Video.probe _ (current, video_bitrate)).
    now rewrite probes_ret, app_nil_r.
  - rewrite aloop_S in Hres |- *. destruct (negb _).
    + rewrite result_bind in Hres. rewrite probes_bind.
      destruct (result (run _ _ _ _ _)) as [current1 | e] eqn:Erun;
        [ | discriminate].
      rewrite app_assoc. eapply IH; [ | exact Hres].
      apply latest_app. now apply run_latest.
    + injection Hres as <- _. now rewrite probes_ret, app_nil_r.
Qed.

(** What [compress_video_to_target] returns is the output of the last
    ffmpeg run it made, whatever the earlier runs gave. *)
Lemma cvt_returns_latest (input : Video.source) (max_size_mb : Q) a mb :
  result (cvt input max_size_mb) = Return (a, mb) ->
  exists info c size earlier p,
    Video.src_info input = Some info /\
    a = Video.Transcoded Clip c /\
    probes (cvt input max_size_mb) = earlier ++ [p] /\
    Video.pr_size p = Some size /\
    ffmpeg (Video.pr_bitrate p) 128000 (Video.pr_width p) (Video.pr_height p)
      (Some (Video.format info)) = Some (c, size) /\
    mb = py_round2 (py_truediv size (1024 * 1024)).
Proof.
  unfold Video.compress_video_to_target.
  destruct (Video.src_info input) as [info | ]; [ | discriminate].
  destruct (Qle_bool (Video.duration info) 0); [discriminate | ]. cbv zeta.
  rewrite result_bind, probes_bind.
  destruct (result (run _ _ None None _)) as [current0 | e] eqn:E0; [ | discriminate].
  apply run_latest in E0. revert E0.
  generalize (probes (run
    (Video.clamp_bitrate
       ((max_size_mb - Video.BUFFER_AVG) * 1024 * 1024 * 8 / Video.duration info
        - inject_Z 128000)) 128000 None None (Some (Video.format info)))).
  intros l0 H0.
  rewrite result_bind, probes_bind.
  match goal with
  | |- context [result ?m] =>
      assert (H1 : forall current1, result m = Return current1 ->
                latest 128000 (Some (Video.format info)) (l0 ++ probes m) current1)
  end.
  { destruct (Qlt_bool _ _).
    - intros current1 E1. apply latest_app. now apply run_latest.
    - intros current1 E1. injection E1 as <-. now rewrite probes_ret, app_nil_r. }
  match goal with
  | |- context [result ?m] => destruct (result m) as [current1 | e] eqn:E1;
      [ | discriminate]; specialize (H1 current1 eq_refl); revert H1;
      generalize (probes m)
  end.
  intros l1 H1. clear E1 H0.
  rewrite result_bind, probes_bind.
  match goal with
  | |- context [result ?m] =>
      destruct (result m) as [[current2 br] | e] eqn:E2; [ | discriminate];
      pose proof (aloop_latest _ _ _ _ _ _ _ _ _ _ H1 E2) as H2; revert H2;
      generalize (probes m)
  end.
  intros l2 H2. clear E2 H1.
  rewrite result_bind, probes_bind.
  match goal with
  | |- context [result ?m] =>
      assert (H3 : forall current3, result m = Return current3 ->
                latest 128000 (Some (Video.format info))
                  ((l0 ++ l1) ++ l2 ++ probes m) current3)
  end.
  { destruct (Qlt_bool _ _).
    - intros current3 E3. rewrite app_assoc. apply latest_app. now apply run_latest.
    - intros current3 E3. injection E3 as <-.
      now rewrite probes_ret, app_nil_r. }
  match goal with
  | |- context [result ?m] => destruct (result m) as [[c size] | e] eqn:E3;
      [ | discriminate]; specialize (H3 (c, size) eq_refl); revert H3;
      generalize (probes m)
  end.
  intros l3 H3 H. rewrite result_ret in H. injection H as <- <-.
  destruct H3 as (earlier & p & Heq & Hp & Hrun).
  exists info, c, size, earlier, p. split; [reflexivity | ].
  split; [reflexivity | ].
  split; [ | split; [exact Hp | split; [exact Hrun | reflexivity]]].
  rewrite probes_ret, app_nil_r. rewrite <- Heq. now rewrite !app_assoc.
Qed.

End VideoFacts.

(** ** Which probe each search returns *)

(** C1, as the code has it.  The image quality search returns the buffer
    of one of its probes, fitting the target, and the largest fitting one
    when sizes grow with the quality.  Inside its loop a fitting midpoint
    replaces the best whatever the size of the best; its fine-tuning pass
    encodes at most 4 qualities, all within 4 above the best and at most
    [max_quality], and replaces the best only by a fitting probe of
    strictly larger size.  [compress_image] (quality search, resize ladder,
    last resort) returns the buffer of one of its probes, fitting as soon as
    some probe fitted and then the largest fitting one when sizes grow with
    the quality.  The PDF tier search returns the document of one of its
    probes whenever it returns an output of Ghostscript, and the largest
    fitting probe when some probe fits and sizes grow with the tier.  The
    video converger returns the output of its last run. *)
Theorem searches_return_largest_fitting_probe :
  (forall (Buffer : Type) encode image format target_size min_quality max_quality
          width height tolerance_pct b s q,
     let m := Image.binary_search_quality Buffer encode image format target_size
                min_quality max_quality width height tolerance_pct in
     result m = Return (Some (b, s, q)) ->
     s <= target_size /\ from_probe encode image (probes m) b s q /\
     (Image.size_monotone Buffer encode image format width height ->
      largest_fitting target_size (probes m) s)) /\
  (forall (Buffer : Type) encode image format target_size width height
          tolerance_pct n low high best b s,
     let mid := (low + high) / 2 in
     let probe := {| Image.pr_format := format; Image.pr_quality := mid;
                     Image.pr_width := width; Image.pr_height := height;
                     Image.pr_size := Some s |} in
     low <= high ->
     encode image format mid width height = Some (b, s) ->
     s <= target_size ->
     Image.search_loop Buffer encode image format target_size width height
       tolerance_pct (S n) low high best =
     if Image.within_tolerance target_size s
          (Image.tolerance_bytes target_size tolerance_pct)
     then (Return (b, s, mid), [probe])
     else
       let rest := Image.search_loop Buffer encode image format target_size
                     width height tolerance_pct n (mid + 1) high (b, s, mid) in
       (result rest, probe :: probes rest)) /\
  (forall (Buffer : Type) encode image format target_size max_quality
          width height best_quality best,
     let m := Image.fine_tune Buffer encode image format target_size width height
                (Image.fine_tune_range max_quality best_quality) best in
     (List.length (probes m) <= 4)%nat /\
     (forall p, In p (probes m) ->
        best_quality < Image.pr_quality p <= best_quality + 4 /\
        Image.pr_quality p <= max_quality) /\
     (forall b' s' q', result m = Return (b', s', q') ->
        (b', s', q') = best \/
        (s' <= target_size /\ snd (fst best) < s' /\
         from_probe encode image (probes m) b' s' q'))) /\
  (forall (Buffer : Type) encode base_name_of file max_size_kb image a name info,
     let m := Image.compress_image Buffer encode base_name_of file max_size_kb in
     Image.file_image file = Some image ->
     max_size_kb * 1024 < Image.file_bytes file ->
     result m = Return (a, name, info) ->
     exists b s,
       a = Image.Compressed Buffer b /\
       Image.actual_size_bytes info = Some s /\
       from_probe encode image (probes m) b s (Image.quality info) /\
       ((exists p, In p (probes m) /\
                   Image.compliant (max_size_kb * 1024) p = true) ->
        s <= max_size_kb * 1024 /\ Image.success info = Some true) /\
       ((forall width height,
           Image.size_monotone Buffer encode image
             (Image.format_for_compression_of image (Image.file_bytes file)
                (max_size_kb * 1024)) width height) ->
        largest_fitting (max_size_kb * 1024) (probes m) s)) /\
  (forall (Document : Type) ghostscript target_size_mb input_bytes a mb,
     let m := Pdf.find_optimal_compression Document ghostscript input_bytes
                target_size_mb in
     result m = Return (a, mb) ->
     (forall d bytes,
        a = Pdf.Output Document d bytes ->
        mb = Pdf.size_mb bytes /\ pdf_from_probe ghostscript (probes m) d bytes) /\
     (Pdf.size_monotone Document ghostscript ->
      (exists p, In p (probes m) /\ Pdf.compliant target_size_mb p = true) ->
      exists d bytes,
        a = Pdf.Output Document d bytes /\
        (Pdf.size_mb bytes <= target_size_mb)%Q /\
        pdf_largest_fitting target_size_mb (probes m) bytes)) /\
  (forall (Clip : Type) ffmpeg input max_size_mb a mb,
     let m := Video.compress_video_to_target Clip ffmpeg input max_size_mb in
     result m = Return (a, mb) ->
     exists info c size earlier p,
       Video.src_info input = Some info /\
       a = Video.Transcoded Clip c /\
       probes m = earlier ++ [p] /\
       Video.pr_size p = Some size /\
       ffmpeg (Video.pr_bitrate p) 128000 (Video.pr_width p) (Video.pr_height p)
         (Some (Video.format info)) = Some (c, size) /\
       mb = py_round2 (py_truediv size (1024 * 1024))).
Proof.
  split; [ | split; [ | split; [ | split; [ | split]]]].
  - intros Buffer encode image format target_size min_quality max_quality
      width height tolerance_pct b s q m Hres.
    destruct (bsq_selects_probed encode image format target_size min_quality
                max_quality width height tolerance_pct _ Hres)
      as (Hfit & _ & Hmax).
    split; [exact Hfit | ]. split; [ | exact Hmax].
    now apply bsq_from_probe.
  - intros Buffer encode image format target_size width height tolerance_pct
      n low high best b s mid probe Hle Henc Hfit.
    rewrite loop_S. apply Z.leb_le in Hle. rewrite Hle.
    fold mid. unfold Image.compress_with_settings. rewrite Henc.
    rewrite bind_Return. cbv beta iota.
    apply Z.leb_le in Hfit. rewrite Hfit.
    destruct (Image.within_tolerance _ _ _); reflexivity.
  - intros Buffer encode image format target_size max_quality width height
      best_quality best m. split; [ | split].
    + etransitivity; [apply tune_probes_length | apply fine_tune_range_length].
    + intros p Hin. apply tune_probes_In in Hin.
      now apply fine_tune_range_In in Hin.
    + intros b' s' q' Hres. pose proof (tune_from_probe _ _ _ _ _ _ _ _ _ _ _ Hres)
        as Hfrom.
      apply tune_spec in Hres.
      destruct Hres as (_ & [Heq | (Hfit & Hgt & Hin)] & _); [now left | right].
      split; [exact Hfit | ]. split; [exact Hgt | ].
      destruct Hfrom as [Heq | Hfrom]; [ | exact Hfrom].
      exfalso. rewrite <- Heq in Hgt. cbn [fst snd] in Hgt. lia.
  - intros Buffer encode base_name_of file max_size_kb image a name info m
      Himg Hbig Hres.
    destruct (compress_image_from_probe encode base_name_of file max_size_kb image
                a name info Himg Hbig Hres) as (b & s & Ha & Hs & Hfrom).
    destruct (compress_image_selects encode base_name_of file max_size_kb image
                a name info Himg Hbig Hres) as (s' & Hs' & _ & Hfit & Hmax).
    assert (s' = s) by congruence. subst s'.
    exists b, s. repeat split; assumption || (apply Hfit; assumption).
  - intros Document ghostscript target_size_mb input_bytes a mb m Hres. split.
    + intros d bytes ->.
      exact (find_optimal_compression_from_probe ghostscript target_size_mb
               input_bytes d bytes mb Hres).
    + intros Hmono Hsome.
      destruct (find_optimal_compression_selects ghostscript target_size_mb
                  input_bytes a mb Hmono Hres Hsome)
        as (d & bytes & Ha & _ & Hfit & _ & Hmax).
      now exists d, bytes.
  - intros Clip ffmpeg input max_size_mb a mb m. apply cvt_returns_latest.
Qed.


(** ** The properties on concrete inputs *)

Section Concrete.

Import Examples.

Local Abbreviation jpeg_search encode target :=
  (Image.binary_search_quality Z encode png_image "JPEG" target 1 95 None None 1).

Lemma encode_linear_monotone (format : string) (width height : option Z) :
  Image.size_monotone Z encode_linear png_image format width height.
Proof.
  intros q q' b s b' s' Hle E E'. unfold encode_linear in E, E'.
  assert (Hs : 10 * q = s) by congruence.
  assert (Hs' : 10 * q' = s') by congruence.
  lia.
Defined.

Lemma ghostscript_by_dpi_monotone :
  Pdf.size_monotone Pdf.level ghostscript_by_dpi.
Proof.
  intros l l' d s d' s' Hin Hin' Hle E E'. unfold ghostscript_by_dpi in E, E'.
  assert (Hs : Pdf.dpi l * 100000 = s) by congruence.
  assert (Hs' : Pdf.dpi l' * 100000 = s') by congruence.
  subst s s'. clear E E'. unfold Qle in Hle.
  unfold Pdf.CUSTOM_QUALITY_LEVELS, Pdf.lowest_level in Hin, Hin'.
  simpl in Hin, Hin'.
  repeat (destruct Hin as [<- | Hin]; [ | try contradiction]);
    repeat (destruct Hin' as [<- | Hin']; [ | try contradiction]);
    simpl in Hle |- *; lia.
Defined.

(** C1, counterexample.  With a 30 MB limit the video converger returns a
    40 MB file, though its second run gave a 10 MB file.  On an encoder
    whose sizes are not monotone the quality search returns 50 bytes for a
    100-byte target, though its probe at quality 1 gave 90 bytes.  With a
    20 MB target and a Ghostscript that writes 15 MB at the lowest tier and
    10 MB at the highest, the PDF search returns the 10 MB document without
    comparing the two. *)
Lemma returned_probe_not_largest_fitting :
  (let m := Video.compress_video_to_target unit ffmpeg_by_width clip_source 30 in
   exists mb p,
     result m = Return (Video.Transcoded unit tt, mb) /\ (mb == 40)%Q /\
     last (probes m) p = p /\ Video.pr_size p = Some (40 * 1024 * 1024) /\
     In {| Video.pr_bitrate := 4000000; Video.pr_width := Some 1536;
           Video.pr_height := Some 864; Video.pr_size := Some (10 * 1024 * 1024) |}
        (probes m)) /\
  (let m := jpeg_search encode_bumpy 100 in
   result m = Return (Some (48, 50, 48)) /\
   In {| Image.pr_format := "JPEG"; Image.pr_quality := 1; Image.pr_width := None;
         Image.pr_height := None; Image.pr_size := Some 90 |} (probes m) /\
   50 < 90 <= 100) /\
  (let m := Pdf.find_optimal_compression Pdf.level ghostscript_uneven 100000000 20 in
   m = (Return (Pdf.Output Pdf.level highest_level (10 * 1024 * 1024),
                Pdf.size_mb (10 * 1024 * 1024)),
        [ {| Pdf.pr_level := Pdf.lowest_level;
             Pdf.pr_size := Some (15 * 1024 * 1024) |};
          {| Pdf.pr_level := highest_level;
             Pdf.pr_size := Some (10 * 1024 * 1024) |} ]) /\
   (Pdf.size_mb (10 * 1024 * 1024) < Pdf.size_mb (15 * 1024 * 1024))%Q /\
   (Pdf.size_mb (15 * 1024 * 1024) <= 20)%Q).
Proof.
  split; [ | split].
  - eexists. eexists. split; [vm_compute; reflexivity | ].
    split; [reflexivity | ]. split; [vm_compute; reflexivity | ].
    split; [reflexivity | ]. vm_compute. tauto.
  - split; [vm_compute; reflexivity | ]. split; [vm_compute; tauto | lia].
  - split; [vm_compute; reflexivity | ]. split; [reflexivity | discriminate].
Qed.

Lemma searches_return_largest_fitting_probe_witness :
  (let m := jpeg_search encode_linear 500 in
   500 <= 500 /\ from_probe encode_linear png_image (probes m) 50 500 50 /\
   largest_fitting 500 (probes m) 500) /\
  (let m := Pdf.find_optimal_compression Pdf.level ghostscript_by_dpi 100000000 20 in
   pdf_from_probe ghostscript_by_dpi (probes m)
     (Pdf.get_settings_for_quality_factor (1 # 2)) 20000000 /\
   exists d bytes,
     Return (Pdf.Output Pdf.level (Pdf.get_settings_for_quality_factor (1 # 2)) 20000000,
             Pdf.size_mb 20000000) =
       Return (Pdf.Output Pdf.level d bytes, Pdf.size_mb bytes) /\
     pdf_largest_fitting 20 (probes m) bytes).
Proof.
  destruct searches_return_largest_fitting_probe as (Himage & _ & _ & _ & Hpdf & _).
  split.
  - destruct (Himage Z encode_linear png_image "JPEG"%string 500 1 95 None None 1%Q
                50 500 50 eq_refl) as (Hfit & Hprobed & Hmax).
    split; [exact Hfit | ]. split; [exact Hprobed | ].
    apply Hmax, encode_linear_monotone.
  - destruct (Hpdf Pdf.level ghostscript_by_dpi 20%Q 100000000
                (Pdf.Output Pdf.level (Pdf.get_settings_for_quality_factor (1 # 2))
                   20000000)
                (Pdf.size_mb 20000000) eq_refl) as [Hfrom Hlargest].
    split; [exact (proj2 (Hfrom _ _ eq_refl)) | ].
    destruct (Hlargest ghostscript_by_dpi_monotone) as (d & bytes & Ha & _ & Hmax).
    + eexists. split; [left; reflexivity | reflexivity].
    + exists d, bytes. split; [ | exact Hmax].
      injection Ha as <- <-. reflexivity.
Defined.

Lemma binary_search_quality_boundary_probes_witness :
  jpeg_search encode_huge 5120 =
  (Return None,
   [ {| Image.pr_format := "JPEG"; Image.pr_quality := 95; Image.pr_width := None;
        Image.pr_height := None; Image.pr_size := Some 1000000 |};
     {| Image.pr_format := "JPEG"; Image.pr_quality := 1; Image.pr_width := None;
        Image.pr_height := None; Image.pr_size := Some 1000000 |} ]).
Proof.
  destruct (binary_search_quality_boundary_probes encode_huge png_image
              "JPEG"%string 5120 1 95 None None 1 95 1000000 eq_refl)
    as (_ & _ & H).
  assert (Hover : 5120 < 1000000) by lia.
  destruct (H Hover) as [_ H2].
  exact (H2 1 1000000 eq_refl Hover).
Defined.



(** C4, the failing input.  The first run (40 MB) exceeds the band, the
    second is made at the same bitrate scaled to 1536x864 and gives 10 MB,
    below the band; the runs of the adjustment loop and the final run are
    then made at 1920x1080 again, not at the reduced resolution. *)
Theorem adjustment_runs_use_original_resolution :
  let m := Video.compress_video_to_target unit ffmpeg_by_width clip_source 30 in
  map (fun p => (Video.pr_width p, Video.pr_height p, Video.pr_size p)) (probes m) =
    [ (None, None, Some 41943040);
      (Some 1536, Some 864, Some 10485760);
      (Some 1920, Some 1080, Some 41943040);
      (Some 1920, Some 1080, Some 41943040);
      (Some 1920, Some 1080, Some 41943040);
      (Some 1920, Some 1080, Some 41943040);
      (Some 1920, Some 1080, Some 41943040) ] /\
  map Video.pr_bitrate (firstn 2 (probes m)) = [4000000%Q; 4000000%Q].
Proof. split; vm_compute; reflexivity. Qed.

(** C5, counterexample.  The quality search encodes quality 1 twice (at
    the bound and as a midpoint), and the PDF search runs Ghostscript twice
    with the same tier. *)
Lemma probe_repeated_within_one_search :
  ~ NoDup (probes (jpeg_search encode_step 100)) /\
  ~ NoDup (probes (Pdf.find_optimal_compression Pdf.level ghostscript_by_dpi
                     100000000 20)).
Proof.
  split; intros H.
  - apply (proj1 (NoDup_nth_error _)) with (i := 1%nat) (j := 7%nat) in H;
      [discriminate | vm_compute; lia | vm_compute; reflexivity].
  - apply (proj1 (NoDup_nth_error _)) with (i := 5%nat) (j := 6%nat) in H;
      [discriminate | vm_compute; lia | vm_compute; reflexivity].
Qed.

Lemma binary_search_quality_probe_budget_witness :
  95 - 1 + 1 < 2 ^ 18 /\
  (List.length (probes (jpeg_search encode_step 100)) <= 20 + 4)%nat.
Proof.
  assert (Hrange : 95 - 1 + 1 < 2 ^ 18) by (vm_compute; reflexivity).
  split; [exact Hrange | ].
  destruct (binary_search_quality_probe_budget encode_step png_image
              "JPEG"%string 100 1 95 None None 1 Hrange)
    as (boundary & main & refine & E & _ & _ & Hsearch & Hrefine & _).
  rewrite E, !length_app. lia.
Defined.



Lemma tier_lookup_first_at_least_witness :
  (Pdf.dpi (Pdf.get_settings_for_quality_factor (55 # 100)) = 225 /\
   (55 # 100 <= Pdf.quality_factor (Pdf.get_settings_for_quality_factor (55 # 100)))%Q) /\
  Pdf.get_settings_for_quality_factor (3 # 2) = highest_level.
Proof.
  split.
  - destruct (tier_lookup_first_at_least (55 # 100)) as (_ & _ & Hfirst & _).
    assert (Hle : (55 # 100 <= 1)%Q) by (unfold Qle; simpl; lia).
    destruct (Hfirst Hle) as (before & after & _ & Hge & _).
    split; [reflexivity | exact Hge].
  - destruct (tier_lookup_first_at_least (3 # 2)) as (_ & _ & _ & Hlast).
    assert (Hgt : (1 < 3 # 2)%Q) by (unfold Qlt; simpl; lia).
    exact (proj1 (Hlast Hgt)).
Defined.

Lemma bitrate_clamped_and_loop_exit_witness :
  Forall (fun p => (Video.min_bitrate <= Video.pr_bitrate p)%Q /\
                   (Video.pr_bitrate p <= Video.max_bitrate)%Q)
    (probes (Video.compress_video_to_target unit ffmpeg_by_width clip_source 30)) /\
  (Video.in_band (28 * 1024 * 1024) (29 * 1024 * 1024) 41943040 = true \/
   List.length
     (probes (Video.adjust_loop unit ffmpeg_by_width
                {| Video.duration := 10; Video.width := 1920; Video.height := 1080;
                   Video.format := "mp4" |}
                128000 (28 * 1024 * 1024) (29 * 1024 * 1024) Video.max_attempts
                (tt, 10485760) 4000000)) = 4%nat).
Proof.
  destruct (bitrate_clamped_and_loop_exit ffmpeg_by_width clip_source 30)
    as (_ & _ & _ & Hbounded & Hexit).
  split; [exact Hbounded | ].
  eapply (Hexit _ 128000 (28 * 1024 * 1024)%Q (29 * 1024 * 1024)%Q
            (tt, 10485760) 4000000%Q tt 41943040).
  vm_compute. reflexivity.
Defined.

Lemma png_rgba_reencoded_as_webp_witness :
  Forall (fun p => Image.pr_format p = "WEBP"%string)
    (probes (Image.compress_image Z encode_linear stem png_file 5)) /\
  exists b name info,
    result (Image.compress_image Z encode_linear stem png_file 5) =
      Return (Image.Compressed Z b, name, info) /\
    Image.format info = Some "WEBP"%string /\
    name = "photo_compressed.webp"%string.
Proof.
  assert (Hhalf : 2 * (5 * 1024) < Image.file_bytes png_file) by (simpl; lia).
  assert (Hover : 5 * 1024 < Image.file_bytes png_file) by (simpl; lia).
  assert (Hkb : 0 <= 5) by lia.
  destruct (png_rgba_reencoded_as_webp encode_linear stem png_file 5 png_image
              eq_refl eq_refl eq_refl Hhalf Hover Hkb)
    as (_ & Hall & Hret & Htotal).
  split; [exact Hall | ].
  assert (Hanswers : Image.never_raises Z encode_linear png_image)
    by (intros format quality width height; discriminate).
  destruct (Htotal Hanswers) as (b & name & info & Hres).
  destruct (Hret _ _ _ Hres) as (_ & Hformat & _ & Hname & _).
  exists b, name, info. split; [exact Hres | ]. split; [exact Hformat | exact Hname].
Defined.

End Concrete.

(** * Further properties of the code *)

(** ** Scaled dimensions *)

Section Dimensions.

Lemma py_int_floor (x : Q) : (0 <= x)%Q -> py_int x = Qfloor x.
Proof.
  destruct x as [n d]. unfold Qle, py_int, Qfloor. simpl. intros H.
  apply Z.quot_div_nonneg; lia.
Qed.

Lemma inject_Z_nonneg (w : Z) : 0 <= w -> (0 <= inject_Z w)%Q.
Proof. intros H. unfold Qle. simpl. lia. Qed.

Lemma scaled_nonneg (w : Z) (s : Q) : 0 <= w -> (0 <= s)%Q -> (0 <= inject_Z w * s)%Q.
Proof.
  intros Hw Hs. apply Qmult_le_0_compat; [ | exact Hs].
  now apply inject_Z_nonneg.
Qed.

Lemma py_float_nonneg (w : Z) : 0 <= w -> (0 <= py_float w)%Q.
Proof.
  intros Hw. unfold py_float.
  assert (H := round_double_monotone 0 (inject_Z w) (Qle_refl 0)
                 (inject_Z_nonneg w Hw)).
  exact H.
Qed.

(** [int(w * s)], the product taken on floats, grows with the scale for a
    non-negative [w]. *)
Lemma py_int_scale_le (w : Z) (s s' : Q) :
  0 <= w -> (0 <= s)%Q -> (s <= s')%Q ->
  py_int (float_mul (py_float w) s) <= py_int (float_mul (py_float w) s').
Proof.
  intros Hw Hs Hle. pose proof (py_float_nonneg w Hw) as Hf.
  assert (Hs' : (0 <= s')%Q) by (apply Qle_trans with s; assumption).
  assert (H0 : (0 <= py_float w * s)%Q) by (apply Qmult_le_0_compat; assumption).
  assert (Hmul : (py_float w * s <= py_float w * s')%Q).
  { rewrite !(Qmult_comm (py_float w)). now apply Qmult_le_compat_r. }
  pose proof (round_double_monotone _ _ H0 Hmul) as Hround.
  pose proof (round_double_monotone _ _ (Qle_refl 0) H0) as Hpos.
  change (round_double 0) with 0%Q in Hpos.
  unfold float_mul. rewrite !py_int_floor.
  - now apply Qfloor_resp_le.
  - eapply Qle_trans; eassumption.
  - exact Hpos.
Qed.

(** For a width below 2^53, which converts to a float exactly, and a scale
    between 0 and 1 it stays between 0 and [w]. *)
Lemma py_int_scale_bounds (w : Z) (s : Q) :
  0 <= w < 2 ^ 53 -> (0 <= s)%Q -> (s <= 1)%Q ->
  0 <= py_int (float_mul (py_float w) s) <= w.
Proof.
  intros Hw Hs H1.
  assert (Hexact : (py_float w == inject_Z w)%Q) by now apply round_double_Z.
  assert (Hf : (0 <= py_float w)%Q) by (apply py_float_nonneg; lia).
  assert (H0 : (0 <= py_float w * s)%Q) by (apply Qmult_le_0_compat; assumption).
  assert (Hle : (py_float w * s <= inject_Z w)%Q).
  { apply Qle_trans with (py_float w); [ | rewrite Hexact; apply Qle_refl].
    apply Qle_trans with (py_float w * 1)%Q; [ | rewrite Qmult_1_r; apply Qle_refl].
    rewrite !(Qmult_comm (py_float w)). now apply Qmult_le_compat_r. }
  pose proof (round_double_monotone _ _ (Qle_refl 0) H0) as Hpos.
  change (round_double 0) with 0%Q in Hpos.
  pose proof (round_double_monotone _ _ H0 Hle) as Hround.
  assert (Hup : (round_double (py_float w * s) <= inject_Z w)%Q).
  { eapply Qle_trans; [exact Hround | ]. unfold py_float in Hexact.
    rewrite Hexact. apply Qle_refl. }
  unfold float_mul. rewrite py_int_floor by exact Hpos. split.
  - rewrite <- (Qfloor_Z 0). now apply Qfloor_resp_le.
  - rewrite <- (Qfloor_Z w) at 2. now apply Qfloor_resp_le.
Qed.

(** X1. For an image of at least 1x1 pixels, with sides below 2^53 (which
    convert to floats exactly), and a scale between 0 and 1,
    [calculate_new_dimensions] gives a width between 1 and the original
    width and a height between 1 and the original height, the products
    being rounded as floats. *)
Theorem calculate_new_dimensions_within (original_width original_height : Z)
  (scale_factor : Q) :
  1 <= original_width < 2 ^ 53 -> 1 <= original_height < 2 ^ 53 ->
  (0 <= scale_factor)%Q -> (scale_factor <= 1)%Q ->
  let (new_width, new_height) :=
    Image.calculate_new_dimensions original_width original_height scale_factor in
  1 <= new_width <= original_width /\ 1 <= new_height <= original_height.
Proof.
  intros Hw Hh Hs H1. unfold Image.calculate_new_dimensions. cbv beta iota zeta.
  assert (Bw := py_int_scale_bounds original_width scale_factor ltac:(lia) Hs H1).
  assert (Bh := py_int_scale_bounds original_height scale_factor ltac:(lia) Hs H1).
  lia.
Qed.

(** A smaller scale never gives a larger width or height. *)
Lemma calculate_new_dimensions_monotone (w h : Z) (s s' : Q) :
  0 <= w -> 0 <= h -> (0 <= s)%Q -> (s <= s')%Q ->
  fst (Image.calculate_new_dimensions w h s)
    <= fst (Image.calculate_new_dimensions w h s') /\
  snd (Image.calculate_new_dimensions w h s)
    <= snd (Image.calculate_new_dimensions w h s').
Proof.
  intros Hw Hh Hs Hle. unfold Image.calculate_new_dimensions. cbn [fst snd].
  pose proof (py_int_scale_le w s s' Hw Hs Hle).
  pose proof (py_int_scale_le h s s' Hh Hs Hle).
  lia.
Qed.

End Dimensions.

(** ** More on the image quality search *)

Section QualitySearchExtras.

Context {Buffer : Type}.
Variable encode :
  Image.image -> string -> Z -> option Z -> option Z -> option (Buffer * Z).
Variables (image : Image.image) (format : string) (target_size : Z).
Variables (min_quality max_quality : Z) (width height : option Z).
Variable tolerance_pct : Q.

Local Abbreviation bsq :=
  (Image.binary_search_quality Buffer encode image format target_size
     min_quality max_quality width height tolerance_pct).

(** X3. With [min_quality <= max_quality], the quality returned by
    [binary_search_quality] lies between the two bounds. *)
Theorem binary_search_quality_within_bounds (b : Buffer) (s q : Z) :
  min_quality <= max_quality ->
  result bsq = Return (Some (b, s, q)) ->
  min_quality <= q <= max_quality.
Proof.
  intros Hbounds. rewrite bsq_unfold.
  destruct (encode image format max_quality width height) as [[b0 s0] | ];
    [ | discriminate].
  destruct (s0 <=? target_size).
  { intros H. injection H as _ _ <-. lia. }
  destruct (encode image format min_quality width height) as [[b' s'] | ];
    [ | discriminate].
  destruct (target_size <? s'); [discriminate | ].
  destruct (Image.within_tolerance _ _ _).
  { intros H. injection H as _ _ <-. lia. }
  rewrite result_pair. generalize Image.max_iterations. intros n H.
  apply loop_then_tune_result in H.
  destruct H as ([[b1 s1] q1] & [[b2 s2] q2] & Heq & Hloop & Htune & _).
  injection Heq as <- <- <-.
  apply loop_spec in Hloop. destruct Hloop as [Hwhich1 _].
  assert (Hq1 : min_quality <= q1 <= max_quality).
  { destruct Hwhich1 as [Heq | [Hq _]]; [ | exact Hq].
    injection Heq as _ _ ->. lia. }
  pose proof (tune_spec _ _ _ _ _ _ _ _ _ _ _ Htune) as (_ & Hwhich2 & _).
  destruct Hwhich2 as [Heq | (_ & _ & Hin)].
  - injection Heq as _ _ ->. exact Hq1.
  - apply tune_probes_In in Hin. cbn [Image.pr_quality] in Hin.
    apply fine_tune_range_In in Hin. cbn [snd] in Hin. lia.
Qed.

(** X4. When it does not raise, [binary_search_quality] returns nothing
    exactly when the encoder exceeds the target both at [max_quality] and at
    [min_quality]: it never gives up when the lowest quality fits. *)
Theorem binary_search_quality_none_iff :
  result bsq = Return None <->
  exists b s b' s',
    encode image format max_quality width height = Some (b, s) /\
    target_size < s /\
    encode image format min_quality width height = Some (b', s') /\
    target_size < s'.
Proof.
  rewrite bsq_unfold.
  destruct (encode image format max_quality width height) as [[b0 s0] | ].
  2:{ split; [discriminate | ]. intros (b & s & b' & s' & H & _). discriminate. }
  destruct (Z.leb_spec s0 target_size) as [Hfit | Hover].
  { split; [discriminate | ]. intros (b & s & b' & s' & H & Hs & _).
    injection H as _ <-. lia. }
  destruct (encode image format min_quality width height) as [[b1 s1] | ].
  2:{ split; [discriminate | ]. intros (b & s & b' & s' & _ & _ & H & _).
      discriminate. }
  destruct (Z.ltb_spec target_size s1) as [Hover1 | Hfit1].
  { split; [ | reflexivity]. intros _. now exists b0, s0, b1, s1. }
  assert (Hno : ~ exists (b : Buffer) (s : Z) (b' : Buffer) (s' : Z),
              Some (b0, s0) = Some (b, s) /\ target_size < s /\
              Some (b1, s1) = Some (b', s') /\ target_size < s').
  { intros (b & s & b' & s' & _ & _ & H & Hs'). injection H as _ <-. lia. }
  destruct (Image.within_tolerance _ _ _).
  { split; [discriminate | intros H; now destruct Hno]. }
  rewrite result_pair. generalize Image.max_iterations. intros n.
  split; [ | intros H; now destruct Hno].
  intros H. apply loop_then_tune_result in H.
  destruct H as (best1 & best2 & Heq & _). discriminate.
Qed.

(** A search over fewer than [2^k] qualities makes at most [2 + k + 4]
    encoder calls. *)
Lemma bsq_probes_bounded (k : nat) :
  max_quality - min_quality + 1 < 2 ^ Z.of_nat k ->
  (List.length (probes bsq) <= 2 + k + 4)%nat.
Proof.
  intros Hrange. rewrite bsq_unfold.
  destruct (encode image format max_quality width height) as [[b s] | ];
    [ | simpl; lia].
  destruct (s <=? target_size); [simpl; lia | ].
  destruct (encode image format min_quality width height) as [[b' s'] | ];
    [ | simpl; lia].
  destruct (target_size <? s'); [simpl; lia | ].
  destruct (Image.within_tolerance _ _ _); [simpl; lia | ].
  rewrite probes_pair. generalize Image.max_iterations. intros n.
  destruct (loop_then_tune_probes encode image format target_size min_quality
              max_quality width height tolerance_pct n (b', s', min_quality))
    as (main & refine & -> & Hmain & Hrefine).
  cbn [List.length]. rewrite length_app.
  assert (Hlog : (List.length main <= k)%nat)
    by (rewrite Hmain; apply loop_probes_log; exact Hrange).
  assert (Hr : (List.length refine <= 4)%nat).
  { destruct Hrefine as [-> | [best1 ->]]; [simpl; lia | ].
    etransitivity; [apply tune_probes_length | apply fine_tune_range_length]. }
  lia.
Qed.

End QualitySearchExtras.

(** ** More on [compress_image] *)

Section CompressImageExtras.

Context {Buffer : Type}.
Variable encode :
  Image.image -> string -> Z -> option Z -> option Z -> option (Buffer * Z).
Variable base_name_of : string -> string.

Local Abbreviation compress_image := (Image.compress_image Buffer encode base_name_of).
Local Abbreviation ladder := (Image.resize_ladder Buffer encode).

Lemma ladder_probes_length (image : Image.image) (format : string)
  (target_size w h : Z) (scales : list Q) :
  (List.length (probes (ladder image format target_size w h scales))
   <= 14 * List.length scales)%nat.
Proof.
  induction scales as [ | scale scales IH]; [simpl; lia | ].
  rewrite ladder_cons. cbv zeta. rewrite probes_bind, length_app.
  destruct (cws_cases encode image format
              (Some (fst (Image.calculate_new_dimensions w h scale)))
              (Some (snd (Image.calculate_new_dimensions w h scale))) 95)
    as [(b & s & _ & ->) | [_ ->]]; rewrite result_pair, probes_pair;
    [ | simpl; lia].
  cbv beta iota. destruct (s <=? target_size); [simpl; lia | ].
  rewrite probes_bind, length_app.
  assert (Hbsq := bsq_probes_bounded encode image format target_size 1 95
                    (Some (fst (Image.calculate_new_dimensions w h scale)))
                    (Some (snd (Image.calculate_new_dimensions w h scale))) 1 7
                    ltac:(vm_compute; reflexivity)).
  destruct (result (Image.binary_search_quality _ _ _ _ _ _ _ _ _ _))
    as [[[[b1 s1] q1] | ] | e]; simpl List.length in *; lia.
Qed.

Lemma find_best_probes_length (image : Image.image) (format : string)
  (target_size : Z) :
  (List.length (probes (find_best encode image format target_size)) <= 126)%nat.
Proof.
  unfold find_best. rewrite probes_bind, length_app.
  assert (Hbsq := bsq_probes_bounded encode image format target_size 1 95
                    None None 1 7 ltac:(vm_compute; reflexivity)).
  destruct (result (Image.binary_search_quality _ _ _ _ _ _ _ _ _ _))
    as [[best | ] | e]; [simpl List.length in *; lia | | simpl List.length in *; lia].
  rewrite probes_bind, length_app.
  assert (Hlad := ladder_probes_length image format target_size
                    (fst (Image.img_size image)) (snd (Image.img_size image))
                    Image.scale_factors).
  change (List.length Image.scale_factors) with 8%nat in Hlad.
  destruct (result (Image.resize_ladder _ _ _ _ _ _ _ _))
    as [[[[[b s] q] d] | ] | e]; [simpl List.length in *; lia | | simpl List.length in *; lia].
  pose proof (floor_probe_cases encode image format) as Hfloor. cbv zeta in Hfloor.
  destruct (encode image format 1 _ _) as [[b s] | ]; rewrite Hfloor, probes_pair;
    simpl List.length in *; lia.
Qed.

(** X5. Whatever the file, the target and the encoder, one call of
    [compress_image] makes at most 126 encoder calls: 13 for the quality
    search at the original size, 14 for each of the 8 steps of the resize
    ladder and 1 for the last resort. *)
Theorem compress_image_at_most_126_probes (file : Image.file) (max_size_kb : Z) :
  (List.length (probes (compress_image file max_size_kb)) <= 126)%nat.
Proof.
  destruct (Image.file_image file) as [image | ] eqn:Himg.
  - destruct (Z.leb_spec (Image.file_bytes file) (max_size_kb * 1024)) as [Hs | Hb].
    + rewrite compress_image_small with (image := image)
        by (assumption || (apply Z.leb_le; assumption)).
      simpl. lia.
    + rewrite compress_image_probes with (image := image) by assumption.
      apply find_best_probes_length.
  - unfold Image.compress_image. rewrite Himg. simpl. lia.
Qed.

Lemma ladder_dims (image : Image.image) (format : string) (target_size w h : Z)
  (scales : list Q) : forall b s q dims,
  result (ladder image format target_size w h scales) = Return (Some (b, s, q, dims)) ->
  exists scale, In scale scales /\ dims = Image.calculate_new_dimensions w h scale.
Proof.
  induction scales as [ | scale scales IH]; intros b s q dims Hres; [discriminate | ].
  rewrite ladder_cons in Hres. cbv zeta in Hres. rewrite result_bind in Hres.
  destruct (result (Image.compress_with_settings _ _ _ _ _ _ _))
    as [[b0 s0] | e]; [ | discriminate].
  cbv beta iota in Hres. destruct (s0 <=? target_size).
  - injection Hres as _ _ _ <-. exists scale. split; [now left | reflexivity].
  - rewrite result_bind in Hres.
    destruct (result (Image.binary_search_quality _ _ _ _ _ _ _ _ _ _))
      as [[[[b1 s1] q1] | ] | e]; [ | | discriminate].
    + injection Hres as _ _ _ <-. exists scale. split; [now left | reflexivity].
    + destruct (IH _ _ _ _ Hres) as (scale' & Hin & Hd).
      exists scale'. split; [now right | exact Hd].
Qed.

(** Where the result of the search comes from: the original dimensions,
    one of the ladder's scales, or the last resort. *)
Lemma find_best_shape (image : Image.image) (format : string) (target_size : Z)
  best was_resized dims :
  result (find_best encode image format target_size)
    = Return (best, was_resized, dims) ->
  (was_resized = false /\ dims = Image.img_size image) \/
  (was_resized = true /\
   exists scale,
     (In scale Image.scale_factors \/ scale = Image.last_resort_scale) /\
     dims = Image.calculate_new_dimensions
              (fst (Image.img_size image)) (snd (Image.img_size image)) scale).
Proof.
  unfold find_best. rewrite result_bind.
  destruct (result (Image.binary_search_quality _ _ _ _ _ _ _ _ _ _))
    as [[first | ] | e]; [ | | discriminate].
  - intros H. injection H as _ <- <-. now left.
  - rewrite result_bind.
    destruct (result (Image.resize_ladder _ _ _ _ _ _ _ _))
      as [[[[[b s] q] d] | ] | e] eqn:Eladder; [ | | discriminate].
    + intros H. injection H as _ <- <-. right. split; [reflexivity | ].
      destruct (ladder_dims _ _ _ _ _ _ _ _ _ _ Eladder) as (scale & Hin & Hd).
      exists scale. split; [ | exact Hd].
      now left.
    + pose proof (floor_probe_cases encode image format) as Hfloor.
      cbv zeta in Hfloor.
      destruct (encode image format 1 _ _) as [[b s] | ]; rewrite Hfloor, result_pair;
        [ | discriminate].
      intros H. injection H as _ <- <-. right. split; [reflexivity | ].
      exists Image.last_resort_scale. split; [ | reflexivity].
      now right.
Qed.

(** What [compress_image] reports after a search, from what the search
    found. *)
Lemma compress_image_info (file : Image.file) (max_size_kb : Z)
  (image : Image.image) a name info :
  Image.file_image file = Some image ->
  max_size_kb * 1024 < Image.file_bytes file ->
  result (compress_image file max_size_kb) = Return (a, name, info) ->
  exists b s q was_resized dims,
    result (find_best encode image
              (Image.format_for_compression_of image (Image.file_bytes file)
                 (max_size_kb * 1024))
              (max_size_kb * 1024))
      = Return (Some (b, s, q), was_resized, dims) /\
    a = Image.Compressed Buffer b /\
    Image.compressed_size info = (s + 1023) / 1024 /\
    Image.actual_size_bytes info = Some s /\
    Image.quality info = q /\
    Image.resized info = was_resized /\
    Image.final_dimensions info = Some dims /\
    Image.original_dimensions info = Some (Image.img_size image) /\
    Image.target_size_kb info = Some max_size_kb /\
    Image.success info = Some (s <=? max_size_kb * 1024).
Proof.
  intros Himg Hbig.
  rewrite compress_image_unfold with (image := image)
    by (assumption || (apply Z.leb_gt; assumption)).
  rewrite result_bind.
  destruct (result (find_best _ _ _ _)) as [[[best w] d] | e] eqn:Hret;
    [ | discriminate].
  destruct (find_best_selects _ _ _ _ _ _ _ Hret) as (b & s & q & -> & _).
  unfold finish. destruct (Image.file_bytes file =? 0); [discriminate | ].
  intros H. injection H as <- <- <-.
  exists b, s, q, w, d. repeat split.
Qed.

(** A result of the search that exceeds the target is the last resort. *)
Lemma find_best_over_target (image : Image.image) (format : string)
  (target_size : Z) b s q was_resized dims :
  result (find_best encode image format target_size)
    = Return (Some (b, s, q), was_resized, dims) ->
  target_size < s ->
  q = 1 /\ was_resized = true /\
  dims = Image.calculate_new_dimensions
           (fst (Image.img_size image)) (snd (Image.img_size image)) Image.last_resort_scale.
Proof.
  unfold find_best. rewrite result_bind.
  destruct (result (Image.binary_search_quality _ _ _ _ _ _ _ _ _ _))
    as [[[[b0 s0] q0] | ] | e] eqn:Ebsq; [ | | discriminate].
  { intros H Hover. injection H as _ <- _ _ _.
    apply bsq_selects in Ebsq. lia. }
  rewrite result_bind.
  destruct (result (Image.resize_ladder _ _ _ _ _ _ _ _))
    as [[[[[b1 s1] q1] d1] | ] | e] eqn:Elad; [ | | discriminate].
  { intros H Hover. injection H as _ <- _ _ _.
    apply ladder_selects in Elad. lia. }
  pose proof (floor_probe_cases encode image format) as Hfloor. cbv zeta in Hfloor.
  destruct (encode image format 1 _ _) as [[b2 s2] | ]; rewrite Hfloor, result_pair;
    [ | discriminate].
  intros H _. injection H as _ _ <- <- <-. repeat split.
Qed.

(** X6. A result of [compress_image] that exceeds the target
    ([success] false) is always the last resort: quality 1 at a tenth of the
    original dimensions, flagged as resized, and then no encoder call of the
    whole run fitted the target. *)
Theorem compress_image_failure_is_last_resort (file : Image.file)
  (max_size_kb : Z) (image : Image.image) a name info :
  Image.file_image file = Some image ->
  result (compress_image file max_size_kb) = Return (a, name, info) ->
  Image.success info = Some false ->
  Image.quality info = 1 /\
  Image.resized info = true /\
  Image.final_dimensions info =
    Some (Image.calculate_new_dimensions
            (fst (Image.img_size image)) (snd (Image.img_size image)) Image.last_resort_scale) /\
  (forall p, In p (probes (compress_image file max_size_kb)) ->
     Image.compliant (max_size_kb * 1024) p = false).
Proof.
  intros Himg Hres Hfail.
  destruct (Z.leb_spec (Image.file_bytes file) (max_size_kb * 1024)) as [Hs | Hbig].
  { rewrite compress_image_small with (image := image) in Hres
      by (assumption || (apply Z.leb_le; assumption)).
    injection Hres as _ _ <-. discriminate. }
  destruct (compress_image_info _ _ _ _ _ _ Himg Hbig Hres)
    as (b & s & q & w & d & Hret & _ & _ & _ & Hq & Hw & Hd & _ & _ & Hsucc).
  rewrite Hsucc in Hfail. injection Hfail as Hover. apply Z.leb_gt in Hover.
  rewrite compress_image_probes with (image := image) by assumption.
  rewrite Hq, Hw, Hd.
  destruct (find_best_over_target _ _ _ _ _ _ _ _ Hret Hover) as (-> & -> & ->).
  repeat (split; [reflexivity | ]).
  destruct (find_best_selects _ _ _ _ _ _ _ Hret)
    as (b0 & s0 & q0 & Heq & _ & Hfit & _).
  injection Heq as _ <- _.
  intros p Hin.
  destruct (Image.compliant (max_size_kb * 1024) p) eqn:Hp; [ | reflexivity].
  assert (s <= max_size_kb * 1024) by (apply Hfit; now exists p). lia.
Qed.

(** X7. After a search, the final dimensions reported by [compress_image]
    are the original ones when [resized] is false, and otherwise the ones
    computed from one of the nine scales 0.9, ..., 0.2, 0.1. *)
Theorem compress_image_final_dimensions (file : Image.file) (max_size_kb : Z)
  (image : Image.image) a name info :
  Image.file_image file = Some image ->
  max_size_kb * 1024 < Image.file_bytes file ->
  result (compress_image file max_size_kb) = Return (a, name, info) ->
  (Image.resized info = false /\
   Image.final_dimensions info = Some (Image.img_size image)) \/
  (Image.resized info = true /\
   exists scale,
     (In scale Image.scale_factors \/ scale = Image.last_resort_scale) /\
     Image.final_dimensions info =
       Some (Image.calculate_new_dimensions
               (fst (Image.img_size image)) (snd (Image.img_size image)) scale)).
Proof.
  intros Himg Hbig Hres.
  destruct (compress_image_info _ _ _ _ _ _ Himg Hbig Hres)
    as (b & s & q & w & d & Hret & _ & _ & _ & _ & Hw & Hd & _).
  rewrite Hw, Hd.
  destruct (find_best_shape _ _ _ _ _ _ Hret) as [[-> ->] | [-> (scale & Hin & ->)]].
  - now left.
  - right. split; [reflexivity | ]. now exists scale.
Qed.

(** X8. The size in KB that [compress_image] reports after a search is
    the actual size rounded up, and when [success] is true it does not
    exceed the requested number of KB. *)
Theorem compress_image_reported_kb (file : Image.file) (max_size_kb : Z)
  (image : Image.image) a name info :
  Image.file_image file = Some image ->
  max_size_kb * 1024 < Image.file_bytes file ->
  result (compress_image file max_size_kb) = Return (a, name, info) ->
  exists s,
    Image.actual_size_bytes info = Some s /\
    s <= Image.compressed_size info * 1024 < s + 1024 /\
    (Image.success info = Some true -> Image.compressed_size info <= max_size_kb).
Proof.
  intros Himg Hbig Hres.
  destruct (compress_image_info _ _ _ _ _ _ Himg Hbig Hres)
    as (b & s & q & w & d & _ & _ & Hkb & Hs & _ & _ & _ & _ & _ & Hsucc).
  exists s. split; [exact Hs | ]. rewrite Hkb, Hsucc. split.
  - Z.div_mod_to_equations. lia.
  - intros H. injection H as H. apply Z.leb_le in H.
    Z.div_mod_to_equations. lia.
Qed.

End CompressImageExtras.

(** ** More on the PDF tier table and search *)

Section TierExtras.

Lemma table_factor_le_1 (l : Pdf.level) :
  In l Pdf.CUSTOM_QUALITY_LEVELS -> (Pdf.quality_factor l <= 1)%Q.
Proof.
  unfold Pdf.CUSTOM_QUALITY_LEVELS, Pdf.lowest_level. simpl. intros H.
  repeat (destruct H as [<- | H]; [simpl; unfold Qle; simpl; lia | ]).
  contradiction.
Qed.

Lemma first_level_In (factor : Q) (levels : list Pdf.level) (l : Pdf.level) :
  Pdf.first_level factor levels = Some l -> In l levels.
Proof.
  intros H. pose proof (first_level_spec factor levels) as Hspec.
  rewrite H in Hspec. destruct Hspec as (before & after & -> & _).
  apply in_or_app. right. now left.
Qed.

Lemma first_level_monotone (levels : list Pdf.level) :
  StronglySorted (fun a b => (Pdf.quality_factor a < Pdf.quality_factor b)%Q) levels ->
  forall factor factor' l',
    (factor <= factor')%Q ->
    Pdf.first_level factor' levels = Some l' ->
    exists l, Pdf.first_level factor levels = Some l /\
              (Pdf.quality_factor l <= Pdf.quality_factor l')%Q.
Proof.
  induction 1 as [ | a rest Hsorted IH Hall]; intros factor factor' l' Hle Hl';
    [discriminate | ].
  simpl in Hl' |- *.
  destruct (Qle_bool factor' (Pdf.quality_factor a)) eqn:E'.
  - injection Hl' as <-. apply Qle_bool_iff in E'.
    assert (E : Qle_bool factor (Pdf.quality_factor a) = true)
      by (apply Qle_bool_iff; eapply Qle_trans; eassumption).
    rewrite E. exists a. split; [reflexivity | apply Qle_refl].
  - destruct (Qle_bool factor (Pdf.quality_factor a)) eqn:E.
    + exists a. split; [reflexivity | ].
      apply first_level_In in Hl'. apply Qlt_le_weak.
      now apply (proj1 (Forall_forall _ _) Hall).
    + now apply (IH factor factor').
Qed.

Lemma get_settings_In (factor : Q) :
  In (Pdf.get_settings_for_quality_factor factor) Pdf.CUSTOM_QUALITY_LEVELS.
Proof.
  unfold Pdf.get_settings_for_quality_factor.
  destruct (Pdf.first_level factor Pdf.CUSTOM_QUALITY_LEVELS) as [l | ] eqn:E.
  - now apply first_level_In in E.
  - vm_compute. tauto.
Qed.

(** X9. The tier lookup always answers with an entry of the table; a larger
    factor never gives a tier of smaller quality factor; and looking up the
    quality factor of an entry of the table gives that entry back. *)
Theorem tier_lookup_monotone_and_stable :
  (forall factor,
     In (Pdf.get_settings_for_quality_factor factor) Pdf.CUSTOM_QUALITY_LEVELS) /\
  (forall factor factor',
     (factor <= factor')%Q ->
     (Pdf.quality_factor (Pdf.get_settings_for_quality_factor factor)
      <= Pdf.quality_factor (Pdf.get_settings_for_quality_factor factor'))%Q) /\
  (forall l,
     In l Pdf.CUSTOM_QUALITY_LEVELS ->
     Pdf.get_settings_for_quality_factor (Pdf.quality_factor l) = l).
Proof.
  split; [exact get_settings_In | ]. split.
  - intros factor factor' Hle.
    pose proof (get_settings_In factor) as Hin.
    unfold Pdf.get_settings_for_quality_factor in *.
    destruct (Pdf.first_level factor' Pdf.CUSTOM_QUALITY_LEVELS) as [l' | ] eqn:E'.
    + destruct (first_level_monotone _ CUSTOM_QUALITY_LEVELS_ascending
                  factor factor' l' Hle E') as (l & -> & Hl).
      exact Hl.
    + apply table_factor_le_1 in Hin. exact Hin.
  - unfold Pdf.CUSTOM_QUALITY_LEVELS, Pdf.lowest_level. simpl. intros l H.
    repeat (destruct H as [<- | H]; [reflexivity | ]). contradiction.
Qed.

End TierExtras.

Section PdfSearchExtras.

Context {Document : Type}.
Variable ghostscript : Pdf.level -> option (Document * Z).
Variable target_size_mb : Q.

Local Abbreviation floop := (Pdf.factor_loop Document ghostscript target_size_mb).
Local Abbreviation foc := (Pdf.find_optimal_compression Document ghostscript).

(** Each iteration halves the interval. *)
Lemma next_state_width (low high : Q) (best : Document * Z * Q)
  (answer : option (Document * Z)) :
  let next := next_state target_size_mb low high best answer in
  (snd (fst next) - fst (fst next) == (high - low) / 2)%Q.
Proof.
  unfold next_state.
  destruct answer as [[d bytes] | ];
    [destruct (Qle_bool (Pdf.size_mb bytes) target_size_mb) | ];
    cbn [fst snd]; field.
Qed.

Lemma two_pow_pos (k : nat) : 0 < 2 ^ Z.of_nat k.
Proof. apply Z.pow_pos_nonneg; lia. Qed.

(** An interval of width at most [0.05 * 2^k] is searched with at most [k]
    Ghostscript runs, whatever the iteration cap. *)
Lemma factor_loop_probes_log (k : nat) : forall n low high best,
  (high - low <= (5 # 100) * inject_Z (2 ^ Z.of_nat k))%Q ->
  (List.length (probes (floop n low high best)) <= k)%nat.
Proof.
  induction k as [ | k IH]; intros n low high best Hwidth.
  - rewrite factor_loop_stop; [simpl; lia | ].
    apply Qlt_bool_false_iff. eapply Qle_trans; [exact Hwidth | ].
    unfold Qle. simpl. lia.
  - destruct n as [ | n]; [simpl; lia | ].
    destruct (Qlt_bool (5 # 100) (high - low)) eqn:Hwide.
    2:{ rewrite factor_loop_stop by assumption. simpl. lia. }
    pose proof (factor_loop_S ghostscript target_size_mb n low high best Hwide)
      as Hstep.
    cbv zeta in Hstep. rewrite Hstep, probes_pair. clear Hstep.
    cbn [List.length]. apply le_n_S. apply IH.
    rewrite next_state_width. apply Qle_shift_div_r; [reflexivity | ].
    eapply Qle_trans; [exact Hwidth | ].
    rewrite Nat2Z.inj_succ, Z.pow_succ_r by lia.
    rewrite inject_Z_mult. apply Qle_lteq. right. ring.
Qed.

(** X10. [find_optimal_compression] runs Ghostscript at most 7 times: once
    at the lowest tier, once at the highest, and at most 5 times in the
    loop, whose interval is then no wider than 0.05; the cap of 8
    iterations is never reached. *)
Theorem find_optimal_compression_at_most_7_runs (input_bytes : Z) :
  (List.length (probes (foc input_bytes target_size_mb)) <= 7)%nat /\
  (forall best,
     List.length (probes (floop Pdf.max_iterations 0 1 best)) <= 5 /\
     5 < Pdf.max_iterations)%nat.
Proof.
  assert (Hloop : forall n best,
            (List.length (probes (floop n 0 1 best)) <= 5)%nat).
  { intros n best. apply factor_loop_probes_log. unfold Qle. simpl. lia. }
  split.
  - rewrite (find_optimal_compression_unfold ghostscript target_size_mb
               input_bytes _ eq_refl).
    generalize Pdf.max_iterations. intros n.
    destruct (Qle_bool _ _); [simpl; lia | ].
    destruct (ghostscript _) as [[d0 b0] | ]; [ | simpl; lia].
    destruct (Qlt_bool _ _); [simpl; lia | ].
    destruct (ghostscript _) as [[d1 b1] | ]; [ | simpl; lia].
    destruct (Qle_bool _ _); [simpl; lia | ].
    cbv zeta. rewrite probes_pair. cbn [List.length].
    specialize (Hloop n (d0, b0, 0%Q)). lia.
  - intros best. split; [apply Hloop | unfold Pdf.max_iterations; lia].
Qed.

(** X11. [find_optimal_compression] raises exactly when Ghostscript fails
    at the lowest tier, or at the highest tier after the lowest one fitted
    (the input being larger than the target); a failure at a midpoint of the
    loop is absorbed. *)
Theorem find_optimal_compression_returns_iff (input_bytes : Z) :
  returns (foc input_bytes target_size_mb) <->
  (Pdf.size_mb input_bytes <= target_size_mb)%Q \/
  exists d0 b0,
    ghostscript Pdf.lowest_level = Some (d0, b0) /\
    ((target_size_mb < Pdf.size_mb b0)%Q \/ ghostscript highest_level <> None).
Proof.
  rewrite (find_optimal_compression_unfold ghostscript target_size_mb
             input_bytes _ eq_refl).
  generalize Pdf.max_iterations. intros n.
  change (Pdf.get_settings_for_quality_factor 0) with Pdf.lowest_level.
  change (Pdf.get_settings_for_quality_factor 1) with highest_level.
  destruct (Qle_bool (Pdf.size_mb input_bytes) target_size_mb) eqn:Hin.
  { apply Qle_bool_iff in Hin. split; [now left | intros _; now eexists]. }
  assert (Hbig : ~ (Pdf.size_mb input_bytes <= target_size_mb)%Q).
  { intros H. apply Qle_bool_iff in H. congruence. }
  destruct (ghostscript Pdf.lowest_level) as [[d0 b0] | ].
  2:{ split.
      - intros [a Ha]. discriminate.
      - intros [H | (d0 & b0 & H & _)]; [contradiction | discriminate]. }
  destruct (Qlt_bool target_size_mb (Pdf.size_mb b0)) eqn:Hlow.
  { apply Qlt_bool_iff in Hlow. split.
    - intros _. right. exists d0, b0. split; [reflexivity | now left].
    - intros _. now eexists. }
  apply Qlt_bool_false_iff in Hlow.
  destruct (ghostscript highest_level) as [[d1 b1] | ].
  2:{ split.
      - intros [a Ha]. discriminate.
      - intros [H | (d & b & H & [Hlt | Hne])]; [contradiction | | congruence].
        injection H as _ <-. exfalso. now apply (Qlt_not_le _ _ Hlt). }
  split.
  - intros _. right. exists d0, b0. split; [reflexivity | right; discriminate].
  - intros _.
    destruct (Qle_bool (Pdf.size_mb b1) target_size_mb); [now eexists | ].
    destruct (factor_loop_spec ghostscript target_size_mb n 0 1 (d0, b0, 0%Q))
      as (d & bytes & q & Hres & _).
    cbv zeta. unfold returns. eexists. rewrite result_pair, Hres. reflexivity.
Qed.

(** X12. The file [find_optimal_compression] returns exceeds the target
    only when it is the output of the lowest tier, which then exceeded the
    target itself after a single Ghostscript run. *)
Theorem find_optimal_compression_over_target_is_lowest (input_bytes : Z)
  (d : Document) (bytes : Z) (mb : Q) :
  result (foc input_bytes target_size_mb) = Return (Pdf.Output Document d bytes, mb) ->
  mb = Pdf.size_mb bytes /\
  ((Pdf.size_mb bytes <= target_size_mb)%Q \/
   (ghostscript Pdf.lowest_level = Some (d, bytes) /\
    foc input_bytes target_size_mb =
      (Return (Pdf.Output Document d bytes, Pdf.size_mb bytes),
       [ {| Pdf.pr_level := Pdf.lowest_level; Pdf.pr_size := Some bytes |} ]))).
Proof.
  rewrite (find_optimal_compression_unfold ghostscript target_size_mb
             input_bytes _ eq_refl).
  generalize Pdf.max_iterations. intros n.
  change (Pdf.get_settings_for_quality_factor 0) with Pdf.lowest_level.
  destruct (Qle_bool (Pdf.size_mb input_bytes) target_size_mb); [discriminate | ].
  destruct (ghostscript Pdf.lowest_level) as [[d0 b0] | ]; [ | discriminate].
  destruct (Qlt_bool target_size_mb (Pdf.size_mb b0)) eqn:Hlow.
  { intros H. injection H as <- <- <-. split; [reflexivity | ]. now right. }
  apply Qlt_bool_false_iff in Hlow.
  destruct (ghostscript _) as [[d1 b1] | ]; [ | discriminate].
  destruct (Qle_bool (Pdf.size_mb b1) target_size_mb) eqn:Hhigh.
  { apply Qle_bool_iff in Hhigh. intros H. injection H as <- <- <-.
    split; [reflexivity | now left]. }
  cbv zeta. rewrite result_pair.
  destruct (factor_loop_spec ghostscript target_size_mb n 0 1 (d0, b0, 0%Q))
    as (d' & bytes' & q & -> & _ & Hwhich & _).
  intros H. injection H as <- <- <-. split; [reflexivity | left].
  destruct Hwhich as [Heq | [Hfit _]]; [ | exact Hfit].
  injection Heq as _ -> _. exact Hlow.
Qed.

End PdfSearchExtras.

Section PdfReportExtras.

Context {Document : Type}.
Variable ghostscript : Pdf.level -> option (Document * Z).

Local Abbreviation find_optimal_compression :=
  (Pdf.find_optimal_compression Document ghostscript).
Local Abbreviation compress_to_target_size :=
  (Pdf.compress_to_target_size Document ghostscript).

Lemma py_int_nonneg (x : Q) : (0 <= x)%Q -> 0 <= py_int x.
Proof.
  destruct x as [a b]. unfold Qle, py_int. cbn [Qnum Qden]. intros H.
  apply Z.quot_pos; lia.
Qed.

Lemma py_int_monotone (x y : Q) : (0 <= x)%Q -> (x <= y)%Q -> py_int x <= py_int y.
Proof.
  intros Hx Hxy. rewrite !py_int_floor.
  - now apply Qfloor_resp_le.
  - now apply Qle_trans with x.
  - exact Hx.
Qed.

Lemma round_double_nonneg (x : Q) : (0 <= x)%Q -> (0 <= round_double x)%Q.
Proof.
  intros Hx. exact (round_double_monotone 0 x (Qle_refl 0) Hx).
Qed.

(** Below 2^53 bytes the size in KB is an exact float. *)
Lemma get_file_size_kb_exact (bytes : Z) :
  0 <= bytes < 2 ^ 53 ->
  (Pdf.get_file_size_kb bytes == inject_Z bytes / 1024)%Q.
Proof.
  intros Hb. unfold Pdf.get_file_size_kb, py_truediv.
  destruct (Z.eq_dec bytes 0) as [-> | Hne]; [reflexivity | ].
  assert (Heq : (inject_Z bytes / inject_Z 1024 == inject_Z bytes * 2 ^ (-10))%Q)
    by reflexivity.
  rewrite (round_double_comp _ _ Heq).
  rewrite round_double_exact by lia. symmetry. exact Heq.
Qed.

(** X20. On an empty input, read from a file object or from a path,
    [compress_to_target_size] raises [ZeroDivisionError], for every target
    that is not negative, without a single Ghostscript run: the input is
    within the target, and the reduction is then computed relative to a
    size of zero. *)
Theorem compress_to_target_size_empty_input (input_file : Pdf.input_file)
  (target_size_kb : Z) :
  input_file = Pdf.FileObject 0 \/ input_file = Pdf.FilePath (Some 0) ->
  0 <= target_size_kb ->
  compress_to_target_size input_file target_size_kb = (Raise ZeroDivisionError, []).
Proof.
  intros Hinput Htarget.
  assert (H : Pdf.compress_temp_input Document ghostscript 0 target_size_kb
              = (Raise ZeroDivisionError, [])).
  { unfold Pdf.compress_temp_input, Pdf.find_optimal_compression.
    rewrite (size_mb_within 0 target_size_kb) by lia.
    now rewrite bind_ret_l. }
  destruct Hinput as [-> | ->]; exact H.
Qed.

(** X21. On an input that is not empty, read from a file object or from a
    path, [compress_to_target_size] makes the Ghostscript runs of
    [find_optimal_compression], raises what it raises and hands back the
    file it hands back.  For sizes below 2^53 bytes the quality it reports
    is Original exactly when that file is not smaller than the input, and
    otherwise a percentage between 0 and 99. *)
Theorem compress_to_target_size_report (input_file : Pdf.input_file)
  (input_bytes target_size_kb : Z) :
  input_file = Pdf.FileObject input_bytes \/
  input_file = Pdf.FilePath (Some input_bytes) ->
  0 < input_bytes < 2 ^ 53 ->
  let search :=
    find_optimal_compression input_bytes (inject_Z target_size_kb / 1024) in
  let call := compress_to_target_size input_file target_size_kb in
  probes call = probes search /\
  (forall e, result search = Raise e -> result call = Raise e) /\
  (forall a mb,
     result search = Return (a, mb) ->
     exists info,
       result call = Return (a, info) /\
       Pdf.compressed_size info
         = py_round2
             (Pdf.get_file_size_kb (Pdf.artifact_bytes Document input_bytes a)) /\
       (0 <= Pdf.artifact_bytes Document input_bytes a ->
        (Pdf.quality info = Pdf.QualityOriginal <->
         input_bytes <= Pdf.artifact_bytes Document input_bytes a) /\
        (forall n, Pdf.quality info = Pdf.QualityPercent n -> 0 <= n <= 99))).
Proof.
  intros Hinput Hpos search call.
  assert (Hcall : call = Pdf.compress_temp_input Document ghostscript input_bytes
                           target_size_kb)
    by (subst call; destruct Hinput as [-> | ->]; reflexivity).
  rewrite Hcall. clear call Hcall. unfold Pdf.compress_temp_input. fold search.
  rewrite (get_file_size_kb_nonzero input_bytes) by lia.
  pose proof (get_file_size_kb_pos input_bytes ltac:(lia)) as Hkb.
  split; [ | split].
  - rewrite probes_bind. destruct (result search) as [[a mb] | e].
    + cbn [probes ret snd]. apply app_nil_r.
    + apply app_nil_r.
  - intros e He. now rewrite result_bind, He.
  - intros a mb Hret. rewrite result_bind, Hret. eexists.
    split; [reflexivity | ].
    cbn [Pdf.compressed_size Pdf.quality].
    set (final := Pdf.artifact_bytes Document input_bytes a).
    split; [reflexivity | ]. intros Hfinal.
    set (okb := Pdf.get_file_size_kb input_bytes) in *.
    set (fkb := Pdf.get_file_size_kb final).
    assert (Hokb : (okb == inject_Z input_bytes / 1024)%Q)
      by (apply get_file_size_kb_exact; lia).
    assert (Hfkb0 : (0 <= fkb)%Q).
    { apply round_double_nonneg. apply Qle_shift_div_l; [reflexivity | ].
      rewrite Qmult_0_l. now apply inject_Z_nonneg. }
    destruct (Z.le_gt_cases input_bytes final) as [Hge | Hlt].
    + assert (Hle : Qle_bool okb fkb = true).
      { apply Qle_bool_iff. unfold okb, fkb, Pdf.get_file_size_kb, py_truediv.
        apply round_double_monotone.
        - apply Qle_shift_div_l; [reflexivity | ].
          rewrite Qmult_0_l. apply inject_Z_nonneg. lia.
        - apply Qmult_le_compat_r; [ | discriminate]. now rewrite <- Zle_Qle. }
      rewrite Hle. split; [tauto | discriminate].
    + assert (Hfkb : (fkb == inject_Z final / 1024)%Q)
        by (apply get_file_size_kb_exact; lia).
      assert (Hnle : Qle_bool okb fkb = false).
      { destruct (Qle_bool okb fkb) eqn:E; [ | reflexivity].
        apply Qle_bool_iff in E. rewrite Hokb, Hfkb in E.
        apply Qmult_le_r in E; [ | reflexivity].
        rewrite <- Zle_Qle in E. lia. }
      rewrite Hnle. split; [split; [discriminate | lia] | ].
      intros n Hn. injection Hn as <-.
      assert (Hq0 : (0 <= fkb / okb)%Q).
      { apply Qle_shift_div_l; [exact Hkb | ]. now rewrite Qmult_0_l. }
      pose proof (round_double_nonneg _ Hq0) as Hfq0.
      fold (float_div fkb okb) in Hfq0.
      assert (Hmul0 : (0 <= float_div fkb okb * 100)%Q)
        by (apply Qmult_le_0_compat; [exact Hfq0 | discriminate]).
      split.
      * apply py_int_nonneg. now apply round_double_nonneg.
      * set (c := (inject_Z (2 ^ 53 - 1) * 2 ^ (-53))%Q).
        assert (Hquot : (fkb / okb <= c)%Q).
        { rewrite Hokb, Hfkb.
          apply Qle_shift_div_r.
          { apply Qlt_shift_div_l; [reflexivity | ].
            rewrite Qmult_0_l. apply inject_Z_pos. lia. }
          unfold c, Qdiv. rewrite Qmult_assoc.
          apply Qmult_le_compat_r; [ | discriminate].
          assert (Hc : (inject_Z (2 ^ 53 - 1) * 2 ^ (-53) * inject_Z input_bytes
                        == inject_Z ((2 ^ 53 - 1) * input_bytes) / inject_Z (2 ^ 53))%Q).
          { rewrite inject_Z_mult. unfold Qdiv.
            change (2 ^ (-53))%Q with (/ inject_Z (2 ^ 53))%Q. ring. }
          rewrite Hc. apply Qle_shift_div_l; [reflexivity | ].
          rewrite <- inject_Z_mult, <- Zle_Qle. nia. }
        assert (Hfq : (float_div fkb okb <= c)%Q).
        { unfold float_div.
          apply Qle_trans with (round_double c);
            [now apply round_double_monotone | ].
          unfold c. rewrite round_double_exact by lia. apply Qle_refl. }
        assert (Hmul : (float_div fkb okb * 100 <= c * 100)%Q)
          by (apply Qmult_le_compat_r; [exact Hfq | discriminate]).
        pose proof (round_double_monotone _ _ Hmul0 Hmul) as Hround.
        apply Z.le_trans with (py_int (round_double (c * 100))).
        -- apply py_int_monotone; [now apply round_double_nonneg | exact Hround].
        -- vm_compute. discriminate.
Qed.

End PdfReportExtras.

(** ** More on the video converger *)

Section VideoExtras.

Context {Clip : Type}.
Variable ffmpeg :
  Q -> Z -> option Z -> option Z -> option string -> option (Clip * Z).

Local Abbreviation run := (Video.run_ffmpeg_compression Clip ffmpeg).
Local Abbreviation aloop := (Video.adjust_loop Clip ffmpeg).
Local Abbreviation cvt := (Video.compress_video_to_target Clip ffmpeg).

Lemma run_probes_length (video_bitrate : Q) (audio_bitrate : Z)
  (width height : option Z) (format : option string) :
  List.length (probes (run video_bitrate audio_bitrate width height format)) = 1%nat.
Proof.
  destruct (run_cases ffmpeg video_bitrate audio_bitrate width height format)
    as [(c & size & _ & ->) | [_ ->]]; reflexivity.
Qed.

Lemma aloop_probes_length (info : Video.video_info) (audio_bitrate : Z)
  (min_bytes max_bytes : Q) (n : nat) : forall current video_bitrate,
  (List.length
     (probes (aloop info audio_bitrate min_bytes max_bytes n current video_bitrate))
   <= n)%nat.
Proof.
  induction n as [ | n IH]; intros current video_bitrate; [simpl; lia | ].
  rewrite aloop_S. destruct (negb _); [ | simpl; lia].
  rewrite probes_bind, length_app, run_probes_length.
  destruct (result (run _ _ _ _ _)) as [current' | e]; [ | simpl; lia].
  specialize (IH current' (Video.adjust_bitrate max_bytes (snd current) video_bitrate)).
  lia.
Qed.

(** X13. One call of [compress_video_to_target] runs ffmpeg at most 7
    times (the first run, the downscaled run, 4 adjustments, the final
    pass), and not at all when the video information is missing or the
    duration is not positive. *)
Theorem compress_video_at_most_7_runs (input : Video.source) (max_size_mb : Q) :
  (List.length (probes (cvt input max_size_mb)) <= 7)%nat /\
  (forall info, Video.src_info input = Some info ->
     (Video.duration info <= 0)%Q ->
     exists msg, cvt input max_size_mb = (Raise (ValueError msg), [])) /\
  (Video.src_info input = None ->
   exists msg, cvt input max_size_mb = (Raise (ValueError msg), [])).
Proof.
  split; [ | split].
  - unfold Video.compress_video_to_target.
    destruct (Video.src_info input) as [info | ]; [ | simpl; lia].
    destruct (Qle_bool (Video.duration info) 0); [simpl; lia | ]. cbv zeta.
    unfold Video.max_attempts.
    rewrite probes_bind, length_app, run_probes_length.
    destruct (result (run _ _ None None _)) as [current0 | e]; [ | simpl; lia].
    rewrite probes_bind, length_app.
    match goal with
    | |- context [probes (if ?c then ?a else ?b)] =>
        assert (H1 : (List.length (probes (if c then a else b)) <= 1)%nat)
          by (destruct c; [rewrite run_probes_length | simpl]; lia);
        destruct (result (if c then a else b)) as [current1 | e];
        [ | simpl; lia]; revert H1; generalize (probes (if c then a else b))
    end.
    intros l1 H1. rewrite probes_bind, length_app.
    match goal with
    | |- context [probes (aloop ?i ?a ?mn ?mx ?n ?c ?b)] =>
        pose proof (aloop_probes_length i a mn mx n c b) as H2;
        destruct (result (aloop i a mn mx n c b)) as [[current2 br] | e];
        [ | simpl; lia]; revert H2; generalize (probes (aloop i a mn mx n c b))
    end.
    intros l2 H2. rewrite probes_bind, length_app.
    match goal with
    | |- context [probes (if ?c then ?a else ?b)] =>
        assert (H3 : (List.length (probes (if c then a else b)) <= 1)%nat)
          by (destruct c; [rewrite run_probes_length | simpl]; lia);
        destruct (result (if c then a else b)) as [[c3 size3] | e];
        [ | simpl; lia]; revert H3; generalize (probes (if c then a else b))
    end.
    intros l3 H3. rewrite probes_ret. simpl. lia.
  - intros info Hinfo Hd. unfold Video.compress_video_to_target. rewrite Hinfo.
    apply Qle_bool_iff in Hd. rewrite Hd. now eexists.
  - intros Hinfo. unfold Video.compress_video_to_target. rewrite Hinfo. now eexists.
Qed.

(** X14. When the first ffmpeg run, at the estimated bitrate and the
    original resolution, already lands inside the band, its output is
    returned after that single run. *)
Theorem first_run_in_band_is_returned (input : Video.source) (max_size_mb : Q)
  (info : Video.video_info) (c : Clip) (size : Z) :
  Video.src_info input = Some info ->
  (0 < Video.duration info)%Q ->
  let video_bitrate :=
    Video.clamp_bitrate
      ((max_size_mb - Video.BUFFER_AVG) * 1024 * 1024 * 8 / Video.duration info
       - inject_Z 128000) in
  ffmpeg video_bitrate 128000 None None (Some (Video.format info)) = Some (c, size) ->
  Video.in_band ((max_size_mb - Video.BUFFER_MAX) * 1024 * 1024)
    ((max_size_mb - Video.BUFFER_MIN) * 1024 * 1024) size = true ->
  cvt input max_size_mb =
  (Return (Video.Transcoded Clip c,
           py_round2 (py_truediv size (1024 * 1024))),
   [ {| Video.pr_bitrate := video_bitrate; Video.pr_width := None;
        Video.pr_height := None; Video.pr_size := Some size |} ]).
Proof.
  intros Hinfo Hd video_bitrate Hrun Hband.
  unfold Video.compress_video_to_target. rewrite Hinfo.
  assert (Hd' : Qle_bool (Video.duration info) 0 = false).
  { destruct (Qle_bool (Video.duration info) 0) eqn:E; [ | reflexivity].
    apply Qle_bool_iff in E. exfalso. now apply (Qlt_not_le _ _ Hd). }
  rewrite Hd'. cbv zeta. fold video_bitrate.
  destruct (run_cases ffmpeg video_bitrate 128000 None None
              (Some (Video.format info)))
    as [(c' & size' & E & ->) | [E _]]; [ | congruence].
  rewrite Hrun in E. injection E as <- <-.
  assert (Hmax : Qlt_bool ((max_size_mb - Video.BUFFER_MIN) * 1024 * 1024)
                   (inject_Z size) = false).
  { unfold Video.in_band in Hband. apply andb_true_iff in Hband.
    destruct Hband as [_ Hle]. unfold Qlt_bool. now rewrite Hle. }
  assert (Hloop : aloop info 128000
                    ((max_size_mb - Video.BUFFER_MAX) * 1024 * 1024)
                    ((max_size_mb - Video.BUFFER_MIN) * 1024 * 1024)
                    Video.max_attempts (c, size) video_bitrate
                  = ret (c, size, video_bitrate)).
  { change Video.max_attempts with 4%nat. rewrite aloop_S. cbn [snd].
    now rewrite Hband. }
  match goal with
  | |- bind _ ?k = _ =>
      assert (HK : k (c, size) =
                ret (Video.Transcoded Clip c,
                     py_round2 (py_truediv size (1024 * 1024))))
  end.
  { cbv beta. cbn [snd]. rewrite Hmax, bind_ret_l, Hloop, bind_ret_l.
    cbv beta iota. cbn [snd]. rewrite Hmax, bind_ret_l. reflexivity. }
  rewrite bind_Return, HK. reflexivity.
Qed.

Lemma Qmult_le_self (x k : Q) : (0 <= x)%Q -> (k <= 1)%Q -> (x * k <= x)%Q.
Proof.
  intros Hx Hk. rewrite <- (Qmult_1_r x) at 2. rewrite !(Qmult_comm x).
  now apply Qmult_le_compat_r.
Qed.

Lemma Qmult_ge_self (x k : Q) : (0 <= x)%Q -> (1 <= k)%Q -> (x <= x * k)%Q.
Proof.
  intros Hx Hk. rewrite <- (Qmult_1_r x) at 1. rewrite !(Qmult_comm x).
  now apply Qmult_le_compat_r.
Qed.

(** X15. Starting from a bitrate within the limits, an adjustment after a
    run above the band never raises the bitrate, and an adjustment after a
    run not above the band never lowers it. *)
Theorem adjust_bitrate_direction (max_bytes : Q) (final_size : Z)
  (video_bitrate : Q) :
  (Video.min_bitrate <= video_bitrate)%Q ->
  (video_bitrate <= Video.max_bitrate)%Q ->
  ((max_bytes < inject_Z final_size)%Q ->
   (Video.adjust_bitrate max_bytes final_size video_bitrate <= video_bitrate)%Q) /\
  ((inject_Z final_size <= max_bytes)%Q ->
   (video_bitrate <= Video.adjust_bitrate max_bytes final_size video_bitrate)%Q).
Proof.
  intros Hmin Hmax.
  assert (Hpos : (0 <= video_bitrate)%Q).
  { eapply Qle_trans; [ | exact Hmin]. discriminate. }
  unfold Video.adjust_bitrate, Video.clamp_bitrate. split; intros Hsize.
  - apply Qlt_bool_iff in Hsize. rewrite Hsize.
    destruct (py_max_cases Video.min_bitrate
                (py_min (video_bitrate * (9 # 10)) Video.max_bitrate)) as [-> | ->];
      [exact Hmin | ].
    eapply Qle_trans; [exact (proj1 (py_min_spec _ _)) | ].
    apply Qmult_le_self; [exact Hpos | discriminate].
  - apply Qlt_bool_false_iff in Hsize. rewrite Hsize.
    eapply Qle_trans; [ | exact (proj2 (py_max_spec _ _))].
    destruct (py_min_cases (video_bitrate * (11 # 10)) Video.max_bitrate)
      as [-> | ->]; [ | exact Hmax].
    apply Qmult_ge_self; [exact Hpos | discriminate].
Qed.

End VideoExtras.

(** ** The checks of [compress_file] *)

Section AppExtras.

(** Python's [str.lower]; on ASCII strings it is [lower]. *)
Variable str_lower : string -> string.
Hypothesis str_lower_ascii : forall s, ascii_only s -> str_lower s = lower s.

Local Abbreviation allowed_file := (App.allowed_file str_lower).

Lemma member_In (extension : string) (allowed : list string) :
  App.member extension allowed = true <-> In extension allowed.
Proof.
  unfold App.member. rewrite existsb_exists. split.
  - intros (x & Hin & Heq). apply String.eqb_eq in Heq. now subst.
  - intros Hin. exists extension. split; [exact Hin | apply String.eqb_refl].
Qed.

Lemma after_last_dot_None (s : string) :
  App.after_last_dot s = None <-> ~ In "."%char (list_ascii_of_string s).
Proof.
  induction s as [ | c s IH]; simpl.
  - split; [intros _ [] | reflexivity].
  - destruct (App.after_last_dot s) as [e | ].
    + split; [discriminate | ]. intros H. exfalso.
      assert (Hs : ~ In "."%char (list_ascii_of_string s)) by tauto.
      apply IH in Hs. discriminate.
    + destruct (Ascii.eqb_spec c ".") as [-> | Hc].
      * split; [discriminate | ]. intros H. exfalso. apply H. now left.
      * split; [ | reflexivity]. intros _ [H | H]; [congruence | ].
        now apply (proj1 IH).
Qed.

Lemma after_last_dot_app (base extension : string) :
  App.after_last_dot extension = None ->
  App.after_last_dot (base ++ "." ++ extension) = Some extension.
Proof.
  intros Hext. induction base as [ | c base IH]; simpl.
  - now rewrite Hext.
  - simpl in IH. now rewrite IH.
Qed.

(** X16. [allowed_file] rejects every name without a dot, whatever the
    type; for a name [base.ext] whose [ext] has no dot and consists of ASCII
    characters, it accepts exactly when the type is image, pdf or video and
    [ext], lower-cased, is in the list of that type: the base name and the
    case of the extension do not matter, and an unknown type is never
    accepted. *)
Theorem allowed_file_by_last_extension :
  (forall name file_type,
     ~ In "."%char (list_ascii_of_string name) ->
     allowed_file name file_type = false) /\
  (forall base extension file_type,
     ~ In "."%char (list_ascii_of_string extension) ->
     ascii_only extension ->
     (allowed_file (base ++ "." ++ extension) file_type = true <->
      (file_type = "image"%string /\
       In (lower extension) App.ALLOWED_IMAGE_EXTENSIONS) \/
      (file_type = "pdf"%string /\
       In (lower extension) App.ALLOWED_PDF_EXTENSIONS) \/
      (file_type = "video"%string /\
       In (lower extension) App.ALLOWED_VIDEO_EXTENSIONS))).
Proof.
  split.
  - intros name file_type Hnodot. apply after_last_dot_None in Hnodot.
    unfold App.allowed_file. rewrite Hnodot.
    destruct (String.eqb file_type "image"); [reflexivity | ].
    destruct (String.eqb file_type "pdf"); [reflexivity | ].
    destruct (String.eqb file_type "video"); reflexivity.
  - intros base extension file_type Hnodot Hascii.
    apply after_last_dot_None in Hnodot.
    unfold App.allowed_file. rewrite (after_last_dot_app base extension Hnodot).
    rewrite (str_lower_ascii extension Hascii).
    destruct (String.eqb_spec file_type "image") as [-> | Himg].
    { rewrite member_In. split; [intros H; left; now split | ].
      intros [[_ H] | [[H _] | [H _]]]; [exact H | discriminate ..]. }
    destruct (String.eqb_spec file_type "pdf") as [-> | Hpdf].
    { rewrite member_In. split; [intros H; right; left; now split | ].
      intros [[H _] | [[_ H] | [H _]]]; [discriminate | exact H | discriminate]. }
    destruct (String.eqb_spec file_type "video") as [-> | Hvid].
    { rewrite member_In. split; [intros H; right; right; now split | ].
      intros [[H _] | [[H _] | [_ H]]]; [discriminate .. | exact H]. }
    split; [discriminate | ].
    intros [[H _] | [[H _] | [H _]]]; contradiction.
Qed.

Lemma py_int_at_least (x : Q) (n : Z) :
  0 <= n -> (inject_Z n <= x)%Q -> n <= py_int x.
Proof.
  intros Hn Hx.
  assert (H0 : (0 <= x)%Q).
  { eapply Qle_trans; [ | exact Hx]. now apply inject_Z_nonneg. }
  rewrite py_int_floor by exact H0.
  rewrite <- (Qfloor_Z n). now apply Qfloor_resp_le.
Qed.

Section Checks.

Variable float_of : string -> option Q.
Variable FFMPEG_INSTALLED : bool.

Local Abbreviation target_size_of := (App.target_size_of str_lower float_of).
Local Abbreviation check_request :=
  (App.check_request str_lower float_of FFMPEG_INSTALLED).

Lemma target_size_of_at_least_20 (r : App.request) (max_size_kb : Z) :
  target_size_of r = inr max_size_kb -> 20 <= max_size_kb.
Proof.
  unfold App.target_size_of.
  destruct (match App.form_target_size_kb r with
            | Some text => float_of text
            | None => Some 500%Q
            end) as [max_size | ]; [ | discriminate].
  cbv zeta.
  destruct (String.eqb _ "mb").
  - destruct (Qlt_bool max_size 1) eqn:Hlt; [discriminate | ].
    apply Qlt_bool_false_iff in Hlt.
    assert (Hge : 1024 <= py_int (max_size * 1024)).
    { apply py_int_at_least; [lia | ].
      change (inject_Z 1024) with (1 * 1024)%Q.
      apply Qmult_le_compat_r; [exact Hlt | discriminate]. }
    destruct (Z.ltb _ App.MIN_TARGET_SIZE); [discriminate | ].
    intros E. injection E as <-. lia.
  - destruct (Qlt_bool max_size 20) eqn:Hlt; [discriminate | ].
    apply Qlt_bool_false_iff in Hlt.
    assert (Hge : 20 <= py_int max_size) by (apply py_int_at_least; [lia | exact Hlt]).
    destruct (Z.ltb _ App.MIN_TARGET_SIZE); [discriminate | ].
    intros E. injection E as <-. exact Hge.
Qed.

(** X17. A target size that passes the validation of [compress_file] is at
    least 20 KB, and at least 1024 KB when the size format is MB; so the
    later check against [MIN_TARGET_SIZE] (5 KB) never rejects anything. *)
Theorem accepted_target_at_least_20_kb (r : App.request) :
  target_size_of r <> inl App.TargetBelowMinimum /\
  (forall max_size_kb,
     target_size_of r = inr max_size_kb ->
     20 <= max_size_kb /\
     (str_lower (match App.form_size_format r with
                 | Some f => f
                 | None => "kb"%string
                 end) = "mb"%string ->
      1024 <= max_size_kb)).
Proof.
  unfold App.target_size_of.
  destruct (match App.form_target_size_kb r with
            | Some text => float_of text
            | None => Some 500%Q
            end) as [max_size | ].
  2:{ split; [discriminate | intros kb H; discriminate]. }
  cbv zeta.
  destruct (String.eqb_spec
              (str_lower (match App.form_size_format r with
                          | Some f => f
                          | None => "kb"%string
                          end)) "mb") as [Hmb | Hkb].
  - destruct (Qlt_bool max_size 1) eqn:Hlt.
    { split; [discriminate | intros kb H; discriminate]. }
    apply Qlt_bool_false_iff in Hlt.
    assert (Hge : 1024 <= py_int (max_size * 1024)).
    { apply py_int_at_least; [lia | ].
      change (inject_Z 1024) with (1 * 1024)%Q.
      apply Qmult_le_compat_r; [exact Hlt | discriminate]. }
    destruct (Z.ltb_spec (py_int (max_size * 1024)) App.MIN_TARGET_SIZE) as [H | H].
    { unfold App.MIN_TARGET_SIZE in H. lia. }
    split; [discriminate | ]. intros kb E. injection E as <-. lia.
  - destruct (Qlt_bool max_size 20) eqn:Hlt.
    { split; [discriminate | intros kb H; discriminate]. }
    apply Qlt_bool_false_iff in Hlt.
    assert (Hge : 20 <= py_int max_size) by (apply py_int_at_least; [lia | exact Hlt]).
    destruct (Z.ltb_spec (py_int max_size) App.MIN_TARGET_SIZE) as [H | H].
    { unfold App.MIN_TARGET_SIZE in H. lia. }
    split; [discriminate | ]. intros kb E. injection E as <-.
    split; [lia | contradiction].
Qed.

(** X18. A request that [compress_file] passes on to a compressor has a
    file part with a non-empty name whose extension is allowed for its
    type, a type among image, pdf and video, a target of at least 20 KB and
    an upload of at most 50 MB (100 MB for a video); and a video is only
    passed on when ffmpeg is installed. *)
Theorem accepted_request_is_well_formed (r : App.request) (file_type : string)
  (max_size_kb : Z) :
  check_request r = App.Accepted file_type max_size_kb ->
  App.has_file r = true /\
  App.filename r <> ""%string /\
  file_type = match App.form_file_type r with
              | Some t => t
              | None => "image"%string
              end /\
  allowed_file (App.filename r) file_type = true /\
  (file_type = "image"%string \/ file_type = "pdf"%string \/
   file_type = "video"%string) /\
  20 <= max_size_kb /\
  (file_type = "video"%string ->
   FFMPEG_INSTALLED = true /\ App.upload_size r <= 100 * 1024 * 1024) /\
  (file_type <> "video"%string -> App.upload_size r <= 50 * 1024 * 1024).
Proof.
  unfold App.check_request.
  destruct (App.has_file r); [ | discriminate]. cbn [negb].
  destruct (String.eqb_spec (App.filename r) "") as [ | Hname]; [discriminate | ].
  set (t := match App.form_file_type r with
            | Some t => t
            | None => "image"%string
            end).
  destruct (allowed_file (App.filename r) t) eqn:Hallowed; [ | discriminate].
  cbn [negb].
  assert (Htype : t = "image"%string \/ t = "pdf"%string \/ t = "video"%string).
  { revert Hallowed. unfold App.allowed_file.
    destruct (String.eqb_spec t "image"); [tauto | ].
    destruct (String.eqb_spec t "pdf"); [tauto | ].
    destruct (String.eqb_spec t "video"); [tauto | discriminate]. }
  pose proof (target_size_of_at_least_20 r) as Htarget.
  destruct (String.eqb_spec t "video") as [Hvideo | Hother].
  - destruct FFMPEG_INSTALLED; [ | discriminate]. cbn [negb andb].
    destruct (target_size_of r) as [e | kb]; [discriminate | ].
    destruct (Z.ltb_spec App.MAX_VIDEO_SIZE (App.upload_size r)) as [ | Hsize];
      [discriminate | ].
    intros Hacc. injection Hacc as <- <-.
    pose proof (Htarget kb eq_refl) as Hkb.
    split; [reflexivity | ]. split; [exact Hname | ]. split; [reflexivity | ].
    split; [exact Hallowed | ]. split; [exact Htype | ]. split; [exact Hkb | ].
    split; [intros _; split; [reflexivity | exact Hsize] | ].
    intros Hne. contradiction.
  - cbn [andb].
    destruct (target_size_of r) as [e | kb]; [discriminate | ].
    destruct (Z.ltb_spec App.MAX_FILE_SIZE (App.upload_size r)) as [ | Hsize];
      [discriminate | ].
    intros Hacc. injection Hacc as <- <-.
    pose proof (Htarget kb eq_refl) as Hkb.
    split; [reflexivity | ]. split; [exact Hname | ]. split; [reflexivity | ].
    split; [exact Hallowed | ]. split; [exact Htype | ]. split; [exact Hkb | ].
    split; [intros Hv; contradiction | ].
    intros _. exact Hsize.
Qed.


End Checks.

End AppExtras.

(** ** The further properties on concrete inputs *)

Section ConcreteExtras.

Import Examples.

(** [int(90 * 0.7)] is 62: the float product is just below 63. *)
Lemma calculate_new_dimensions_within_witness :
  1 <= 62 <= 90 /\ 1 <= 108 <= 1080.
Proof.
  assert (Hw : 1 <= 90 < 2 ^ 53) by (split; [lia | reflexivity]).
  assert (Hh : 1 <= 1080 < 2 ^ 53) by (split; [lia | reflexivity]).
  assert (H0 : (0 <= round_double (7 # 10))%Q) by (vm_compute; discriminate).
  assert (H1 : (round_double (7 # 10) <= 1)%Q) by (vm_compute; discriminate).
  assert (H2 : (0 <= round_double (1 # 10))%Q) by (vm_compute; discriminate).
  assert (H3 : (round_double (1 # 10) <= 1)%Q) by (vm_compute; discriminate).
  split.
  - exact (proj1 (calculate_new_dimensions_within 90 1080 (round_double (7 # 10))
                    Hw Hh H0 H1)).
  - exact (proj2 (calculate_new_dimensions_within 90 1080 (round_double (1 # 10))
                    Hw Hh H2 H3)).
Defined.

Lemma binary_search_quality_within_bounds_witness : 1 <= 50 <= 95.
Proof.
  assert (Hbounds : 1 <= 95) by lia.
  exact (binary_search_quality_within_bounds encode_linear png_image
           "JPEG"%string 500 1 95 None None 1 50 500 50 Hbounds eq_refl).
Defined.

Lemma binary_search_quality_none_iff_witness :
  result (Image.binary_search_quality Z encode_huge png_image "JPEG" 5120 1 95
            None None 1) = Return None.
Proof.
  apply (proj2 (binary_search_quality_none_iff encode_huge png_image
                  "JPEG"%string 5120 1 95 None None 1)).
  exists 95, 1000000, 1, 1000000.
  split; [reflexivity | ]. split; [lia | ]. split; [reflexivity | lia].
Defined.

Lemma compress_image_failure_is_last_resort_witness :
  Forall (fun p => Image.compliant (5 * 1024) p = false)
    (probes (Image.compress_image Z encode_huge stem png_file 5)).
Proof.
  apply Forall_forall.
  assert (Hres : exists a name info,
            result (Image.compress_image Z encode_huge stem png_file 5)
              = Return (a, name, info) /\ Image.success info = Some false).
  { eexists. eexists. eexists. split; vm_compute; reflexivity. }
  destruct Hres as (a & name & info & Hres & Hfail).
  exact (proj2 (proj2 (proj2
           (compress_image_failure_is_last_resort encode_huge stem png_file 5
              png_image a name info eq_refl Hres Hfail)))).
Defined.

Lemma compress_image_final_dimensions_witness :
  exists info,
    (Image.resized info = false /\
     Image.final_dimensions info = Some (Image.img_size png_image)) \/
    (Image.resized info = true /\
     exists scale,
     (In scale Image.scale_factors \/ scale = Image.last_resort_scale) /\
       Image.final_dimensions info =
         Some (Image.calculate_new_dimensions 1920 1080 scale)).
Proof.
  assert (Hres : exists a name info,
            result (Image.compress_image Z encode_huge stem png_file 5)
              = Return (a, name, info)).
  { eexists. eexists. eexists. vm_compute. reflexivity. }
  destruct Hres as (a & name & info & Hres).
  assert (Hbig : 5 * 1024 < Image.file_bytes png_file) by (simpl; lia).
  exists info.
  exact (compress_image_final_dimensions encode_huge stem png_file 5 png_image
           a name info eq_refl Hbig Hres).
Defined.

Lemma compress_image_reported_kb_witness :
  exists info s,
    Image.actual_size_bytes info = Some s /\
    s <= Image.compressed_size info * 1024 < s + 1024 /\
    (Image.success info = Some true -> Image.compressed_size info <= 5).
Proof.
  assert (Hres : exists a name info,
            result (Image.compress_image Z encode_linear stem png_file 5)
              = Return (a, name, info)).
  { eexists. eexists. eexists. vm_compute. reflexivity. }
  destruct Hres as (a & name & info & Hres).
  assert (Hbig : 5 * 1024 < Image.file_bytes png_file) by (simpl; lia).
  exists info.
  exact (compress_image_reported_kb encode_linear stem png_file 5 png_image
           a name info eq_refl Hbig Hres).
Defined.

Lemma tier_lookup_monotone_and_stable_witness :
  (Pdf.quality_factor (Pdf.get_settings_for_quality_factor (1 # 4))
   <= Pdf.quality_factor (Pdf.get_settings_for_quality_factor (3 # 4)))%Q /\
  Pdf.get_settings_for_quality_factor (Pdf.quality_factor highest_level)
    = highest_level.
Proof.
  destruct tier_lookup_monotone_and_stable as (_ & Hmono & Hstable).
  assert (Hle : (1 # 4 <= 3 # 4)%Q) by (unfold Qle; simpl; lia).
  split; [exact (Hmono (1 # 4)%Q (3 # 4)%Q Hle) | ].
  apply Hstable. vm_compute. tauto.
Defined.

Lemma find_optimal_compression_returns_iff_witness :
  returns (Pdf.find_optimal_compression Pdf.level ghostscript_by_dpi 100000000 20).
Proof.
  apply (proj2 (find_optimal_compression_returns_iff ghostscript_by_dpi 20
                  100000000)).
  right. exists Pdf.lowest_level, 3600000.
  split; [reflexivity | right; discriminate].
Defined.

Lemma find_optimal_compression_over_target_is_lowest_witness :
  Pdf.find_optimal_compression Pdf.level ghostscript_by_dpi 100000000 1 =
  (Return (Pdf.Output Pdf.level Pdf.lowest_level 3600000, Pdf.size_mb 3600000),
   [ {| Pdf.pr_level := Pdf.lowest_level; Pdf.pr_size := Some 3600000 |} ]).
Proof.
  destruct (find_optimal_compression_over_target_is_lowest ghostscript_by_dpi 1
              100000000 Pdf.lowest_level 3600000 (Pdf.size_mb 3600000) eq_refl)
    as [_ [Hfit | [_ Heq]]]; [ | exact Heq].
  exfalso. revert Hfit. unfold Qle. simpl. lia.
Defined.

Lemma compress_to_target_size_empty_input_witness :
  Pdf.compress_to_target_size Pdf.level ghostscript_by_dpi (Pdf.FilePath (Some 0)) 20
  = (Raise ZeroDivisionError, []).
Proof.
  assert (Htarget : 0 <= 20) by lia.
  exact (compress_to_target_size_empty_input ghostscript_by_dpi
           (Pdf.FilePath (Some 0)) 20 (or_intror eq_refl) Htarget).
Defined.

Lemma compress_to_target_size_report_witness :
  probes (Pdf.compress_to_target_size Pdf.level ghostscript_by_dpi
            (Pdf.FileObject 100000000) 1024)
  = probes (Pdf.find_optimal_compression Pdf.level ghostscript_by_dpi 100000000
              (inject_Z 1024 / 1024)).
Proof.
  assert (Hpos : 0 < 100000000 < 2 ^ 53) by (split; [lia | reflexivity]).
  exact (proj1 (compress_to_target_size_report ghostscript_by_dpi
                  (Pdf.FileObject 100000000) 100000000 1024 (or_introl eq_refl)
                  Hpos)).
Defined.

Lemma compress_video_at_most_7_runs_witness :
  exists msg,
    Video.compress_video_to_target unit ffmpeg_by_width
      {| Video.src_bytes := 1000000; Video.src_info := None |} 30
    = (Raise (ValueError msg), []).
Proof.
  exact (proj2 (proj2 (compress_video_at_most_7_runs ffmpeg_by_width
                         {| Video.src_bytes := 1000000; Video.src_info := None |}
                         30)) eq_refl).
Defined.

Lemma first_run_in_band_is_returned_witness :
  exists mb,
    Video.compress_video_to_target unit ffmpeg_steady clip_source 30 =
    (Return (Video.Transcoded unit tt, mb),
     [ {| Video.pr_bitrate := 4000000; Video.pr_width := None;
          Video.pr_height := None; Video.pr_size := Some 29884416 |} ]).
Proof.
  assert (Hd : (0 < 10)%Q) by reflexivity.
  eexists.
  exact (first_run_in_band_is_returned ffmpeg_steady clip_source 30
           {| Video.duration := 10; Video.width := 1920; Video.height := 1080;
              Video.format := "mp4" |} tt 29884416 eq_refl Hd eq_refl eq_refl).
Defined.

Lemma adjust_bitrate_direction_witness :
  (Video.adjust_bitrate 100 200 2000000 <= 2000000)%Q /\
  (2000000 <= Video.adjust_bitrate 100 50 2000000)%Q.
Proof.
  assert (Hmin : (Video.min_bitrate <= 2000000)%Q) by (unfold Qle; simpl; lia).
  assert (Hmax : (2000000 <= Video.max_bitrate)%Q) by (unfold Qle; simpl; lia).
  split.
  - apply (proj1 (adjust_bitrate_direction 100 200 2000000 Hmin Hmax)).
    unfold Qlt. simpl. lia.
  - apply (proj2 (adjust_bitrate_direction 100 50 2000000 Hmin Hmax)).
    unfold Qle. simpl. lia.
Defined.

Lemma allowed_file_by_last_extension_witness :
  App.allowed_file lower "README" "image" = false /\
  App.allowed_file lower "holiday.photo.PNG" "image" = true.
Proof.
  destruct (allowed_file_by_last_extension lower (fun s _ => eq_refl))
    as [Hnodot Hdot].
  split.
  - apply Hnodot. simpl. intros H.
    repeat (destruct H as [H | H]; [discriminate | ]). contradiction.
  - assert (Hnodot' : ~ In "."%char (list_ascii_of_string "PNG")).
    { simpl. intros H.
      repeat (destruct H as [H | H]; [discriminate | ]). contradiction. }
    assert (Hascii : ascii_only "PNG").
    { intros c H. simpl in H.
      repeat (destruct H as [<- | H]; [vm_compute; lia | ]). contradiction. }
    apply (proj2 (Hdot "holiday.photo"%string "PNG"%string "image"%string
                    Hnodot' Hascii)).
    left. split; [reflexivity | ]. simpl. tauto.
Defined.

Lemma accepted_target_at_least_20_kb_witness :
  20 <= 300 /\ 1024 <= 2560.
Proof.
  split.
  - exact (proj1 (proj2 (accepted_target_at_least_20_kb lower float_of_sample
                           image_request) 300 eq_refl)).
  - exact (proj2 (proj2 (accepted_target_at_least_20_kb lower float_of_sample
                           video_request) 2560 eq_refl) eq_refl).
Defined.

Lemma accepted_request_is_well_formed_witness :
  App.allowed_file lower "clip.mp4" "video" = true /\ 20 <= 2560.
Proof.
  destruct (accepted_request_is_well_formed lower float_of_sample true video_request
              "video"%string 2560 eq_refl)
    as (_ & _ & _ & Hallowed & _ & Hkb & _).
  split; [exact Hallowed | exact Hkb].
Defined.


End ConcreteExtras.
